(** * energym.utils.common: simulation-time arithmetic, variable-file parsing,
      weather perturbation and the logger factory

    A shallow embedding of [src/energym/utils/common.py] together with the
    parts of the Python standard library the file leans on ([datetime],
    [xml.etree.ElementTree], [logging]) and the capability interfaces of the
    external collaborators (the opyplus model and weather objects, the numpy
    random source). *)

From Stdlib Require Import ZArith Lia Bool Ascii Wf_nat SpecFloat.
From stdpp Require Import base gmap strings list pretty.

Local Open Scope Z_scope.

(** ** Python exceptions and fallible computations *)

Inductive exn : Type :=
  | ValueError
  | OverflowError
  | IndexError
  | KeyError (key : string)
  | KeyError_not_in_index (labels : gset string)
  | ParseError.

Inductive result (A : Type) : Type :=
  | Ok (a : A)
  | Raise (e : exn).

Arguments Ok {A} a.
Arguments Raise {A} e.

Definition bind {A B : Type} (r : result A) (k : A -> result B) : result B :=
  match r with
  | Ok a => k a
  | Raise e => Raise e
  end.

Notation "x <- r ;; k" := (bind r (fun x => k))
  (at level 100, r at next level, right associativity).

(** ** The [datetime] module

    Whole seconds only: every call site of the source builds its instants and
    durations from integers, so the microsecond field is always zero and is
    left out. [total_seconds] is then a whole number far below 2^53, and the
    Python float it returns is that integer exactly. *)

Module PyDatetime.

Definition MINYEAR : Z := 1.
Definition MAXYEAR : Z := 9999.
Definition _MAXORDINAL : Z := 3652059.

Definition _DAYS_IN_MONTH (month : Z) : Z :=
  match month with
  | 1 => 31 | 2 => 28 | 3 => 31 | 4 => 30 | 5 => 31 | 6 => 30
  | 7 => 31 | 8 => 31 | 9 => 30 | 10 => 31 | 11 => 30 | 12 => 31
  | _ => -1
  end.

Definition _DAYS_BEFORE_MONTH (month : Z) : Z :=
  match month with
  | 1 => 0 | 2 => 31 | 3 => 59 | 4 => 90 | 5 => 120 | 6 => 151
  | 7 => 181 | 8 => 212 | 9 => 243 | 10 => 273 | 11 => 304 | 12 => 334
  | _ => -1
  end.

Definition _is_leap (year : Z) : bool :=
  (year mod 4 =? 0) && (negb (year mod 100 =? 0) || (year mod 400 =? 0)).

Definition _days_before_year (year : Z) : Z :=
  let y := year - 1 in
  y * 365 + y / 4 - y / 100 + y / 400.

Definition _days_in_month (year month : Z) : Z :=
  if (month =? 2) && _is_leap year then 29 else _DAYS_IN_MONTH month.

Definition _days_before_month (year month : Z) : Z :=
  _DAYS_BEFORE_MONTH month + (if (2 <? month) && _is_leap year then 1 else 0).

Definition _ymd2ord (year month day : Z) : Z :=
  _days_before_year year + _days_before_month year month + day.

Definition _DI400Y : Z := Eval cbv in _days_before_year 401.
Definition _DI100Y : Z := Eval cbv in _days_before_year 101.
Definition _DI4Y : Z := Eval cbv in _days_before_year 5.

Definition _ord2ymd (n : Z) : Z * Z * Z :=
  let n := n - 1 in
  let n400 := n / _DI400Y in
  let n := n mod _DI400Y in
  let year := n400 * 400 + 1 in
  let n100 := n / _DI100Y in
  let n := n mod _DI100Y in
  let n4 := n / _DI4Y in
  let n := n mod _DI4Y in
  let n1 := n / 365 in
  let n := n mod 365 in
  let year := year + (n100 * 100 + n4 * 4 + n1) in
  if (n1 =? 4) || (n100 =? 4) then (year - 1, 12, 31)
  else
    let leapyear := (n1 =? 3) && (negb (n4 =? 24) || (n100 =? 3)) in
    let month := Z.shiftr (n + 50) 5 in
    let preceding :=
      _DAYS_BEFORE_MONTH month + (if (2 <? month) && leapyear then 1 else 0) in
    let '(month, preceding) :=
      if n <? preceding then
        (month - 1,
         preceding - (_DAYS_IN_MONTH (month - 1)
                      + (if (month - 1 =? 2) && leapyear then 1 else 0)))
      else (month, preceding) in
    (year, month, n - preceding + 1).

(** The constructor takes its fields as C [int]s: a Python [int] that does
    not fit one is refused with [OverflowError] before any range check. *)
Definition fits_c_int (z : Z) : bool :=
  (-2147483648 <=? z) && (z <=? 2147483647).

(** [_check_date_fields], with the range checks in the order Python makes
    them; every failure is a [ValueError]. *)
Definition _check_date_fields (year month day : Z) : result unit :=
  if negb ((MINYEAR <=? year) && (year <=? MAXYEAR)) then Raise ValueError
  else if negb ((1 <=? month) && (month <=? 12)) then Raise ValueError
  else if negb ((1 <=? day) && (day <=? _days_in_month year month))
       then Raise ValueError
  else Ok tt.

Definition _check_time_fields (hour minute second : Z) : result unit :=
  if negb ((0 <=? hour) && (hour <=? 23)) then Raise ValueError
  else if negb ((0 <=? minute) && (minute <=? 59)) then Raise ValueError
  else if negb ((0 <=? second) && (second <=? 59)) then Raise ValueError
  else Ok tt.

Record datetime : Type := mk_datetime {
  year : Z; month : Z; day : Z; hour : Z; minute : Z; second : Z
}.

(** [datetime(year, month, day, hour, minute, second)]: all the fields are
    converted first, then the date and the time are checked. *)
Definition new_datetime (y m d hh mm ss : Z) : result datetime :=
  if negb (forallb fits_c_int [y; m; d; hh; mm; ss]) then Raise OverflowError
  else
  _ <- _check_date_fields y m d ;;
  _ <- _check_time_fields hh mm ss ;;
  Ok (mk_datetime y m d hh mm ss).

Definition toordinal (t : datetime) : Z :=
  _ymd2ord (year t) (month t) (day t).

(** A normalised [timedelta]: [0 <= td_seconds < 86400]. *)
Record timedelta : Type := mk_timedelta { td_days : Z; td_seconds : Z }.

(** [timedelta(days, seconds)]: seconds are carried into days with floor
    division, and a magnitude above 999999999 days is refused. *)
Definition new_timedelta (days seconds : Z) : result timedelta :=
  let d := days + seconds / 86400 in
  let s := seconds mod 86400 in
  if 999999999 <? Z.abs d then Raise OverflowError
  else Ok (mk_timedelta d s).

Definition total_seconds (td : timedelta) : Z :=
  td_days td * 86400 + td_seconds td.

(** [datetime.__add__]: go through the ordinal, add, and come back; an
    ordinal outside [1 .. _MAXORDINAL] is an [OverflowError]. *)
Definition datetime_add (t : datetime) (other : timedelta) : result datetime :=
  self_delta <- new_timedelta (toordinal t)
                  (hour t * 3600 + minute t * 60 + second t) ;;
  delta <- new_timedelta (td_days self_delta + td_days other)
             (td_seconds self_delta + td_seconds other) ;;
  let hh := td_seconds delta / 3600 in
  let rem := td_seconds delta mod 3600 in
  let mm := rem / 60 in
  let ss := rem mod 60 in
  if (0 <? td_days delta) && (td_days delta <=? _MAXORDINAL) then
    let '(y, m, d) := _ord2ymd (td_days delta) in
    Ok (mk_datetime y m d hh mm ss)
  else Raise OverflowError.

(** [datetime.__sub__] on two naive datetimes. *)
Definition datetime_sub (t other : datetime) : result timedelta :=
  let days1 := toordinal t in
  let days2 := toordinal other in
  let secs1 := second t + minute t * 60 + hour t * 3600 in
  let secs2 := second other + minute other * 60 + hour other * 3600 in
  new_timedelta (days1 - days2) (secs1 - secs2).

End PyDatetime.

(** ** [get_delta_seconds] and [get_current_time_info] *)

Import PyDatetime.

Definition get_delta_seconds (year st_mon st_day end_mon end_day : Z) : result Z :=
  startTime <- new_datetime year st_mon st_day 0 0 0 ;;
  end23 <- new_datetime year end_mon end_day 23 0 0 ;;
  hour_more <- new_timedelta 0 3600 ;;
  endTime <- datetime_add end23 hour_more ;;
  delta <- datetime_sub endTime startTime ;;
  Ok (total_seconds delta).

(** The end instant as the source builds it: 23:00 of the end day plus one
    hour. *)
Definition end_time_of (year end_mon end_day : Z) : result datetime :=
  end23 <- new_datetime year end_mon end_day 23 0 0 ;;
  hour_more <- new_timedelta 0 3600 ;;
  datetime_add end23 hour_more.

(** The run-period source: [epm.RunPeriod] is a sequence of records, each a
    mapping from field names to (integer) field values. Indexing an empty
    sequence raises [IndexError], a field that is not there [KeyError]. *)
Record Epm : Type := mk_Epm { RunPeriod : list (gmap string Z) }.

Definition list_getitem {A : Type} (l : list A) (i : nat) : result A :=
  match l !! i with
  | Some a => Ok a
  | None => Raise IndexError
  end.

Definition dict_getitem {A : Type} (d : gmap string A) (k : string) : result A :=
  match d !! k with
  | Some a => Ok a
  | None => Raise (KeyError k)
  end.

Definition default_sim_year : Z := 1991.

(** [sec_elapsed] is an [int], as the docstring has it. *)
Definition get_current_time_info (epm : Epm) (sec_elapsed : Z) (sim_year : Z)
  : result (Z * Z * Z) :=
  rp <- list_getitem (RunPeriod epm) 0 ;;
  begin_month <- dict_getitem rp "begin_month" ;;
  rp' <- list_getitem (RunPeriod epm) 0 ;;
  begin_day_of_month <- dict_getitem rp' "begin_day_of_month" ;;
  start_date <- new_datetime sim_year begin_month begin_day_of_month 0 0 0 ;;
  elapsed <- new_timedelta 0 sec_elapsed ;;
  current_date <- datetime_add start_date elapsed ;;
  Ok (day current_date, month current_date, hour current_date).

(** ** [xml.etree.ElementTree] and [parse_variables] *)

Module ElementTree.

#[local] Unset Elimination Schemes.
Inductive Element : Type :=
  mk_Element (tag : string) (attrib : gmap string string)
             (children : list Element).

#[local] Set Elimination Schemes.

Definition tag (e : Element) : string :=
  match e with mk_Element t _ _ => t end.
Definition attrib (e : Element) : gmap string string :=
  match e with mk_Element _ a _ => a end.
Definition children (e : Element) : list Element :=
  match e with mk_Element _ _ c => c end.

(** What [ET.parse] finds in the file: text that is not well-formed XML
    (a [ParseError]) or a document with its root element. *)
Inductive xml_file : Type :=
  | NotWellFormed
  | Document (root : Element).

Definition parse_getroot (f : xml_file) : result Element :=
  match f with
  | NotWellFormed => Raise ParseError
  | Document root => Ok root
  end.

(** [root.findall(name)] for a plain tag name: the direct children with
    that tag, in document order. *)
Definition findall (e : Element) (name : string) : list Element :=
  List.filter (fun c => String.eqb (tag c) name) (children e).

(** [element[i]] *)
Definition child_getitem (e : Element) (i : nat) : result Element :=
  list_getitem (children e) i.

End ElementTree.

Import ElementTree.

(** The body of the [for] loop, threading the list being built. *)
Fixpoint parse_variables_loop (vars : list Element) (variables : list string)
  : result (list string) :=
  match vars with
  | [] => Ok variables
  | var :: rest =>
      source <- dict_getitem (attrib var) "source" ;;
      if String.eqb source "EnergyPlus" then
        child <- child_getitem var 0 ;;
        ty <- dict_getitem (attrib child) "type" ;;
        parse_variables_loop rest (variables ++ [ty])
      else parse_variables_loop rest variables
  end.

Definition parse_variables (var_file : xml_file) : result (list string) :=
  root <- parse_getroot var_file ;;
  parse_variables_loop (findall root "variable") [].

(** ** Python strings: [str.split] *)

Module PyStr.

(** [split_from sep s skip cur]: scan [s] from left to right. [cur] is the
    part collected since the last separator; [skip] counts the characters
    of a separator just matched that are still to be passed over. At a
    position where [sep] starts the current part is closed, as
    [str.split] does with non-overlapping occurrences taken leftmost
    first. *)
Fixpoint split_from (sep s : string) (skip : nat) (cur : string) : list string :=
  match skip with
  | S k =>
      match s with
      | EmptyString => [cur]
      | String _ s' => split_from sep s' k cur
      end
  | O =>
      match s with
      | EmptyString => [cur]
      | String c s' =>
          if String.prefix sep s
          then cur :: split_from sep s' (String.length sep - 1) EmptyString
          else split_from sep s' O (cur +:+ String c EmptyString)
      end
  end.

(** [s.split(sep)] for a non-empty separator (an empty one is a
    [ValueError]). *)
Definition split (s sep : string) : result (list string) :=
  match sep with
  | EmptyString => Raise ValueError
  | String _ _ => Ok (split_from sep s O EmptyString)
  end.

End PyStr.

(** ** The weather series, the random source and [create_variable_weather] *)

(** Python numbers as the perturber uses them: added, multiplied, printed
    with [str], and handed to numpy as the parameters of a distribution.
    numpy takes a parameter as a C double, which a Python [int] of too
    large a magnitude is not ([py_float_ok]), and tests a scale for a
    negative sign ([py_negative]). *)
Class PyNumber (V : Type) : Type := {
  py_add : V -> V -> V;
  py_mul : V -> V -> V;
  py_str : V -> string;
  py_float_ok : V -> bool;
  py_negative : V -> bool
}.

(** The process-wide random source of [numpy.random]: a state from which the
    next standard-normal draw is taken. *)
Class RandomSource (R V : Type) : Type := {
  standard_normal : R -> V * R
}.

(** Python [int] is an instance, printed in decimal. An [int] converts to a
    double when it rounds to one: its magnitude is below
    [2^1024 - 2^970]. *)
#[export] Instance Z_PyNumber : PyNumber Z := {|
  py_add := Z.add;
  py_mul := Z.mul;
  py_str := pretty;
  py_float_ok := fun z => Z.abs z <? 2 ^ 1024 - 2 ^ 970;
  py_negative := fun z => z <? 0
|}.

(** numpy draws, scales and adds in IEEE binary64. [SpecFloat] has the
    arithmetic of the format with precision 53 and exponent bound 1024. *)
Definition b64_add : spec_float -> spec_float -> spec_float := SFadd 53 1024.
Definition b64_mul : spec_float -> spec_float -> spec_float := SFmul 53 1024.

(** numpy's test of a scale: the sign bit of a double that is no NaN. *)
Definition b64_negative (x : spec_float) : bool :=
  match x with
  | S754_zero s => s
  | S754_infinity s => s
  | S754_finite s _ _ => s
  | S754_nan => false
  end.

Section Binary64.

(** [str] of a Python float: its shortest decimal form, left open here. *)
Variable float_str : spec_float -> string.

(** Python [float] is an instance. *)
Definition Float_PyNumber : PyNumber spec_float := {|
  py_add := b64_add;
  py_mul := b64_mul;
  py_str := float_str;
  py_float_ok := fun _ => true;
  py_negative := b64_negative
|}.

End Binary64.

Section Weather.

Context {V R : Type} {num : PyNumber V} {rng : RandomSource R V}.

(** A dataframe: the number of rows ([shape[0]]) and the named columns. *)
Record DataFrame : Type := mk_DataFrame {
  nrows : nat;
  columns : gmap string (list V)
}.

(** The state the perturber works in: the series held by the
    [weather_data] object, the files on disk (a weather file is kept as the
    series written to it), and the random source. *)
Record World : Type := mk_World {
  weather_series : DataFrame;
  files : gmap string DataFrame;
  random_state : R
}.

Fixpoint draws (n : nat) (r : R) : list V * R :=
  match n with
  | O => ([], r)
  | S n' =>
      let '(z, r1) := standard_normal r in
      let '(zs, r2) := draws n' r1 in
      (z :: zs, r2)
  end.

Fixpoint reshape (rows cols : nat) (l : list V) : list (list V) :=
  match rows with
  | O => []
  | S rows' => take cols l :: reshape rows' cols (drop cols l)
  end.

(** The filling loop of [normal]: [rows * cols] draws taken in row-major
    order, each scaled and shifted as [mu + std * z]. *)
Definition normal_fill (mu std : V) (rows cols : nat) (r : R)
  : list (list V) * R :=
  let '(zs, r') := draws (rows * cols) r in
  (reshape rows cols ((fun z => py_add mu (py_mul std z)) <$> zs), r').

(** [np.random.normal(mu, std, (rows, cols))]: both parameters are taken
    as doubles, [OverflowError] if one cannot be; a negative scale is
    refused with [ValueError]; all this before anything is drawn.
    Otherwise the matrix is filled. *)
Definition normal (mu std : V) (rows cols : nat) (r : R)
  : result (list (list V)) * R :=
  if negb (py_float_ok mu && py_float_ok std) then (Raise OverflowError, r)
  else if py_negative std then (Raise ValueError, r)
  else let '(noise, r') := normal_fill mu std rows cols r in (Ok noise, r').

(** Column [j] of a row-major matrix. *)
Definition matrix_column (m : list (list V)) (j : nat) : list V :=
  omap (fun row : list V => row !! j) m.

(** The labels of a selection that are no column of the frame. *)
Definition missing_labels (df : DataFrame) (names : list string) : list string :=
  List.filter (fun c => bool_decide (columns df !! c = None)) names.

(** [df[names]]: the named columns, in the order asked for. If some label
    is no column the selection fails with a [KeyError] whose message names
    the missing labels. *)
Definition getitem_columns (df : DataFrame) (names : list string)
  : result (list (list V)) :=
  match missing_labels df names with
  | [] => Ok (omap (fun c => columns df !! c) names)
  | missing => Raise (KeyError_not_in_index (list_to_set missing))
  end.

(** [sub + noise]: column [j] of the selection plus column [j] of the
    matrix, row by row. *)
Fixpoint add_matrix (sub : list (list V)) (noise : list (list V)) (j : nat)
  : list (list V) :=
  match sub with
  | [] => []
  | col :: rest =>
      zip_with py_add col (matrix_column noise j) :: add_matrix rest noise (S j)
  end.

(** [df[names] = values] for pairwise distinct names, one column after the
    other. *)
Fixpoint setitem_columns (cols : gmap string (list V)) (names : list string)
    (values : list (list V)) : gmap string (list V) :=
  match names, values with
  | c :: names', v :: values' => setitem_columns (<[c := v]> cols) names' values'
  | _, _ => cols
  end.

(** [df[names] += noise]: select, add, assign back. The assignment goes
    label by label; a label named twice selects two value columns for one
    column of the frame, which pandas refuses with [ValueError]. *)
Definition iadd_columns (df : DataFrame) (names : list string)
    (noise : list (list V)) : result DataFrame :=
  sub <- getitem_columns df names ;;
  let values := add_matrix sub noise 0 in
  if bool_decide (NoDup names)
  then Ok (mk_DataFrame (nrows df) (setitem_columns (columns df) names values))
  else Raise ValueError.

Definition default_columns : list string := ["drybulb"].

(** [df] is the frame [get_weather_series] hands out; the series the
    weather object holds changes only when [set_weather_series] is
    reached. *)
Definition create_variable_weather (w : World) (original_epw_file : string)
    (columns : list string) (variation : option (V * V))
  : World * result (option string) :=
  match variation with
  | None => (w, Ok None)
  | Some (mu, std) =>
      let df := weather_series w in
      let '(drawn, r') := normal mu std (nrows df) (length columns)
                            (random_state w) in
      let w1 := mk_World (weather_series w) (files w) r' in
      match drawn with
      | Raise e => (w1, Raise e)
      | Ok noise =>
      match iadd_columns df columns noise with
      | Raise e => (w1, Raise e)
      | Ok df' =>
          let w2 := mk_World df' (files w1) (random_state w1) in
          match PyStr.split original_epw_file ".epw" with
          | Raise e => (w2, Raise e)
          | Ok parts =>
              match list_getitem parts 0 with
              | Raise e => (w2, Raise e)
              | Ok stem =>
                  let filename :=
                    stem +:+ "_Random_" +:+ py_str mu +:+ "_" +:+ py_str std
                         +:+ ".epw" in
                  (mk_World (weather_series w2)
                     (<[filename := weather_series w2]> (files w2))
                     (random_state w2),
                   Ok (Some filename))
              end
          end
      end
      end
  end.

End Weather.

Arguments DataFrame V : clear implicits.
Arguments World V R : clear implicits.

(** ** The [logging] module and [Logger.getLogger] *)

Module Logging.

Definition NOTSET : Z := 0.
Definition WARNING : Z := 30.

(** A [StreamHandler] on the console. Handlers are objects compared by
    identity; [handler_id] is that identity. *)
Record Handler : Type := mk_Handler {
  handler_id : nat;
  formatter : option string
}.

(** A reference to a logger object: the root logger or the logger the
    manager keeps under a name. *)
Inductive logger_ref : Type :=
  | RootLogger
  | Named (name : string).

Record Logger : Type := mk_Logger {
  level : Z;
  propagate : bool;
  handlers : list Handler;
  parent : option logger_ref
}.

(** An entry of [Manager.loggerDict]: a logger, or a [PlaceHolder] that
    remembers the loggers created below a name that has no logger yet. *)
Inductive node : Type :=
  | LoggerNode (l : Logger)
  | PlaceHolder (loggerMap : list string).

Record Registry : Type := mk_Registry {
  root : Logger;
  loggerDict : gmap string node;
  next_handler_id : nat
}.

(** The registry of a fresh process: only the root logger, at [WARNING]. *)
Definition initial : Registry :=
  mk_Registry (mk_Logger WARNING true [] None) ∅ 0.

Definition ref_name (r : logger_ref) : string :=
  match r with
  | RootLogger => "root"
  | Named n => n
  end.

Definition get_logger (reg : Registry) (r : logger_ref) : option Logger :=
  match r with
  | RootLogger => Some (root reg)
  | Named n =>
      match loggerDict reg !! n with
      | Some (LoggerNode l) => Some l
      | _ => None
      end
  end.

Definition update_node (f : Logger -> Logger) (n : node) : node :=
  match n with
  | LoggerNode l => LoggerNode (f l)
  | PlaceHolder m => PlaceHolder m
  end.

Definition update_logger (reg : Registry) (r : logger_ref) (f : Logger -> Logger)
  : Registry :=
  match r with
  | RootLogger => mk_Registry (f (root reg)) (loggerDict reg) (next_handler_id reg)
  | Named n =>
      mk_Registry (root reg) (alter (update_node f) n (loggerDict reg))
                  (next_handler_id reg)
  end.

Definition set_parent (p : option logger_ref) (l : Logger) : Logger :=
  mk_Logger (level l) (propagate l) (handlers l) p.

(** [PlaceHolder.append] *)
Definition placeholder_append (m : list string) (name : string) : list string :=
  if bool_decide (name ∈ m) then m else m ++ [name].

(** [Manager._fixupParents]: the loop over [i = name.rfind(".")],
    [i = name.rfind(".", 0, i - 1)], ... while [i > 0] and no logger has
    been found. [stop] bounds the positions still to be searched: the
    highest dot below [stop] is the next [i]; a prefix [name[:i]] with no
    entry gets a placeholder, a placeholder gets the new logger appended,
    and the first prefix that is a logger becomes the parent. Without one
    the parent is the root logger. *)
Fixpoint _fixupParents_from (name : string) (stop : nat)
    (dict : gmap string node) : gmap string node * logger_ref :=
  match stop with
  | O => (dict, RootLogger)
  | S i =>
      if bool_decide (String.get i name = Some "."%char) then
        match i with
        | O => (dict, RootLogger)
        | S i' =>
            let substr := String.substring 0 i name in
            match dict !! substr with
            | None =>
                _fixupParents_from name i' (<[substr := PlaceHolder [name]]> dict)
            | Some (LoggerNode _) => (dict, Named substr)
            | Some (PlaceHolder m) =>
                _fixupParents_from name i'
                  (<[substr := PlaceHolder (placeholder_append m name)]> dict)
            end
        end
      else _fixupParents_from name i dict
  end.

Definition _fixupParents (name : string) (dict : gmap string node)
  : gmap string node :=
  let '(dict', rv) := _fixupParents_from name (String.length name) dict in
  alter (update_node (set_parent (Some rv))) name dict'.

(** [Manager._fixupChildren]: every logger recorded in the placeholder
    whose parent's name does not start with [name] is re-parented to the
    new logger, which takes over its old parent. *)
Fixpoint _fixupChildren (ph : list string) (name : string)
    (dict : gmap string node) : gmap string node :=
  match ph with
  | [] => dict
  | c :: rest =>
      let dict' :=
        match dict !! c with
        | Some (LoggerNode cl) =>
            match parent cl with
            | Some p =>
                if bool_decide
                     (String.substring 0 (String.length name) (ref_name p) = name)
                then dict
                else
                  <[c := LoggerNode (set_parent (Some (Named name)) cl)]>
                    (alter (update_node (set_parent (Some p))) name dict)
            | None => dict
            end
        | _ => dict
        end in
      _fixupChildren rest name dict'
  end.

Definition new_Logger : Logger := mk_Logger NOTSET true [] None.

(** [Manager.getLogger] *)
Definition Manager_getLogger (dict : gmap string node) (name : string)
  : gmap string node :=
  match dict !! name with
  | Some (LoggerNode _) => dict
  | Some (PlaceHolder ph) =>
      _fixupParents name
        (_fixupChildren ph name (<[name := LoggerNode new_Logger]> dict))
  | None =>
      _fixupParents name (<[name := LoggerNode new_Logger]> dict)
  end.

(** [logging.getLogger]: the root logger for an empty name and for the
    root's own name, the manager's logger otherwise. *)
Definition logging_getLogger (reg : Registry) (name : string)
  : Registry * logger_ref :=
  if bool_decide (name = EmptyString) || bool_decide (name = ref_name RootLogger)
  then (reg, RootLogger)
  else (mk_Registry (root reg) (Manager_getLogger (loggerDict reg) name)
                    (next_handler_id reg),
        Named name).

(** [logging.StreamHandler()]: a new handler object, no formatter yet. *)
Definition StreamHandler (reg : Registry) : Registry * Handler :=
  (mk_Registry (root reg) (loggerDict reg) (S (next_handler_id reg)),
   mk_Handler (next_handler_id reg) None).

Definition setFormatter (h : Handler) (fmt : string) : Handler :=
  mk_Handler (handler_id h) (Some fmt).

(** [Logger.addHandler]: appended unless the very same object is there. *)
Definition addHandler (h : Handler) (l : Logger) : Logger :=
  if bool_decide (handler_id h ∈ List.map handler_id (handlers l)) then l
  else mk_Logger (level l) (propagate l) (handlers l ++ [h]) (parent l).

Definition setLevel (lvl : Z) (l : Logger) : Logger :=
  mk_Logger lvl (propagate l) (handlers l) (parent l).

Definition set_propagate (b : bool) (l : Logger) : Logger :=
  mk_Logger (level l) b (handlers l) (parent l).

(** [Logger.getEffectiveLevel]: the first non-zero level on the way up the
    parent chain, [NOTSET] if there is none. The chain never visits a
    logger twice, so the number of entries bounds its length. *)
Fixpoint effective_level_from (fuel : nat) (reg : Registry)
    (r : option logger_ref) : Z :=
  match fuel, r with
  | S fuel', Some r' =>
      match get_logger reg r' with
      | Some l =>
          if level l =? 0 then effective_level_from fuel' reg (parent l)
          else level l
      | None => NOTSET
      end
  | _, _ => NOTSET
  end.

Definition getEffectiveLevel (reg : Registry) (r : logger_ref) : Z :=
  effective_level_from (S (S (size (loggerDict reg)))) reg (Some r).

End Logging.

Import Logging.

(** [PercentStyle.default_format] *)
Definition default_format : string := "%(message)s".

(** [fmt or self.default_format]: an empty format string is replaced by the
    default, any other string is kept as it is. *)
Definition stored_format (fmt : string) : string :=
  match fmt with
  | EmptyString => default_format
  | String _ _ => fmt
  end.

Section LoggerFactory.

(** The outcome of the check [logging.Formatter] makes before it accepts
    the format string it is given: since Python 3.8 a %-style string needs
    at least one [%(name)...] field or the constructor raises
    [ValueError]; before, every string passed. The check is made on the
    format the formatter keeps, so the empty string passes whenever the
    default format does. *)
Variable format_accepted : string -> bool.

(** [logging.Formatter(fmt)]: the format kept is [fmt or default_format]. *)
Definition Formatter (fmt : string) : result string :=
  if format_accepted fmt then Ok (stored_format fmt) else Raise ValueError.

(** [Logger.getLogger(self, name, level, formatter)] *)
Definition getLogger (reg : Registry) (name : string) (level : Z)
    (formatter : string) : Registry * result logger_ref :=
  let '(reg1, logger) := logging_getLogger reg name in
  let '(reg2, consoleHandler) := StreamHandler reg1 in
  match Formatter formatter with
  | Raise e => (reg2, Raise e)
  | Ok fmt =>
      let consoleHandler := setFormatter consoleHandler fmt in
      let reg3 := update_logger reg2 logger (addHandler consoleHandler) in
      let reg4 := update_logger reg3 logger (setLevel level) in
      let reg5 := update_logger reg4 logger (set_propagate false) in
      (reg5, Ok logger)
  end.

End LoggerFactory.

(** ** Specification-side notions *)

(** A calendar date the [datetime] type can hold. *)
Definition valid_date (y m d : Z) : Prop :=
  1 <= y <= 9999 /\ 1 <= m <= 12 /\ 1 <= d <= _days_in_month y m.

(** [(m1, d1) <= (m2, d2)], month first. *)
Definition md_le (m1 d1 m2 d2 : Z) : bool :=
  (m1 <? m2) || ((m1 =? m2) && (d1 <=? d2)).

Definition md_lt (m1 d1 m2 d2 : Z) : bool :=
  (m1 <? m2) || ((m1 =? m2) && (d1 <? d2)).

(** The days of a year, January 1st first. *)
Definition days_of_year (y : Z) : list (Z * Z) :=
  flat_map (fun m => List.map (pair m) (seqZ 1 (_days_in_month y m))) (seqZ 1 12).

(** The number of days from [(m1, d1)] to [(m2, d2)], both included: the
    days of the year that lie between the two. *)
Definition days_inclusive (y m1 d1 m2 d2 : Z) : Z :=
  Z.of_nat (length (List.filter
    (fun md : Z * Z => md_le m1 d1 md.1 md.2 && md_le md.1 md.2 m2 d2)
    (days_of_year y))).

(** One position of the 400-year cycle: the date [_ord2ymd] gives for
    ordinal [r + 1] lies in years 1 to 400, is a date of the calendar, and
    [_ymd2ord] takes it back. *)
Definition cycle_ok (r : Z) : bool :=
  let '(y, m, d) := _ord2ymd (r + 1) in
  (1 <=? y) && (y <=? 400) && (1 <=? m) && (m <=? 12) && (1 <=? d)
  && (d <=? _days_in_month y m) && (_ymd2ord y m d =? r + 1).

(** [f] holds at [start], [start + 1], ..., [count] positions in all. *)
Fixpoint all_from (f : Z -> bool) (start : Z) (count : nat) : bool :=
  match count with
  | O => true
  | S count' => f start && all_from f (start + 1) count'
  end.

(** The checks behind the ordinal bounds, one year at a time. *)
Definition year_ok (y : Z) : bool :=
  (0 <=? _days_before_year y) && (_days_before_year y + 366 <? _MAXORDINAL).

(** The days of the year up to [(m, d)], and strictly before it. *)
Definition count_le (y m d : Z) : Z :=
  Z.of_nat (length (List.filter (fun md : Z * Z => md_le md.1 md.2 m d)
                                (days_of_year y))).

Definition count_lt (y m d : Z) : Z :=
  Z.of_nat (length (List.filter (fun md : Z * Z => md_lt md.1 md.2 m d)
                                (days_of_year y))).

Definition prefix_ok (y m d : Z) : bool :=
  if d <=? _days_in_month y m then
    (count_le y m d =? _days_before_month y m + d)
    && (count_lt y m d =? _days_before_month y m + d - 1)
  else true.

Definition prefix_all (y : Z) : bool :=
  all_from (fun m => all_from (fun d => prefix_ok y m d) 1 31) 1 12.

(** The instant [current_date] of [get_current_time_info], before the
    source projects it to day, month and hour. *)
Definition current_date_of (epm : Epm) (sec_elapsed : Z) (sim_year : Z)
  : result datetime :=
  rp <- list_getitem (RunPeriod epm) 0 ;;
  begin_month <- dict_getitem rp "begin_month" ;;
  rp' <- list_getitem (RunPeriod epm) 0 ;;
  begin_day_of_month <- dict_getitem rp' "begin_day_of_month" ;;
  start_date <- new_datetime sim_year begin_month begin_day_of_month 0 0 0 ;;
  elapsed <- new_timedelta 0 sec_elapsed ;;
  datetime_add start_date elapsed.

(** The failures the spec files under [InvalidRunPeriod]: the run-period
    sequence has no first entry, or the entry lacks a field. *)
Definition InvalidRunPeriod (e : exn) : bool :=
  match e with
  | IndexError | KeyError _ => true
  | _ => false
  end.

(** The seconds from the start of day 1 of year 1 to the start of a day. *)
Definition seconds_at (y m d : Z) : Z := 86400 * _ymd2ord y m d.

(** A [variable] element the parser consumes: its [source] attribute is the
    literal ["EnergyPlus"]. *)
Definition is_engine_variable (v : Element) : bool :=
  match attrib v !! "source" with
  | Some s => String.eqb s "EnergyPlus"
  | None => false
  end.

(** A [variable] element that has a [source] attribute naming something
    else. *)
Definition has_other_source (v : Element) : bool :=
  match attrib v !! "source" with
  | Some s => negb (String.eqb s "EnergyPlus")
  | None => false
  end.

(** The schema of the variable file: a [variable] carries a [source]
    attribute and exactly one child, which carries a [type] attribute. *)
Definition conforms (v : Element) : bool :=
  match attrib v !! "source", children v with
  | Some _, [c] => bool_decide (is_Some (attrib c !! "type"))
  | _, _ => false
  end.

(** [ty] is the [type] attribute of the single child of [v]. *)
Definition single_child_type (v : Element) (ty : string) : Prop :=
  exists c, children v = [c] /\ attrib c !! "type" = Some ty.

(** A matched variable without the expected structure: the source is
    ["EnergyPlus"], and there is no first child or it has no [type]
    attribute. *)
Definition matched_malformed (v : Element) : bool :=
  is_engine_variable v &&
  match children v with
  | [] => true
  | c :: _ => bool_decide (attrib c !! "type" = None)
  end.

(** What makes the loop stop with an error at [v]: no [source] attribute at
    all, or a matched variable without the expected structure. *)
Definition breaks_parser (v : Element) : bool :=
  bool_decide (attrib v !! "source" = None) || matched_malformed v.

(** The failures the spec files under [MalformedVariableFile]. *)
Definition MalformedVariableFile (e : exn) : bool :=
  match e with
  | ParseError | KeyError _ | IndexError => true
  | _ => false
  end.

(** The document without the [variable] children of the root that name
    another source. *)
Definition without_other_sources (root : Element) : Element :=
  mk_Element (tag root) (attrib root)
    (List.filter (fun c => negb (String.eqb (tag c) "variable" && has_other_source c))
                 (children root)).

(** The document of the spec's example. *)
Definition example_document : xml_file :=
  Document (mk_Element "root" ∅
    [ mk_Element "variable" {[ "source" := "EnergyPlus" ]}
        [ mk_Element "EnergyPlus" {[ "type" := "Zone Temp" ]} [] ];
      mk_Element "variable" {[ "source" := "Other" ]}
        [ mk_Element "Other" {[ "type" := "Ignored" ]} [] ] ]).

(** The [k]-th standard-normal draw the random source hands out from state
    [r] on (counting from zero). *)
Fixpoint draw_at {V R : Type} {rng : RandomSource R V} (k : nat) (r : R) : V :=
  match k with
  | O => (standard_normal r).1
  | S k' => draw_at k' (standard_normal r).2
  end.

(** A deterministic source over Python integers, to run the model on
    concrete data: the draws are 0, 1, 2, ... *)
Definition counting_source : RandomSource nat Z :=
  {| standard_normal := fun n : nat => (Z.of_nat n, S n) |}.

(** A source whose draws are all the same value. *)
Definition constant_source (z : Z) : RandomSource unit Z :=
  {| standard_normal := fun _ : unit => (z, tt) |}.

(** A small world to run the perturber in: two rows, two columns, no
    files yet, Python integers as cell values, and the counting source. *)
Definition example_world : World Z nat :=
  mk_World
    (mk_DataFrame 2 {[ "drybulb" := [10; 20]; "relhum" := [50; 60] ]})
    ∅ 0%nat.

(** The separator starts at no position inside [a] when [a] is followed by
    [rest]. *)
Fixpoint no_sep_start (sep a rest : string) : bool :=
  match a with
  | EmptyString => true
  | String c a' =>
      negb (String.prefix sep (String c (a' +:+ rest)))
      && no_sep_start sep a' rest
  end.

(** What a registry entry says about a logger's configuration; a name with
    no logger yet reads as the configuration a new logger starts with. *)
Definition node_config (n : option node) : Z * bool * list Handler :=
  match n with
  | Some (LoggerNode l) => (level l, propagate l, handlers l)
  | _ => (NOTSET, true, [])
  end.

Definition is_logger_node (n : option node) : bool :=
  match n with
  | Some (LoggerNode _) => true
  | _ => false
  end.

(** The logger [logging.getLogger(name)] stands for. *)
Definition logger_ref_of (name : string) : logger_ref :=
  if bool_decide (name = EmptyString) || bool_decide (name = ref_name RootLogger)
  then RootLogger else Named name.

(** The handlers a logger has, none if it does not exist yet. *)
Definition handlers_before (reg : Registry) (r : logger_ref) : list Handler :=
  match get_logger reg r with
  | Some l => handlers l
  | None => []
  end.

(** Handler objects are created with increasing identities, so every
    handler attached so far has an identity below the next one. *)
Definition handler_ids_fresh (reg : Registry) : Prop :=
  forall r l h,
    get_logger reg r = Some l -> h ∈ handlers l ->
    (handler_id h < next_handler_id reg)%nat.

(** [ty] is the [type] attribute of the first child of [v]. *)
Definition first_child_type (v : Element) (ty : string) : Prop :=
  exists c cs, children v = c :: cs /\ attrib c !! "type" = Some ty.

(** The exception the loop of [parse_variables] stops with at a variable it
    cannot read: the [source] lookup comes first, then the child, then the
    [type] lookup. *)
Definition error_at (v : Element) : exn :=
  match attrib v !! "source" with
  | None => KeyError "source"
  | Some _ =>
      match children v with
      | [] => IndexError
      | _ :: _ => KeyError "type"
      end
  end.

(** Level, propagate flag and handlers of the logger a reference stands
    for; a name that holds no logger reads as a new logger would. *)
Definition ref_config (reg : Registry) (r : logger_ref)
  : Z * bool * list Handler :=
  match r with
  | RootLogger => (level (root reg), propagate (root reg), handlers (root reg))
  | Named k => node_config (loggerDict reg !! k)
  end.

(** No dot in the name: the logger sits directly below the root. *)
Fixpoint dotless (s : string) : bool :=
  match s with
  | EmptyString => true
  | String c s' => negb (Ascii.eqb c "."%char) && dotless s'
  end.

(** A run of calls of the factory for one name, each with its level and
    format string; the registry they leave. *)
Fixpoint getLogger_calls (format_accepted : string -> bool) (reg : Registry)
    (name : string) (calls : list (Z * string)) : Registry :=
  match calls with
  | [] => reg
  | (lvl, fmt) :: rest =>
      getLogger_calls format_accepted
        (getLogger format_accepted reg name lvl fmt).1 name rest
  end.

(** The exception the [datetime] constructor raises for a year, month and
    day that are no date of the calendar: [OverflowError] when one of them
    does not fit a C [int], [ValueError] otherwise. *)
Definition date_error (y m d : Z) : exn :=
  if forallb fits_c_int [y; m; d] then ValueError else OverflowError.

(** The elements the spec has the parser read, written on the children of
    the root themselves: those with tag [variable] whose source is
    ["EnergyPlus"], in document order. *)
Definition engine_variables (root : Element) : list Element :=
  List.filter
    (fun c => String.eqb (tag c) "variable" && is_engine_variable c)
    (children root).

(** Every [variable] directly below the root follows the schema; what the
    other children look like does not matter. *)
Definition follows_schema (root : Element) : bool :=
  forallb (fun c => negb (String.eqb (tag c) "variable") || conforms c)
    (children root).

(** Doubles: positive zero, the doubles that are numbers of finite size (a
    standard-normal draw always is one), and what adding positive zero does
    to a double, which is nothing except that a negative zero loses its
    sign. *)
Definition positive_zero : spec_float := S754_zero false.

Definition b64_is_finite (x : spec_float) : bool :=
  match x with
  | S754_zero _ | S754_finite _ _ _ => true
  | _ => false
  end.

Definition drop_zero_sign (x : spec_float) : spec_float :=
  match x with
  | S754_zero _ => S754_zero false
  | _ => x
  end.

(** A noise specification numpy accepts: mean and standard deviation
    convert to doubles and the standard deviation is not negative. *)
Definition accepted_variation {V : Type} {num : PyNumber V} (mu std : V) : bool :=
  py_float_ok mu && py_float_ok std && negb (py_negative std).

(** * Properties *)

(** ** The calendar *)

Lemma _is_leap_shift (y q : Z) : _is_leap (y + 400 * q) = _is_leap y.
Proof.
  unfold _is_leap.
  replace ((y + 400 * q) mod 4) with (y mod 4)
    by (replace (y + 400 * q) with (y + (100 * q) * 4) by lia;
        now rewrite Z.mod_add).
  replace ((y + 400 * q) mod 100) with (y mod 100)
    by (replace (y + 400 * q) with (y + (4 * q) * 100) by lia;
        now rewrite Z.mod_add).
  replace ((y + 400 * q) mod 400) with (y mod 400)
    by (replace (y + 400 * q) with (y + q * 400) by lia;
        now rewrite Z.mod_add).
  reflexivity.
Qed.

Lemma _days_before_year_shift (y q : Z) :
  _days_before_year (y + 400 * q) = _days_before_year y + _DI400Y * q.
Proof.
  unfold _days_before_year, _DI400Y. cbv zeta.
  replace ((y + 400 * q - 1) / 4) with ((y - 1) / 4 + 100 * q)
    by (replace (y + 400 * q - 1) with (y - 1 + (100 * q) * 4) by lia;
        now rewrite Z.div_add).
  replace ((y + 400 * q - 1) / 100) with ((y - 1) / 100 + 4 * q)
    by (replace (y + 400 * q - 1) with (y - 1 + (4 * q) * 100) by lia;
        now rewrite Z.div_add).
  replace ((y + 400 * q - 1) / 400) with ((y - 1) / 400 + q)
    by (replace (y + 400 * q - 1) with (y - 1 + q * 400) by lia;
        now rewrite Z.div_add).
  lia.
Qed.

Lemma _days_in_month_shift (y q m : Z) :
  _days_in_month (y + 400 * q) m = _days_in_month y m.
Proof. unfold _days_in_month. now rewrite _is_leap_shift. Qed.

Lemma _ymd2ord_shift (y q m d : Z) :
  _ymd2ord (y + 400 * q) m d = _ymd2ord y m d + _DI400Y * q.
Proof.
  unfold _ymd2ord, _days_before_month.
  rewrite _days_before_year_shift, _is_leap_shift. lia.
Qed.

Lemma _ord2ymd_shift (n : Z) :
  _ord2ymd n =
  let '(y, m, d) := _ord2ymd ((n - 1) mod _DI400Y + 1) in
  (y + 400 * ((n - 1) / _DI400Y), m, d).
Proof.
  unfold _ord2ymd. cbv zeta.
  replace ((n - 1) mod _DI400Y + 1 - 1) with ((n - 1) mod _DI400Y) by lia.
  assert (Hr : 0 <= (n - 1) mod _DI400Y < _DI400Y)
    by (apply Z.mod_pos_bound; reflexivity).
  rewrite (Z.div_small ((n - 1) mod _DI400Y) _DI400Y) by exact Hr.
  rewrite (Z.mod_small ((n - 1) mod _DI400Y) _DI400Y) by exact Hr.
  set (r := (n - 1) mod _DI400Y).
  destruct ((r mod _DI100Y mod _DI4Y / 365 =? 4) || (r / _DI100Y =? 4)).
  - f_equal. f_equal. lia.
  - match goal with |- context [if ?c then _ else _] => destruct c end;
      f_equal; f_equal; lia.
Qed.

Lemma all_from_spec (f : Z -> bool) (count : nat) :
  forall start z,
    all_from f start count = true ->
    start <= z < start + Z.of_nat count -> f z = true.
Proof.
  induction count as [|count IH]; intros start z Hall Hz.
  - lia.
  - simpl in Hall. apply andb_prop in Hall as [Hhd Htl].
    destruct (Z.eq_dec z start) as [->|Hne]; [exact Hhd|].
    apply (IH (start + 1)); [exact Htl | lia].
Qed.

Lemma cycle_all : all_from cycle_ok 0 (Z.to_nat _DI400Y) = true.
Proof. vm_cast_no_check (eq_refl true). Qed.

Lemma cycle_ok_at (r : Z) : 0 <= r < _DI400Y -> cycle_ok r = true.
Proof.
  intros Hr. apply (all_from_spec cycle_ok (Z.to_nat _DI400Y) 0 r cycle_all).
  rewrite Z2Nat.id by discriminate. lia.
Qed.

Ltac month_cases m :=
  let H := fresh "Hm" in
  assert (H : m = 1 \/ m = 2 \/ m = 3 \/ m = 4 \/ m = 5 \/ m = 6 \/ m = 7
              \/ m = 8 \/ m = 9 \/ m = 10 \/ m = 11 \/ m = 12) by lia;
  repeat (destruct H as [H|H]; [subst m|]); [..|subst m].

Lemma _days_before_month_bounds (y m d : Z) :
  1 <= m <= 12 -> 1 <= d <= _days_in_month y m ->
  1 <= _days_before_month y m + d
       <= 365 + (if _is_leap y then 1 else 0).
Proof.
  intros Hm Hd. unfold _days_before_month, _days_in_month in *.
  destruct (_is_leap y); month_cases m; simpl in *; lia.
Qed.

Lemma year_ok_all : all_from year_ok 1 (Z.to_nat 9998) = true.
Proof. vm_cast_no_check (eq_refl true). Qed.

Lemma year_ok_at (y : Z) : 1 <= y <= 9998 -> year_ok y = true.
Proof.
  intros Hy. apply (all_from_spec year_ok (Z.to_nat 9998) 1 y year_ok_all).
  rewrite Z2Nat.id by discriminate. lia.
Qed.

Lemma _ymd2ord_bounds (y m d : Z) :
  valid_date y m d -> 1 <= _ymd2ord y m d <= _MAXORDINAL.
Proof.
  intros (Hy & Hm & Hd).
  pose proof (_days_before_month_bounds y m d Hm Hd) as Hb.
  unfold _ymd2ord.
  destruct (Z.eq_dec y 9999) as [->|Hne].
  - change (_is_leap 9999) with false in Hb.
    change (_days_before_year 9999) with 3651694. unfold _MAXORDINAL. lia.
  - pose proof (year_ok_at y ltac:(lia)) as Hok. unfold year_ok in Hok.
    apply andb_prop in Hok as [H0 H1].
    apply Z.leb_le in H0. apply Z.ltb_lt in H1.
    destruct (_is_leap y); lia.
Qed.

(** Only December 31st of year 9999 sits on the last ordinal. *)
Lemma _ymd2ord_last (y m d : Z) :
  valid_date y m d -> _ymd2ord y m d = _MAXORDINAL ->
  y = 9999 /\ m = 12 /\ d = 31.
Proof.
  intros (Hy & Hm & Hd) Hmax.
  pose proof (_days_before_month_bounds y m d Hm Hd) as Hb.
  unfold _ymd2ord in Hmax.
  destruct (Z.eq_dec y 9999) as [->|Hne].
  - split; [reflexivity|].
    change (_days_before_year 9999) with 3651694 in Hmax.
    unfold _MAXORDINAL, _days_before_month, _days_in_month in *.
    change (_is_leap 9999) with false in *.
    month_cases m; simpl in *; lia.
  - pose proof (year_ok_at y ltac:(lia)) as Hok. unfold year_ok in Hok.
    apply andb_prop in Hok as [H0 H1].
    apply Z.leb_le in H0. apply Z.ltb_lt in H1.
    destruct (_is_leap y); lia.
Qed.

(** [_ord2ymd] on an ordinal of the supported range gives a date of the
    calendar, and [_ymd2ord] takes that date back to the ordinal. *)
Lemma _ord2ymd_spec (n : Z) :
  1 <= n <= _MAXORDINAL ->
  exists y m d,
    _ord2ymd n = (y, m, d) /\ valid_date y m d /\ _ymd2ord y m d = n.
Proof.
  intros Hn.
  assert (Hr : 0 <= (n - 1) mod _DI400Y < _DI400Y)
    by (apply Z.mod_pos_bound; reflexivity).
  pose proof (cycle_ok_at _ Hr) as Hc.
  rewrite _ord2ymd_shift. unfold cycle_ok in Hc.
  destruct (_ord2ymd ((n - 1) mod _DI400Y + 1)) as [[y0 m] d].
  repeat (apply andb_prop in Hc as [Hc ?]).
  repeat match goal with
         | H : (_ <=? _) = true |- _ => apply Z.leb_le in H
         | H : (_ =? _) = true |- _ => apply Z.eqb_eq in H
         end.
  set (q := (n - 1) / _DI400Y).
  assert (Hq : 0 <= q <= 24).
  { unfold q, _DI400Y, _MAXORDINAL in *. split.
    - apply Z.div_pos; lia.
    - apply Z.lt_succ_r. apply Z.div_lt_upper_bound; lia. }
  assert (Hdiv : n - 1 = _DI400Y * q + (n - 1) mod _DI400Y)
    by (apply Z.div_mod; discriminate).
  assert (Hord : _ymd2ord (y0 + 400 * q) m d = n)
    by (rewrite _ymd2ord_shift; lia).
  exists (y0 + 400 * q), m, d. split; [reflexivity|]. split; [|exact Hord].
  assert (Hdim : 1 <= d <= _days_in_month (y0 + 400 * q) m)
    by (rewrite _days_in_month_shift; lia).
  unfold valid_date. split; [|split; [lia | exact Hdim]].
  split; [lia|].
  destruct (Z_le_gt_dec (y0 + 400 * q) 9999) as [Hle|Hgt]; [exact Hle|].
  exfalso.
  assert (Hy : y0 + 400 * q = 10000) by lia.
  rewrite Hy in Hord, Hdim.
  pose proof (_days_before_month_bounds 10000 m d ltac:(lia) Hdim) as Hb.
  unfold _ymd2ord in Hord.
  change (_days_before_year 10000) with 3652059 in Hord.
  unfold _MAXORDINAL in Hn. lia.
Qed.

(** ** Counting the days of a year *)

Lemma _days_in_month_leap (y m : Z) :
  _days_in_month y m = _days_in_month (if _is_leap y then 4 else 1) m.
Proof. unfold _days_in_month. now destruct (_is_leap y). Qed.

Lemma _days_before_month_leap (y m : Z) :
  _days_before_month y m = _days_before_month (if _is_leap y then 4 else 1) m.
Proof. unfold _days_before_month. now destruct (_is_leap y). Qed.

Lemma days_of_year_leap (y : Z) :
  days_of_year y = days_of_year (if _is_leap y then 4 else 1).
Proof.
  unfold days_of_year. apply flat_map_ext. intros m.
  now rewrite _days_in_month_leap.
Qed.

Lemma prefix_all_common : prefix_all 1 = true.
Proof. vm_cast_no_check (eq_refl true). Qed.

Lemma prefix_all_leap : prefix_all 4 = true.
Proof. vm_cast_no_check (eq_refl true). Qed.

Lemma _days_in_month_le_31 (y m : Z) : 1 <= m <= 12 -> _days_in_month y m <= 31.
Proof.
  intros Hm. unfold _days_in_month.
  destruct (_is_leap y); month_cases m; simpl; lia.
Qed.

Lemma count_prefix (y m d : Z) :
  1 <= m <= 12 -> 1 <= d <= _days_in_month y m ->
  count_le y m d = _days_before_month y m + d
  /\ count_lt y m d = _days_before_month y m + d - 1.
Proof.
  intros Hm Hd.
  pose proof (_days_in_month_le_31 y m Hm) as H31.
  assert (Hd31 : 1 <= d <= 31) by lia.
  unfold count_le, count_lt.
  rewrite days_of_year_leap, _days_before_month_leap.
  rewrite _days_in_month_leap in Hd.
  set (y0 := if _is_leap y then 4 else 1) in *.
  assert (Hall : prefix_all y0 = true)
    by (unfold y0; destruct (_is_leap y);
        [exact prefix_all_leap | exact prefix_all_common]).
  unfold prefix_all in Hall.
  pose proof (all_from_spec _ _ _ m Hall ltac:(lia)) as Hrow.
  pose proof (all_from_spec _ _ _ d Hrow ltac:(lia)) as Hcell.
  unfold prefix_ok in Hcell.
  destruct (Z.leb_spec d (_days_in_month y0 m)) as [_|Hlt]; [|lia].
  apply andb_prop in Hcell as [Hle Hlt].
  apply Z.eqb_eq in Hle, Hlt. unfold count_le, count_lt in *. lia.
Qed.

Lemma md_lt_not_le (a b c d : Z) : md_lt a b c d = negb (md_le c d a b).
Proof.
  unfold md_lt, md_le.
  destruct (Z.ltb_spec a c), (Z.ltb_spec c a), (Z.eqb_spec a c),
    (Z.eqb_spec c a), (Z.ltb_spec b d), (Z.leb_spec d b); simpl; try reflexivity; lia.
Qed.

Lemma md_lt_le_trans (a b c d e f : Z) :
  md_lt a b c d = true -> md_le c d e f = true -> md_le a b e f = true.
Proof.
  unfold md_lt, md_le.
  destruct (Z.ltb_spec a c), (Z.eqb_spec a c), (Z.ltb_spec b d),
    (Z.ltb_spec c e), (Z.eqb_spec c e), (Z.leb_spec d f),
    (Z.ltb_spec a e), (Z.eqb_spec a e), (Z.leb_spec b f);
    simpl; intros; try reflexivity; try discriminate; lia.
Qed.

(** In any list of dates, those between [(m1, d1)] and [(m2, d2)] are those
    up to [(m2, d2)] without those before [(m1, d1)]. *)
Lemma filter_between (l : list (Z * Z)) (m1 d1 m2 d2 : Z) :
  md_le m1 d1 m2 d2 = true ->
  (length (List.filter
     (fun md : Z * Z => md_le m1 d1 md.1 md.2 && md_le md.1 md.2 m2 d2) l)
   + length (List.filter (fun md : Z * Z => md_lt md.1 md.2 m1 d1) l)
   = length (List.filter (fun md : Z * Z => md_le md.1 md.2 m2 d2) l))%nat.
Proof.
  intros Hle. induction l as [|[m d] l IH]; [reflexivity|].
  cbn [List.filter fst snd].
  rewrite (md_lt_not_le m d m1 d1).
  destruct (md_le m1 d1 m d) eqn:E1; cbn [negb andb].
  - destruct (md_le m d m2 d2); cbn [length]; lia.
  - assert (Hlt : md_lt m d m1 d1 = true)
      by (rewrite md_lt_not_le, E1; reflexivity).
    rewrite (md_lt_le_trans _ _ _ _ _ _ Hlt Hle). cbn [length]. lia.
Qed.

(** The count of days agrees with the difference of the ordinals. *)
Lemma days_inclusive_ord (y m1 d1 m2 d2 : Z) :
  1 <= m1 <= 12 -> 1 <= d1 <= _days_in_month y m1 ->
  1 <= m2 <= 12 -> 1 <= d2 <= _days_in_month y m2 ->
  md_le m1 d1 m2 d2 = true ->
  days_inclusive y m1 d1 m2 d2 = _ymd2ord y m2 d2 - _ymd2ord y m1 d1 + 1.
Proof.
  intros Hm1 Hd1 Hm2 Hd2 Hle.
  destruct (count_prefix y m2 d2 Hm2 Hd2) as [Hc2 _].
  destruct (count_prefix y m1 d1 Hm1 Hd1) as [_ Hc1].
  pose proof (filter_between (days_of_year y) m1 d1 m2 d2 Hle) as Hf.
  unfold days_inclusive, count_le, count_lt, _ymd2ord in *. lia.
Qed.

(** ** Instants and durations *)

Lemma new_datetime_ok (y m d hh mm ss : Z) :
  valid_date y m d -> 0 <= hh <= 23 -> 0 <= mm <= 59 -> 0 <= ss <= 59 ->
  new_datetime y m d hh mm ss = Ok (mk_datetime y m d hh mm ss).
Proof.
  intros (Hy & Hm & Hd) Hh Hmi Hs.
  pose proof (_days_in_month_le_31 y m Hm) as H31.
  unfold new_datetime, fits_c_int, _check_date_fields, _check_time_fields,
    MINYEAR, MAXYEAR.
  cbn [forallb].
  repeat match goal with
         | |- context [?a <=? ?b] =>
             destruct (Z.leb_spec a b); [|lia]
         end.
  reflexivity.
Qed.

Lemma new_timedelta_ok (days seconds : Z) :
  -999999999 <= days + seconds / 86400 <= 999999999 ->
  new_timedelta days seconds
  = Ok (mk_timedelta (days + seconds / 86400) (seconds mod 86400)).
Proof.
  intros Hd. unfold new_timedelta.
  destruct (Z.ltb_spec 999999999 (Z.abs (days + seconds / 86400))); [lia|].
  reflexivity.
Qed.

(** Adding a duration to an instant: the day count and the second of the
    day of the sum are the quotient and the remainder of the total number of
    seconds, and the date is the one [_ord2ymd] gives for the day count. *)
Lemma datetime_add_ok (t : datetime) (other : timedelta) (D S : Z) :
  valid_date (year t) (month t) (day t) ->
  0 <= hour t <= 23 -> 0 <= minute t <= 59 -> 0 <= second t <= 59 ->
  D = toordinal t + td_days other
      + (hour t * 3600 + minute t * 60 + second t + td_seconds other) / 86400 ->
  S = (hour t * 3600 + minute t * 60 + second t + td_seconds other) mod 86400 ->
  1 <= D <= _MAXORDINAL ->
  exists y m d,
    _ord2ymd D = (y, m, d) /\ valid_date y m d /\ _ymd2ord y m d = D
    /\ datetime_add t other
       = Ok (mk_datetime y m d (S / 3600) (S mod 3600 / 60) (S mod 3600 mod 60)).
Proof.
  intros Hv Hh Hm Hs HD HS HDr.
  pose proof (_ymd2ord_bounds _ _ _ Hv) as Hord. fold (toordinal t) in Hord.
  destruct (_ord2ymd_spec D HDr) as (y & m & d & Hymd & Hval & Hback).
  exists y, m, d. repeat split; try assumption; try apply Hval.
  unfold datetime_add.
  set (st := hour t * 3600 + minute t * 60 + second t) in *.
  assert (Hst : 0 <= st < 86400) by (unfold st; lia).
  rewrite (new_timedelta_ok (toordinal t) st)
    by (rewrite (Z.div_small st) by lia; unfold _MAXORDINAL in *; lia).
  cbn [bind td_days td_seconds].
  rewrite (Z.div_small st) by lia. rewrite (Z.mod_small st) by lia.
  rewrite Z.add_0_r.
  rewrite new_timedelta_ok by (unfold _MAXORDINAL in *; lia).
  cbn [bind td_days td_seconds].
  rewrite <- HD, <- HS.
  destruct (Z.ltb_spec 0 D); [|lia].
  destruct (Z.leb_spec D _MAXORDINAL); [|lia].
  cbn [andb]. rewrite Hymd. reflexivity.
Qed.

(** The difference of two instants that both sit on midnight. *)
Lemma datetime_sub_midnight (y1 m1 d1 y2 m2 d2 : Z) :
  valid_date y1 m1 d1 -> valid_date y2 m2 d2 ->
  datetime_sub (mk_datetime y1 m1 d1 0 0 0) (mk_datetime y2 m2 d2 0 0 0)
  = Ok (mk_timedelta (_ymd2ord y1 m1 d1 - _ymd2ord y2 m2 d2) 0).
Proof.
  intros H1 H2.
  pose proof (_ymd2ord_bounds _ _ _ H1). pose proof (_ymd2ord_bounds _ _ _ H2).
  unfold datetime_sub, toordinal. cbn [year month day hour minute second].
  change (0 + 0 * 60 + 0 * 3600 - (0 + 0 * 60 + 0 * 3600)) with 0.
  rewrite new_timedelta_ok;
    change (0 / 86400) with 0; change (0 mod 86400) with 0;
    rewrite ?Z.add_0_r; [reflexivity | unfold _MAXORDINAL in *; lia].
Qed.

(** ** [get_delta_seconds] *)

(** The end instant, built as 23:00 of the end day plus one hour, is
    midnight of the day after the end day. *)
Lemma end_time_of_next_midnight (y m d : Z) :
  valid_date y m d -> _ymd2ord y m d < _MAXORDINAL ->
  exists y' m' d',
    end_time_of y m d = Ok (mk_datetime y' m' d' 0 0 0)
    /\ valid_date y' m' d'
    /\ _ymd2ord y' m' d' = _ymd2ord y m d + 1.
Proof.
  intros Hv Hlt.
  pose proof (_ymd2ord_bounds _ _ _ Hv) as Hord.
  unfold end_time_of.
  rewrite new_datetime_ok by (try assumption; lia).
  cbn [bind]. change (new_timedelta 0 3600) with (Ok (mk_timedelta 0 3600)).
  cbn [bind].
  assert (Hadd : exists y' m' d',
             _ord2ymd (_ymd2ord y m d + 1) = (y', m', d')
             /\ valid_date y' m' d'
             /\ _ymd2ord y' m' d' = _ymd2ord y m d + 1
             /\ datetime_add (mk_datetime y m d 23 0 0) (mk_timedelta 0 3600)
                = Ok (mk_datetime y' m' d' 0 0 0)).
  { apply (datetime_add_ok (mk_datetime y m d 23 0 0) (mk_timedelta 0 3600)
             (_ymd2ord y m d + 1) 0);
      unfold toordinal;
      cbn [year month day hour minute second td_days td_seconds];
      try assumption; try lia.
    - change ((23 * 3600 + 0 * 60 + 0 + 3600) / 86400) with 1. lia.
    - reflexivity. }
  destruct Hadd as (y' & m' & d' & _ & Hval & Hback & Hadd).
  exists y', m', d'. split; [exact Hadd|]. split; assumption.
Qed.

Lemma get_delta_seconds_unfold (y m1 d1 m2 d2 : Z) :
  get_delta_seconds y m1 d1 m2 d2 =
  (startTime <- new_datetime y m1 d1 0 0 0 ;;
   endTime <- end_time_of y m2 d2 ;;
   delta <- datetime_sub endTime startTime ;;
   Ok (total_seconds delta)).
Proof.
  unfold get_delta_seconds, end_time_of.
  destruct (new_datetime y m1 d1 0 0 0); [|reflexivity]. cbn [bind].
  destruct (new_datetime y m2 d2 23 0 0); [|reflexivity]. cbn [bind].
  destruct (new_timedelta 0 3600); reflexivity.
Qed.

(** C1 (as amended): for two dates of one year, start not after end, the end
    not being December 31st of year 9999, [get_delta_seconds] returns 86400
    times the number of days from start to end inclusive; the end instant
    built as 23:00 plus one hour is midnight after the end day; a same-day
    call gives 86400; the two stated examples hold. *)
Theorem get_delta_seconds_whole_days (y m1 d1 m2 d2 : Z) :
  valid_date y m1 d1 -> valid_date y m2 d2 ->
  md_le m1 d1 m2 d2 = true ->
  (y, m2, d2) <> (9999, 12, 31) ->
  get_delta_seconds y m1 d1 m2 d2 = Ok (86400 * days_inclusive y m1 d1 m2 d2)
  /\ (exists y' m' d',
        end_time_of y m2 d2 = Ok (mk_datetime y' m' d' 0 0 0)
        /\ valid_date y' m' d'
        /\ _ymd2ord y' m' d' = _ymd2ord y m2 d2 + 1)
  /\ (m1 = m2 -> d1 = d2 -> get_delta_seconds y m1 d1 m2 d2 = Ok 86400)
  /\ get_delta_seconds 2021 1 1 1 1 = Ok 86400
  /\ get_delta_seconds 2021 1 1 1 2 = Ok 172800.
Proof.
  intros Hv1 Hv2 Hle Hlast.
  assert (Hlt : _ymd2ord y m2 d2 < _MAXORDINAL).
  { pose proof (_ymd2ord_bounds _ _ _ Hv2) as Hb.
    destruct (Z.eq_dec (_ymd2ord y m2 d2) _MAXORDINAL) as [Heq|Hne]; [|lia].
    destruct (_ymd2ord_last _ _ _ Hv2 Heq) as (-> & -> & ->).
    now contradiction Hlast. }
  destruct (end_time_of_next_midnight y m2 d2 Hv2 Hlt)
    as (y' & m' & d' & Hend & Hv' & Hord').
  assert (Hres : get_delta_seconds y m1 d1 m2 d2
                 = Ok (86400 * days_inclusive y m1 d1 m2 d2)).
  { rewrite get_delta_seconds_unfold.
    rewrite new_datetime_ok by (try assumption; lia). cbn [bind].
    rewrite Hend. cbn [bind].
    rewrite (datetime_sub_midnight _ _ _ _ _ _ Hv' Hv1). cbn [bind].
    unfold total_seconds. cbn [td_days td_seconds].
    rewrite days_inclusive_ord by (try apply Hv1; try apply Hv2; assumption).
    f_equal. lia. }
  split; [exact Hres|].
  split; [exists y', m', d'; repeat split; try assumption; apply Hv'|].
  split; [|split; reflexivity].
  intros <- <-. rewrite Hres.
  rewrite days_inclusive_ord by (try apply Hv1; assumption).
  f_equal. lia.
Qed.

Lemma get_delta_seconds_whole_days_witness :
  get_delta_seconds 2020 2 28 3 1 = Ok (86400 * days_inclusive 2020 2 28 3 1).
Proof.
  refine (proj1 (get_delta_seconds_whole_days 2020 2 28 3 1 _ _ _ _)).
  - repeat split; vm_compute; discriminate.
  - repeat split; vm_compute; discriminate.
  - reflexivity.
  - discriminate.
Defined.

(** C1, as stated, fails on the last day the calendar can hold: the end
    instant would be in year 10000. *)
Lemma get_delta_seconds_last_day_overflows :
  valid_date 9999 12 31
  /\ md_le 12 31 12 31 = true
  /\ get_delta_seconds 9999 12 31 12 31 = Raise OverflowError
  /\ get_delta_seconds 9999 12 31 12 31
     <> Ok (86400 * days_inclusive 9999 12 31 12 31).
Proof.
  split; [repeat split; vm_compute; discriminate|].
  split; [reflexivity|].
  split; [reflexivity|].
  change (get_delta_seconds 9999 12 31 12 31) with (@Raise Z OverflowError).
  discriminate.
Qed.

(** ** [_ymd2ord] is one-to-one on dates *)

Lemma _days_before_year_step (y : Z) :
  _days_before_year (y + 1)
  = _days_before_year y + 365 + (if _is_leap y then 1 else 0).
Proof.
  unfold _days_before_year, _is_leap. cbv zeta.
  replace (y + 1 - 1) with y by lia.
  destruct (Z.eqb_spec (y mod 4) 0), (Z.eqb_spec (y mod 100) 0),
    (Z.eqb_spec (y mod 400) 0); cbn [negb andb orb];
    Z.to_euclidean_division_equations; lia.
Qed.

Lemma _days_before_year_mono (y : Z) (k : nat) :
  _days_before_year y <= _days_before_year (y + Z.of_nat k).
Proof.
  induction k as [|k IH].
  - rewrite Z.add_0_r. lia.
  - replace (y + Z.of_nat (S k)) with (y + Z.of_nat k + 1) by lia.
    rewrite _days_before_year_step. destruct (_is_leap _); lia.
Qed.

Lemma _ymd2ord_year_lt (y m d y' m' d' : Z) :
  1 <= m <= 12 -> 1 <= d <= _days_in_month y m ->
  1 <= m' <= 12 -> 1 <= d' <= _days_in_month y' m' ->
  y < y' -> _ymd2ord y m d < _ymd2ord y' m' d'.
Proof.
  intros Hm Hd Hm' Hd' Hlt.
  pose proof (_days_before_month_bounds y m d Hm Hd).
  pose proof (_days_before_month_bounds y' m' d' Hm' Hd').
  pose proof (_days_before_year_step y) as Hstep.
  pose proof (_days_before_year_mono (y + 1) (Z.to_nat (y' - (y + 1)))) as Hmono.
  rewrite Z2Nat.id in Hmono by lia.
  replace (y + 1 + (y' - (y + 1))) with y' in Hmono by lia.
  unfold _ymd2ord. lia.
Qed.

Lemma _ymd2ord_inj (y m d y' m' d' : Z) :
  1 <= m <= 12 -> 1 <= d <= _days_in_month y m ->
  1 <= m' <= 12 -> 1 <= d' <= _days_in_month y' m' ->
  _ymd2ord y m d = _ymd2ord y' m' d' ->
  y = y' /\ m = m' /\ d = d'.
Proof.
  intros Hm Hd Hm' Hd' Heq.
  assert (Hy : y = y').
  { destruct (Z.lt_trichotomy y y') as [Hlt|[Hyy|Hgt]]; [|exact Hyy|].
    - pose proof (_ymd2ord_year_lt y m d y' m' d' Hm Hd Hm' Hd' Hlt). lia.
    - pose proof (_ymd2ord_year_lt y' m' d' y m d Hm' Hd' Hm Hd ltac:(lia)). lia. }
  subst y'. split; [reflexivity|].
  unfold _ymd2ord, _days_before_month, _days_in_month in *.
  destruct (_is_leap y); month_cases m; month_cases m'; simpl in *; lia.
Qed.

(** ** [get_current_time_info] *)

Lemma get_current_time_info_project (epm : Epm) (e sy : Z) :
  get_current_time_info epm e sy =
  (t <- current_date_of epm e sy ;; Ok (day t, month t, hour t)).
Proof.
  unfold get_current_time_info, current_date_of.
  destruct (list_getitem (RunPeriod epm) 0) as [rp|]; [|reflexivity].
  cbn [bind].
  destruct (dict_getitem rp "begin_month"); [|reflexivity]. cbn [bind].
  destruct (dict_getitem rp "begin_day_of_month"); [|reflexivity]. cbn [bind].
  destruct (new_datetime _ _ _ 0 0 0); [|reflexivity]. cbn [bind].
  destruct (new_timedelta 0 e); reflexivity.
Qed.

Lemma current_date_of_ok (epm : Epm) (rp : gmap string Z) (bm bd sy e : Z) :
  RunPeriod epm !! 0%nat = Some rp ->
  rp !! "begin_month" = Some bm ->
  rp !! "begin_day_of_month" = Some bd ->
  valid_date sy bm bd ->
  1 <= _ymd2ord sy bm bd + e / 86400 <= _MAXORDINAL ->
  exists y m d,
    valid_date y m d
    /\ _ymd2ord y m d = _ymd2ord sy bm bd + e / 86400
    /\ current_date_of epm e sy
       = Ok (mk_datetime y m d (e mod 86400 / 3600)
               (e mod 86400 mod 3600 / 60) (e mod 86400 mod 3600 mod 60)).
Proof.
  intros Hrp Hbm Hbd Hv Hrange.
  pose proof (_ymd2ord_bounds _ _ _ Hv) as Hord.
  assert (Hs : 0 <= e mod 86400 < 86400) by (apply Z.mod_pos_bound; lia).
  unfold current_date_of, list_getitem, dict_getitem.
  rewrite Hrp. cbn [bind]. rewrite Hbm, Hbd. cbn [bind].
  rewrite new_datetime_ok by (try assumption; lia). cbn [bind].
  rewrite new_timedelta_ok by (unfold _MAXORDINAL in *; lia). cbn [bind].
  rewrite Z.add_0_l.
  destruct (datetime_add_ok (mk_datetime sy bm bd 0 0 0)
              (mk_timedelta (e / 86400) (e mod 86400))
              (_ymd2ord sy bm bd + e / 86400) (e mod 86400))
    as (y & m & d & _ & Hval & Hback & Hadd);
    unfold toordinal;
    cbn [year month day hour minute second td_days td_seconds];
    [assumption | lia | lia | lia | | | assumption |].
  - change (0 * 3600 + 0 * 60 + 0) with 0. rewrite Z.add_0_l.
    rewrite (Z.div_small (e mod 86400)) by lia. lia.
  - change (0 * 3600 + 0 * 60 + 0) with 0. rewrite Z.add_0_l.
    now rewrite (Z.mod_small (e mod 86400)) by lia.
  - exists y, m, d. repeat split; try assumption; apply Hval.
Qed.

(** C2 (as amended): when the begin date is a date of [sim_year] and the
    elapsed offset (not negative) does not lead past year 9999,
    [get_current_time_info] returns day, month and hour of the instant
    begin date 00:00:00 plus offset: the returned hour, begun on the
    returned day of some year, contains that instant, so the hour is
    truncated. The stated example holds. *)
Theorem get_current_time_info_instant
    (epm : Epm) (rp : gmap string Z) (bm bd sy e : Z) :
  RunPeriod epm !! 0%nat = Some rp ->
  rp !! "begin_month" = Some bm ->
  rp !! "begin_day_of_month" = Some bd ->
  valid_date sy bm bd ->
  0 <= e ->
  _ymd2ord sy bm bd + e / 86400 <= _MAXORDINAL ->
  (exists y m d h,
     get_current_time_info epm e sy = Ok (d, m, h)
     /\ valid_date y m d /\ 0 <= h <= 23
     /\ seconds_at y m d + 3600 * h
        <= seconds_at sy bm bd + e
        < seconds_at y m d + 3600 * (h + 1))
  /\ get_current_time_info
       (mk_Epm [ {[ "begin_month" := 1; "begin_day_of_month" := 1 ]} ])
       3661 1991 = Ok (1, 1, 1).
Proof.
  intros Hrp Hbm Hbd Hv He Hmax.
  split; [|vm_compute; reflexivity].
  pose proof (_ymd2ord_bounds _ _ _ Hv) as Hord.
  assert (Hq : 0 <= e / 86400) by (apply Z.div_pos; lia).
  destruct (current_date_of_ok epm rp bm bd sy e Hrp Hbm Hbd Hv ltac:(lia))
    as (y & m & d & Hval & Hback & Hcur).
  exists y, m, d, (e mod 86400 / 3600).
  rewrite get_current_time_info_project, Hcur. cbn [bind day month hour].
  split; [reflexivity|]. split; [exact Hval|].
  unfold seconds_at. rewrite Hback.
  Z.to_euclidean_division_equations. lia.
Qed.

Lemma get_current_time_info_instant_witness :
  exists y m d h,
    get_current_time_info
      (mk_Epm [ {[ "begin_month" := 12; "begin_day_of_month" := 31 ]} ])
      90000 1991 = Ok (d, m, h)
    /\ valid_date y m d /\ 0 <= h <= 23
    /\ seconds_at y m d + 3600 * h
       <= seconds_at 1991 12 31 + 90000
       < seconds_at y m d + 3600 * (h + 1).
Proof.
  refine (proj1 (get_current_time_info_instant
                   (mk_Epm [ {[ "begin_month" := 12;
                                "begin_day_of_month" := 31 ]} ])
                   {[ "begin_month" := 12; "begin_day_of_month" := 31 ]}
                   12 31 1991 90000 _ _ _ _ _ _)).
  - reflexivity.
  - vm_compute. reflexivity.
  - vm_compute. reflexivity.
  - repeat split; vm_compute; discriminate.
  - lia.
  - vm_compute. discriminate.
Defined.

(** C2, as stated, fails for a run period that begins on February 29th when
    the simulation year (the default one, say) is not a leap year: no tuple
    is returned. It also fails when the offset leads past year 9999. *)
Lemma get_current_time_info_feb29_fails :
  (get_current_time_info
     (mk_Epm [ {[ "begin_month" := 2; "begin_day_of_month" := 29 ]} ])
     0 default_sim_year = Raise ValueError
   /\ forall r : Z * Z * Z,
        get_current_time_info
          (mk_Epm [ {[ "begin_month" := 2; "begin_day_of_month" := 29 ]} ])
          0 default_sim_year <> Ok r)
  /\ get_current_time_info
       (mk_Epm [ {[ "begin_month" := 12; "begin_day_of_month" := 31 ]} ])
       86400 9999 = Raise OverflowError.
Proof.
  split; [|vm_compute; reflexivity].
  assert (H : get_current_time_info
                (mk_Epm [ {[ "begin_month" := 2; "begin_day_of_month" := 29 ]} ])
                0 default_sim_year = Raise ValueError)
    by (vm_compute; reflexivity).
  split; [exact H|]. intros r. rewrite H. discriminate.
Qed.

(** C8: with no run-period entry, or a first entry that lacks
    [begin_month] or [begin_day_of_month], [get_current_time_info] raises an
    error of the [InvalidRunPeriod] class and returns nothing, whatever the
    offset and the year. *)
Theorem get_current_time_info_invalid_run_period (epm : Epm) (e sy : Z) :
  RunPeriod epm = []
  \/ (exists rp, RunPeriod epm !! 0%nat = Some rp
                 /\ (rp !! "begin_month" = None
                     \/ rp !! "begin_day_of_month" = None)) ->
  exists err,
    get_current_time_info epm e sy = Raise err
    /\ InvalidRunPeriod err = true.
Proof.
  intros [Hnil | (rp & Hrp & Hmiss)];
    unfold get_current_time_info, list_getitem, dict_getitem.
  - rewrite Hnil. exists IndexError. split; reflexivity.
  - rewrite Hrp. cbn [bind].
    destruct (rp !! "begin_month") as [bm|] eqn:Hbm; cbn [bind].
    + destruct Hmiss as [Hm|Hd]; [discriminate|]. rewrite Hd. cbn [bind].
      exists (KeyError "begin_day_of_month"). split; reflexivity.
    + exists (KeyError "begin_month"). split; reflexivity.
Qed.

Lemma get_current_time_info_invalid_run_period_witness :
  exists err,
    get_current_time_info (mk_Epm [ {[ "begin_month" := 1 ]} ]) 3661 1991
    = Raise err
    /\ InvalidRunPeriod err = true.
Proof.
  apply (get_current_time_info_invalid_run_period
           (mk_Epm [ {[ "begin_month" := 1 ]} ]) 3661 1991).
  right. exists {[ "begin_month" := 1 ]}. split; [reflexivity|].
  right. vm_compute. reflexivity.
Defined.

(** C10 (as amended): every offset, negative ones and ones that leave
    [sim_year] included, is accepted as long as the instant it leads to lies
    in years 1 to 9999; and since the year is not returned, moving the
    offset by the distance between the reached date and the same date of
    another year leaves the returned triple unchanged. *)
Theorem get_current_time_info_any_offset
    (epm : Epm) (rp : gmap string Z) (bm bd sy e : Z) :
  RunPeriod epm !! 0%nat = Some rp ->
  rp !! "begin_month" = Some bm ->
  rp !! "begin_day_of_month" = Some bd ->
  valid_date sy bm bd ->
  1 <= _ymd2ord sy bm bd + e / 86400 <= _MAXORDINAL ->
  exists t,
    current_date_of epm e sy = Ok t
    /\ get_current_time_info epm e sy = Ok (day t, month t, hour t)
    /\ forall y2,
         valid_date y2 (month t) (day t) ->
         get_current_time_info epm
           (e + 86400 * (_ymd2ord y2 (month t) (day t)
                         - _ymd2ord (year t) (month t) (day t))) sy
         = Ok (day t, month t, hour t).
Proof.
  intros Hrp Hbm Hbd Hv Hrange.
  destruct (current_date_of_ok epm rp bm bd sy e Hrp Hbm Hbd Hv Hrange)
    as (y & m & d & Hval & Hback & Hcur).
  eexists. split; [exact Hcur|].
  rewrite get_current_time_info_project, Hcur.
  cbn [bind year month day hour]. split; [reflexivity|].
  intros y2 Hv2.
  set (k := _ymd2ord y2 m d - _ymd2ord y m d).
  pose proof (_ymd2ord_bounds _ _ _ Hv2) as Hord2.
  assert (Hdiv : (e + 86400 * k) / 86400 = e / 86400 + k).
  { replace (e + 86400 * k) with (e + k * 86400) by lia.
    rewrite Z.div_add by lia. reflexivity. }
  assert (Hmod : (e + 86400 * k) mod 86400 = e mod 86400).
  { replace (e + 86400 * k) with (e + k * 86400) by lia.
    rewrite Z.mod_add by lia. reflexivity. }
  destruct (current_date_of_ok epm rp bm bd sy (e + 86400 * k)
              Hrp Hbm Hbd Hv ltac:(rewrite Hdiv; unfold k; lia))
    as (y' & m' & d' & Hval' & Hback' & Hcur').
  rewrite get_current_time_info_project, Hcur'. cbn [bind day month hour].
  rewrite Hdiv in Hback'. rewrite Hmod.
  assert (Heq : _ymd2ord y' m' d' = _ymd2ord y2 m d) by (unfold k in *; lia).
  destruct (_ymd2ord_inj y' m' d' y2 m d) as (_ & -> & ->);
    try apply Hval'; try apply Hv2; [exact Heq|reflexivity].
Qed.

Lemma get_current_time_info_any_offset_witness :
  exists t,
    current_date_of
      (mk_Epm [ {[ "begin_month" := 1; "begin_day_of_month" := 1 ]} ])
      (-3600) 1991 = Ok t
    /\ get_current_time_info
         (mk_Epm [ {[ "begin_month" := 1; "begin_day_of_month" := 1 ]} ])
         (-3600) 1991 = Ok (day t, month t, hour t)
    /\ forall y2,
         valid_date y2 (month t) (day t) ->
         get_current_time_info
           (mk_Epm [ {[ "begin_month" := 1; "begin_day_of_month" := 1 ]} ])
           (-3600 + 86400 * (_ymd2ord y2 (month t) (day t)
                             - _ymd2ord (year t) (month t) (day t))) 1991
         = Ok (day t, month t, hour t).
Proof.
  apply (get_current_time_info_any_offset
           (mk_Epm [ {[ "begin_month" := 1; "begin_day_of_month" := 1 ]} ])
           {[ "begin_month" := 1; "begin_day_of_month" := 1 ]} 1 1 1991 (-3600)).
  - reflexivity.
  - vm_compute. reflexivity.
  - vm_compute. reflexivity.
  - repeat split; vm_compute; discriminate.
  - split; vm_compute; discriminate.
Defined.

(** C10, as stated, fails: an offset that leads past year 9999, or back
    before year 1, is refused with [OverflowError]. *)
Lemma get_current_time_info_offset_overflows :
  get_current_time_info
    (mk_Epm [ {[ "begin_month" := 1; "begin_day_of_month" := 1 ]} ])
    (86400 * 3000000) default_sim_year = Raise OverflowError
  /\ get_current_time_info
       (mk_Epm [ {[ "begin_month" := 1; "begin_day_of_month" := 1 ]} ])
       (- (86400 * 800000)) default_sim_year = Raise OverflowError.
Proof. split; vm_compute; reflexivity. Qed.

(** ** [parse_variables] *)

Lemma parse_variables_loop_conforming (vars : list Element) :
  forallb conforms vars = true ->
  forall acc,
  exists tys,
    parse_variables_loop vars acc = Ok (acc ++ tys)
    /\ Forall2 single_child_type (List.filter is_engine_variable vars) tys.
Proof.
  induction vars as [|v vars IH]; intros Hall acc.
  - exists []. split; [now rewrite app_nil_r | constructor].
  - cbn [forallb] in Hall. apply andb_prop in Hall as [Hv Hrest].
    unfold conforms in Hv.
    destruct (attrib v !! "source") as [s|] eqn:Hs; [|discriminate].
    destruct (children v) as [|c [|c' cs]] eqn:Hc; try discriminate.
    apply bool_decide_eq_true in Hv as [ty Hty].
    cbn [parse_variables_loop List.filter].
    unfold dict_getitem, child_getitem, list_getitem, is_engine_variable.
    rewrite Hs. cbn [bind].
    destruct (String.eqb s "EnergyPlus").
    + rewrite Hc. cbn [lookup list_lookup bind]. rewrite Hty. cbn [bind].
      destruct (IH Hrest (acc ++ [ty])) as (tys & Hloop & Hf2).
      exists (ty :: tys). split.
      * rewrite Hloop. now rewrite <- app_assoc.
      * constructor; [|exact Hf2]. exists c. now rewrite Hc.
    + apply IH, Hrest.
Qed.

Lemma findall_engine_variables (root : Element) :
  List.filter is_engine_variable (findall root "variable")
  = engine_variables root.
Proof.
  unfold findall, engine_variables.
  induction (children root) as [|c cs IH]; [reflexivity|].
  cbn [List.filter]. destruct (String.eqb (tag c) "variable"); cbn [andb].
  - cbn [List.filter]. destruct (is_engine_variable c); now rewrite IH.
  - exact IH.
Qed.

Lemma findall_follows_schema (root : Element) :
  follows_schema root = true ->
  forallb conforms (findall root "variable") = true.
Proof.
  unfold findall, follows_schema.
  induction (children root) as [|c cs IH]; [reflexivity|].
  cbn [forallb List.filter]. intros Hall.
  apply andb_prop in Hall as [Hc Hcs].
  destruct (String.eqb (tag c) "variable"); cbn [negb orb] in Hc.
  - cbn [forallb]. rewrite Hc. now apply IH.
  - now apply IH.
Qed.

(** C3: on a document whose top-level [variable] elements follow the
    schema, [parse_variables] returns, for the children of the root that
    have tag [variable] and source ["EnergyPlus"], taken in document order
    and one for one, the [type] of their single child. Children with
    another tag, variables of another source and variables further down in
    the tree contribute nothing; nothing is sorted or dropped as a
    duplicate. The spec's example document gives [["Zone Temp"]]. *)
Theorem parse_variables_engine_types (root : Element) :
  follows_schema root = true ->
  (exists tys,
     parse_variables (Document root) = Ok tys
     /\ Forall2 single_child_type (engine_variables root) tys)
  /\ parse_variables example_document = Ok ["Zone Temp"].
Proof.
  intros Hall. split; [|vm_compute; reflexivity].
  destruct (parse_variables_loop_conforming _
              (findall_follows_schema root Hall) [])
    as (tys & Hloop & Hf2).
  exists tys. split; [exact Hloop|].
  rewrite <- findall_engine_variables. exact Hf2.
Qed.

Lemma parse_variables_engine_types_witness :
  exists tys,
    parse_variables
      (Document (mk_Element "variables" ∅
         [ mk_Element "variable" {[ "source" := "EnergyPlus" ]}
             [ mk_Element "EnergyPlus" {[ "type" := "b" ]} [] ];
           mk_Element "group" ∅
             [ mk_Element "variable" {[ "source" := "EnergyPlus" ]}
                 [ mk_Element "EnergyPlus" {[ "type" := "nested" ]} [] ] ];
           mk_Element "variable" {[ "source" := "Ptolemy" ]}
             [ mk_Element "Ptolemy" {[ "type" := "c" ]} [] ];
           mk_Element "variable" {[ "source" := "EnergyPlus" ]}
             [ mk_Element "EnergyPlus" {[ "type" := "a" ]} [] ];
           mk_Element "variable" {[ "source" := "EnergyPlus" ]}
             [ mk_Element "EnergyPlus" {[ "type" := "b" ]} [] ] ]))
    = Ok tys
    /\ Forall2 single_child_type
         (engine_variables
            (mk_Element "variables" ∅
               [ mk_Element "variable" {[ "source" := "EnergyPlus" ]}
                   [ mk_Element "EnergyPlus" {[ "type" := "b" ]} [] ];
                 mk_Element "group" ∅
                   [ mk_Element "variable" {[ "source" := "EnergyPlus" ]}
                       [ mk_Element "EnergyPlus" {[ "type" := "nested" ]} [] ] ];
                 mk_Element "variable" {[ "source" := "Ptolemy" ]}
                   [ mk_Element "Ptolemy" {[ "type" := "c" ]} [] ];
                 mk_Element "variable" {[ "source" := "EnergyPlus" ]}
                   [ mk_Element "EnergyPlus" {[ "type" := "a" ]} [] ];
                 mk_Element "variable" {[ "source" := "EnergyPlus" ]}
                   [ mk_Element "EnergyPlus" {[ "type" := "b" ]} [] ] ]))
         tys.
Proof.
  refine (proj1 (parse_variables_engine_types _ _)).
  vm_compute. reflexivity.
Defined.

Lemma parse_variables_loop_outcome (vars : list Element) :
  forall acc,
    if existsb breaks_parser vars
    then exists e, parse_variables_loop vars acc = Raise e
                   /\ MalformedVariableFile e = true
    else exists tys, parse_variables_loop vars acc = Ok tys.
Proof.
  induction vars as [|v vars IH]; intros acc.
  - cbn. now exists acc.
  - cbn [existsb parse_variables_loop].
    unfold breaks_parser at 1, matched_malformed, is_engine_variable,
      dict_getitem, child_getitem, list_getitem.
    destruct (attrib v !! "source") as [s|] eqn:Hs; cbn [bind].
    + rewrite bool_decide_eq_false_2 by discriminate. cbn [orb].
      destruct (String.eqb s "EnergyPlus"); cbn [andb orb]; [|apply IH].
      destruct (children v) as [|c cs]; cbn [lookup list_lookup bind orb].
      * exists IndexError. split; reflexivity.
      * destruct (attrib c !! "type") as [ty|] eqn:Hty; cbn [bind].
        -- rewrite bool_decide_eq_false_2 by discriminate. cbn [orb]. apply IH.
        -- rewrite bool_decide_eq_true_2 by reflexivity. cbn [orb].
           exists (KeyError "type"). split; reflexivity.
    + rewrite bool_decide_eq_true_2 by reflexivity. cbn [orb].
      exists (KeyError "source"). split; reflexivity.
Qed.

Lemma parse_variables_loop_skips_other_sources (cs : list Element) :
  forall acc,
    parse_variables_loop
      (List.filter (fun c => String.eqb (tag c) "variable")
         (List.filter
            (fun c => negb (String.eqb (tag c) "variable" && has_other_source c))
            cs)) acc
    = parse_variables_loop
        (List.filter (fun c => String.eqb (tag c) "variable") cs) acc.
Proof.
  induction cs as [|c cs IH]; intros acc; [reflexivity|].
  cbn [List.filter].
  destruct (String.eqb (tag c) "variable") eqn:Htag; cbn [andb negb].
  - destruct (has_other_source c) eqn:Hother; cbn [negb List.filter].
    + unfold has_other_source in Hother. cbn [parse_variables_loop].
      unfold dict_getitem.
      destruct (attrib c !! "source") as [s|]; [|discriminate]. cbn [bind].
      destruct (String.eqb s "EnergyPlus"); [discriminate|]. apply IH.
    + rewrite Htag. cbn [parse_variables_loop].
      destruct (dict_getitem (attrib c) "source") as [s|]; [|reflexivity].
      cbn [bind]. destruct (String.eqb s "EnergyPlus"); [|apply IH].
      destruct (child_getitem c 0) as [ch|]; [|reflexivity]. cbn [bind].
      destruct (dict_getitem (attrib ch) "type"); [|reflexivity]. cbn [bind].
      apply IH.
  - cbn [List.filter]. rewrite Htag. apply IH.
Qed.

(** C7 (as amended): [parse_variables] fails exactly when the file is not
    well-formed XML, or some [variable] child of the root has no [source]
    attribute, or one whose source is ["EnergyPlus"] has no first child or a
    first child without [type]. The error is then of the
    [MalformedVariableFile] class and no list is returned. Variables that
    name another source do not matter: without them the outcome is the
    same. *)
Theorem parse_variables_failure (f : xml_file) :
  ((exists e, parse_variables f = Raise e)
   <-> (f = NotWellFormed
        \/ exists root, f = Document root
             /\ existsb breaks_parser (findall root "variable") = true))
  /\ (forall e, parse_variables f = Raise e ->
        MalformedVariableFile e = true
        /\ forall l, parse_variables f <> Ok l)
  /\ (forall root, f = Document root ->
        parse_variables (Document (without_other_sources root))
        = parse_variables f).
Proof.
  split; [|split].
  - destruct f as [|root]; cbn [parse_variables parse_getroot bind].
    + split; [intros _; now left | intros _; now exists ParseError].
    + pose proof (parse_variables_loop_outcome (findall root "variable") [])
        as Hout.
      destruct (existsb breaks_parser (findall root "variable")) eqn:Hex.
      * destruct Hout as (e & He & _). split.
        -- intros _. right. exists root. now split.
        -- intros _. now exists e.
      * destruct Hout as (tys & Htys). split.
        -- intros (e & He). rewrite Htys in He. discriminate.
        -- intros [Hnot | (root' & Hroot & Hbreak)]; [discriminate|].
           injection Hroot as <-. rewrite Hex in Hbreak. discriminate.
  - intros e He. split; [|intros l Hl; rewrite He in Hl; discriminate].
    destruct f as [|root]; cbn [parse_variables parse_getroot bind] in He.
    + now injection He as <-.
    + pose proof (parse_variables_loop_outcome (findall root "variable") [])
        as Hout.
      destruct (existsb breaks_parser (findall root "variable")).
      * destruct Hout as (e' & He' & Hclass). rewrite He' in He.
        now injection He as <-.
      * destruct Hout as (tys & Htys). rewrite Htys in He. discriminate.
  - intros root ->. cbn [parse_variables parse_getroot bind].
    unfold findall, without_other_sources. cbn [children].
    apply parse_variables_loop_skips_other_sources.
Qed.

(** C7, as stated, fails in the "only if" direction: a well-formed document
    whose only [variable] has no [source] attribute contains no matched
    variable at all, and still the parser fails. *)
Lemma parse_variables_missing_source_fails :
  let root := mk_Element "variables" ∅ [ mk_Element "variable" ∅ [] ] in
  parse_variables (Document root) = Raise (KeyError "source")
  /\ existsb matched_malformed (findall root "variable") = false
  /\ List.filter is_engine_variable (findall root "variable") = [].
Proof. cbv zeta. repeat split; vm_compute; reflexivity. Qed.

(** ** The weather perturber *)

Section WeatherProps.

Context {V R : Type} {num : PyNumber V} {rng : RandomSource R V}.

Lemma draws_spec (n : nat) :
  forall r : R,
    length (draws n r).1 = n
    /\ forall k, (k < n)%nat -> (draws n r).1 !! k = Some (draw_at k r).
Proof.
  induction n as [|n IH]; intros r.
  - split; [reflexivity | intros k Hk; lia].
  - cbn [draws draw_at].
    destruct (standard_normal r) as [z r1] eqn:Hz.
    destruct (IH r1) as [Hlen Hlook].
    destruct (draws n r1) as [zs r2]. cbn [fst snd] in *.
    split; [cbn; now rewrite Hlen|].
    intros [|k] Hk; cbn [draw_at]; rewrite Hz; cbn [fst snd lookup list_lookup].
    + reflexivity.
    + apply Hlook. lia.
Qed.

Lemma length_reshape (rows cols : nat) :
  forall l : list V, length (reshape rows cols l) = rows.
Proof.
  induction rows as [|rows IH]; intros l; [reflexivity|].
  cbn. now rewrite IH.
Qed.

(** Column [j] of a matrix laid out row by row holds the entries
    [j], [cols + j], [2 * cols + j], ... of the flat list. *)
Lemma matrix_column_reshape (cols j : nat) (rows : nat) :
  forall l : list V,
    length l = (rows * cols)%nat -> (j < cols)%nat ->
    length (matrix_column (reshape rows cols l) j) = rows
    /\ forall i, (i < rows)%nat ->
         matrix_column (reshape rows cols l) j !! i = l !! (i * cols + j)%nat.
Proof.
  induction rows as [|rows IH]; intros l Hlen Hj.
  - split; [reflexivity | intros i Hi; lia].
  - cbn [reshape]. unfold matrix_column. cbn [omap list_omap].
    fold (matrix_column (reshape rows cols (drop cols l)) j).
    rewrite lookup_take_lt by exact Hj.
    destruct (lookup_lt_is_Some_2 l j ltac:(lia)) as [x Hx]. rewrite Hx.
    destruct (IH (drop cols l)) as [IHlen IHlook];
      [rewrite length_drop; lia | exact Hj |].
    split; [cbn; now rewrite IHlen|].
    intros [|i] Hi; cbn [lookup list_lookup].
    + change (0 * cols + j)%nat with j. now rewrite Hx.
    + rewrite IHlook by lia. rewrite lookup_drop. f_equal. lia.
Qed.

Lemma missing_labels_spec (df : DataFrame V) (names : list string) (c : string) :
  c ∈ missing_labels df names <-> c ∈ names /\ columns df !! c = None.
Proof.
  unfold missing_labels. induction names as [|c0 names IH].
  - cbn. split; [intros H; now apply elem_of_nil in H|].
    intros [H _]. now apply elem_of_nil in H.
  - cbn [List.filter]. rewrite elem_of_cons.
    destruct (bool_decide_reflect (columns df !! c0 = None)) as [Hc0|Hc0].
    + rewrite elem_of_cons, IH. split.
      * intros [->|[Hin Hn]]; [split; [now left|exact Hc0] | split; [now right|exact Hn]].
      * intros [[->|Hin] Hn]; [now left | right; now split].
    + rewrite IH. split.
      * intros [Hin Hn]. split; [now right|exact Hn].
      * intros [[->|Hin] Hn]; [contradiction | now split].
Qed.

Lemma missing_labels_nil (df : DataFrame V) (names : list string) :
  (forall c, c ∈ names -> is_Some (columns df !! c)) ->
  missing_labels df names = [].
Proof.
  intros Hall. destruct (missing_labels df names) as [|c l] eqn:Hm;
    [reflexivity|].
  assert (Hc : c ∈ missing_labels df names) by (rewrite Hm; left).
  apply missing_labels_spec in Hc as [Hin Hnone].
  destruct (Hall c Hin) as [col Hcol]. congruence.
Qed.

Lemma getitem_columns_ok (df : DataFrame V) (names : list string) :
  (forall c, c ∈ names -> is_Some (columns df !! c)) ->
  exists sub,
    getitem_columns df names = Ok sub
    /\ length sub = length names
    /\ forall j c, names !! j = Some c -> sub !! j = columns df !! c.
Proof.
  intros Hall. unfold getitem_columns.
  rewrite (missing_labels_nil df names Hall).
  eexists. split; [reflexivity|]. clear -Hall.
  induction names as [|c names IH].
  - split; [reflexivity|]. intros j c Hj. discriminate.
  - destruct (Hall c ltac:(left)) as [col Hcol].
    destruct IH as (Hlen & Hlook); [intros c' Hc'; apply Hall; now right|].
    cbn [omap list_omap]. rewrite Hcol.
    split; [cbn; now rewrite Hlen|].
    intros [|j] c' Hj; cbn [lookup list_lookup] in Hj |- *.
    + injection Hj as <-. now rewrite Hcol.
    + now apply Hlook.
Qed.

Lemma add_matrix_spec (noise : list (list V)) (sub : list (list V)) :
  forall j0,
    length (add_matrix sub noise j0) = length sub
    /\ forall j col, sub !! j = Some col ->
         add_matrix sub noise j0 !! j
         = Some (zip_with py_add col (matrix_column noise (j0 + j))).
Proof.
  induction sub as [|col0 sub IH]; intros j0.
  - split; [reflexivity | intros j col Hj; discriminate].
  - destruct (IH (S j0)) as [IHlen IHlook]. cbn [add_matrix].
    split; [cbn; now rewrite IHlen|].
    intros [|j] col Hj; cbn [lookup list_lookup] in Hj |- *.
    + injection Hj as <-. now rewrite Nat.add_0_r.
    + etrans; [exact (IHlook j col Hj)|]. do 3 f_equal. lia.
Qed.

Lemma setitem_columns_notin (names : list string) :
  forall (m : gmap string (list V)) (values : list (list V)) (c : string),
    c ∉ names -> setitem_columns m names values !! c = m !! c.
Proof.
  induction names as [|c0 names IH]; intros m values c Hc; [reflexivity|].
  apply not_elem_of_cons in Hc as [Hne Hc].
  destruct values as [|v values]; [reflexivity|].
  cbn [setitem_columns]. rewrite IH by exact Hc.
  now rewrite lookup_insert_ne.
Qed.

Lemma setitem_columns_lookup (names : list string) :
  forall (m : gmap string (list V)) (values : list (list V)) (j : nat)
         (c : string),
    NoDup names -> length values = length names ->
    names !! j = Some c ->
    setitem_columns m names values !! c = values !! j.
Proof.
  induction names as [|c0 names IH]; intros m values j c Hnd Hlen Hj;
    [discriminate|].
  apply NoDup_cons in Hnd as [Hnotin Hnd].
  destruct values as [|v values]; [discriminate|].
  cbn [setitem_columns]. destruct j as [|j]; cbn in Hj |- *.
  - injection Hj as <-.
    rewrite setitem_columns_notin by exact Hnotin.
    now rewrite lookup_insert_eq.
  - apply IH; [exact Hnd | cbn in Hlen; lia | exact Hj].
Qed.

Lemma split_from_cons (sep : string) (s : string) :
  forall skip cur, exists hd tl, PyStr.split_from sep s skip cur = hd :: tl.
Proof.
  induction s as [|ch s IH]; intros skip cur.
  - destruct skip; cbn; eauto.
  - destruct skip; cbn [PyStr.split_from].
    + destruct (String.prefix sep (String ch s)); [eauto | apply IH].
    + apply IH.
Qed.

End WeatherProps.

(** C4: without a noise specification [create_variable_weather] returns
    [None], no error, and leaves the series, the files and the random
    source as they were. *)
Theorem create_variable_weather_none
    {V R : Type} {num : PyNumber V} {rng : RandomSource R V}
    (w : World V R) (original_epw_file : string) (cols : list string) :
  create_variable_weather w original_epw_file cols None = (w, Ok None)
  /\ weather_series (create_variable_weather w original_epw_file cols None).1
     = weather_series w
  /\ files (create_variable_weather w original_epw_file cols None).1 = files w.
Proof. repeat split. Qed.

Lemma normal_accepted
    {V R : Type} {num : PyNumber V} {rng : RandomSource R V}
    (mu std : V) (rows cols : nat) (r : R) :
  accepted_variation mu std = true ->
  normal mu std rows cols r
  = (Ok (normal_fill mu std rows cols r).1, (normal_fill mu std rows cols r).2).
Proof.
  unfold accepted_variation, normal. intros Hacc.
  apply andb_prop in Hacc as [Hok Hneg]. rewrite Hok.
  apply negb_true_iff in Hneg. rewrite Hneg. cbn [negb].
  now destruct (normal_fill mu std rows cols r).
Qed.

Lemma create_variable_weather_some
    {V R : Type} {num : PyNumber V} {rng : RandomSource R V}
    (w : World V R) (orig : string) (cols : list string) (mu std : V) :
  accepted_variation mu std = true ->
  NoDup cols ->
  (forall c, c ∈ cols ->
     exists col, columns (weather_series w) !! c = Some col
                 /\ length col = nrows (weather_series w)) ->
  exists sub stem rest,
    getitem_columns (weather_series w) cols = Ok sub
    /\ length sub = length cols
    /\ (forall j c, cols !! j = Some c ->
          sub !! j = columns (weather_series w) !! c)
    /\ PyStr.split_from ".epw" orig 0 EmptyString = stem :: rest
    /\ create_variable_weather w orig cols (Some (mu, std))
       = (let noise := (normal_fill mu std (nrows (weather_series w))
                          (length cols) (random_state w)).1 in
          let df' := mk_DataFrame (nrows (weather_series w))
                       (setitem_columns (columns (weather_series w)) cols
                          (add_matrix sub noise 0)) in
          let filename := stem +:+ "_Random_" +:+ py_str mu +:+ "_"
                          +:+ py_str std +:+ ".epw" in
          (mk_World df' (<[filename := df']> (files w))
             (normal_fill mu std (nrows (weather_series w)) (length cols)
                (random_state w)).2,
           Ok (Some filename))).
Proof.
  intros Hstd Hnd Hcols.
  destruct (getitem_columns_ok (weather_series w) cols) as (sub & Hsub & Hlen & Hlook).
  { intros c Hc. destruct (Hcols c Hc) as (col & Hcol & _). now exists col. }
  destruct (split_from_cons ".epw" orig 0 EmptyString) as (stem & rest & Hsplit).
  exists sub, stem, rest. repeat split; try assumption.
  unfold create_variable_weather, iadd_columns.
  rewrite (normal_accepted mu std _ _ _ Hstd).
  destruct (normal_fill mu std (nrows (weather_series w)) (length cols)
              (random_state w)) as [noise r'].
  rewrite Hsub. cbn [bind fst snd weather_series files random_state].
  rewrite (bool_decide_eq_true_2 _ Hnd).
  cbn [PyStr.split]. rewrite Hsplit. reflexivity.
Qed.

(** A negative scale: the call raises [ValueError] and nothing has
    changed, not even the random source. *)
Lemma create_variable_weather_negative_scale
    {V R : Type} {num : PyNumber V} {rng : RandomSource R V}
    (w : World V R) (orig : string) (cols : list string) (mu std : V) :
  py_float_ok mu = true -> py_float_ok std = true ->
  py_negative std = true ->
  create_variable_weather w orig cols (Some (mu, std)) = (w, Raise ValueError).
Proof.
  intros Hmu Hstd Hneg. unfold create_variable_weather, normal.
  rewrite Hmu, Hstd, Hneg. now destruct w.
Qed.

(** Every cell of the noise matrix is its own draw: cell [(i, j)] is the
    draw number [i * cols + j], scaled by [std] and shifted by [mu]. *)
Lemma normal_column
    {V R : Type} {num : PyNumber V} {rng : RandomSource R V}
    (mu std : V) (rows cols : nat) (r : R) (j : nat) :
  (j < cols)%nat ->
  length (matrix_column (normal_fill mu std rows cols r).1 j) = rows
  /\ forall i, (i < rows)%nat ->
       matrix_column (normal_fill mu std rows cols r).1 j !! i
       = Some (py_add mu (py_mul std (draw_at (i * cols + j) r))).
Proof.
  intros Hj. unfold normal_fill.
  destruct (draws_spec (rows * cols) r) as [Hlen Hlook].
  destruct (draws (rows * cols) r) as [zs r']. cbn [fst snd] in *.
  destruct (matrix_column_reshape cols j rows
              ((fun z => py_add mu (py_mul std z)) <$> zs))
    as [Hclen Hclook]; [now rewrite length_fmap | exact Hj |].
  split; [exact Hclen|].
  intros i Hi. rewrite Hclook by exact Hi.
  rewrite list_lookup_fmap, Hlook by nia. reflexivity.
Qed.

(** The frame after a successful call: the rows, the columns that are no
    target, and every cell of a target. *)
Lemma create_variable_weather_cells
    {V R : Type} {num : PyNumber V} {rng : RandomSource R V}
    (w : World V R) (orig : string) (cols : list string) (mu std : V) :
  accepted_variation mu std = true ->
  NoDup cols ->
  (forall c, c ∈ cols ->
     exists col, columns (weather_series w) !! c = Some col
                 /\ length col = nrows (weather_series w)) ->
  exists w' filename,
    create_variable_weather w orig cols (Some (mu, std))
    = (w', Ok (Some filename))
    /\ nrows (weather_series w') = nrows (weather_series w)
    /\ (forall c, c ∉ cols ->
          columns (weather_series w') !! c = columns (weather_series w) !! c)
    /\ (forall j c col,
          cols !! j = Some c ->
          columns (weather_series w) !! c = Some col ->
          exists new,
            columns (weather_series w') !! c = Some new
            /\ length new = length col
            /\ forall i x, col !! i = Some x ->
                 new !! i
                 = Some (py_add x
                           (py_add mu
                              (py_mul std
                                 (draw_at (i * length cols + j)
                                          (random_state w)))))).
Proof.
  intros Hstd Hnd Hcols.
  destruct (create_variable_weather_some w orig cols mu std Hstd Hnd Hcols)
    as (sub & stem & rest & Hsub & Hlen & Hlook & Hsplit & Hrun).
  cbv zeta in Hrun.
  set (noise := (normal_fill mu std (nrows (weather_series w)) (length cols)
                   (random_state w)).1) in *.
  destruct (add_matrix_spec noise sub 0) as [Hamlen Hamlook].
  eexists _, _. split; [exact Hrun|].
  cbn [weather_series nrows columns].
  split; [reflexivity|].
  split; [intros c Hc; now apply setitem_columns_notin|].
  intros j c col Hj Hcol.
  assert (Hjlt : (j < length cols)%nat)
    by (apply lookup_lt_is_Some; now exists c).
  destruct (Hcols c (list_elem_of_lookup_2 _ _ _ Hj)) as (col' & Hcol' & Hrows).
  rewrite Hcol in Hcol'. injection Hcol' as <-.
  destruct (normal_column mu std (nrows (weather_series w)) (length cols)
              (random_state w) j Hjlt) as [Hnlen Hnlook].
  fold noise in Hnlen, Hnlook.
  exists (zip_with py_add col (matrix_column noise j)).
  split; [|split].
  - rewrite (setitem_columns_lookup cols _ _ j c Hnd) by (exact Hj || lia).
    rewrite (Hamlook j col) by (rewrite (Hlook j c Hj); exact Hcol).
    reflexivity.
  - rewrite length_zip_with_l_eq; [reflexivity | lia].
  - intros i x Hi.
    assert (Hilt : (i < nrows (weather_series w))%nat)
      by (rewrite <- Hrows; apply lookup_lt_is_Some; now exists x).
    rewrite lookup_zip_with, Hi, (Hnlook i Hilt). reflexivity.
Qed.

(** When every draw gives the same noise value, a target column is the old
    column with that value added to each cell. *)
Lemma create_variable_weather_constant_noise
    {V R : Type} {num : PyNumber V} {rng : RandomSource R V}
    (w : World V R) (orig : string) (cols : list string) (mu std zero : V) :
  accepted_variation mu std = true ->
  NoDup cols ->
  (forall c, c ∈ cols ->
     exists col, columns (weather_series w) !! c = Some col
                 /\ length col = nrows (weather_series w)) ->
  (forall k, py_add mu (py_mul std (draw_at k (random_state w))) = zero) ->
  exists w' filename,
    create_variable_weather w orig cols (Some (mu, std))
    = (w', Ok (Some filename))
    /\ nrows (weather_series w') = nrows (weather_series w)
    /\ (forall c, c ∉ cols ->
          columns (weather_series w') !! c = columns (weather_series w) !! c)
    /\ (forall c col,
          c ∈ cols -> columns (weather_series w) !! c = Some col ->
          columns (weather_series w') !! c
          = Some ((fun x => py_add x zero) <$> col)).
Proof.
  intros Hstd Hnd Hcols Hzero.
  destruct (create_variable_weather_cells w orig cols mu std Hstd Hnd Hcols)
    as (w' & filename & Hrun & Hrows & Hother & Htarget).
  exists w', filename. repeat (split; [assumption|]).
  intros c col Hin Hcol.
  apply list_elem_of_lookup_1 in Hin as [j Hj].
  destruct (Htarget j c col Hj Hcol) as (new & Hnew & Hnlen & Hcells).
  rewrite Hnew. f_equal. apply list_eq. intros i.
  rewrite list_lookup_fmap.
  destruct (col !! i) as [x|] eqn:Hi.
  - rewrite (Hcells i x Hi), Hzero. reflexivity.
  - cbn. apply lookup_ge_None. apply lookup_ge_None in Hi. lia.
Qed.

(** C5 (as amended): with a noise specification numpy accepts (mean and
    standard deviation convert to doubles, the standard deviation is not
    negative) and pairwise distinct target columns that exist in the
    series, the call succeeds and only the target columns change. A column
    that is not a target is the same after the call; cell [i] of the
    [j]-th target column is the old cell plus [mu + std * z], with [z] the
    draw number [i * (number of targets) + j], so every cell gets a draw of
    its own. When the noise [mu + std * z] is the same value [zero] for
    every draw, as it is for the variation (0, 0), each target cell [x]
    becomes [x + zero]; and if that is [x] again for the cells of the
    targets, the whole series is unchanged. *)
Theorem create_variable_weather_frame
    {V R : Type} {num : PyNumber V} {rng : RandomSource R V}
    (w : World V R) (orig : string) (cols : list string) (mu std : V) :
  accepted_variation mu std = true ->
  NoDup cols ->
  (forall c, c ∈ cols ->
     exists col, columns (weather_series w) !! c = Some col
                 /\ length col = nrows (weather_series w)) ->
  exists w' filename,
    create_variable_weather w orig cols (Some (mu, std))
    = (w', Ok (Some filename))
    /\ nrows (weather_series w') = nrows (weather_series w)
    /\ (forall c, c ∉ cols ->
          columns (weather_series w') !! c = columns (weather_series w) !! c)
    /\ (forall j c col,
          cols !! j = Some c ->
          columns (weather_series w) !! c = Some col ->
          exists new,
            columns (weather_series w') !! c = Some new
            /\ length new = length col
            /\ forall i x, col !! i = Some x ->
                 new !! i
                 = Some (py_add x
                           (py_add mu
                              (py_mul std
                                 (draw_at (i * length cols + j)
                                          (random_state w))))))
    /\ (forall zero,
          (forall k,
             py_add mu (py_mul std (draw_at k (random_state w))) = zero) ->
          (forall c col,
             c ∈ cols -> columns (weather_series w) !! c = Some col ->
             columns (weather_series w') !! c
             = Some ((fun x => py_add x zero) <$> col))
          /\ ((forall c col x,
                 c ∈ cols -> columns (weather_series w) !! c = Some col ->
                 x ∈ col -> py_add x zero = x) ->
              weather_series w' = weather_series w)).
Proof.
  intros Hstd Hnd Hcols.
  destruct (create_variable_weather_cells w orig cols mu std Hstd Hnd Hcols)
    as (w' & filename & Hrun & Hrows & Hother & Htarget).
  exists w', filename. do 4 (split; [assumption|]).
  intros zero Hzero.
  destruct (create_variable_weather_constant_noise w orig cols mu std zero
              Hstd Hnd Hcols Hzero)
    as (w2 & f2 & Hrun2 & _ & _ & Hconst).
  rewrite Hrun in Hrun2. injection Hrun2 as <- <-.
  split; [exact Hconst|].
  intros Hfix.
  destruct (weather_series w) as [n m] eqn:Hw,
           (weather_series w') as [n' m'] eqn:Hw'.
  cbn [nrows columns] in *. subst n'. f_equal.
  apply map_eq. intros c.
  destruct (decide (c ∈ cols)) as [Hin|Hnotin]; [|now apply Hother].
  destruct (Hcols c Hin) as (col & Hcol & _).
  rewrite (Hconst c col Hin Hcol), Hcol. f_equal.
  apply list_eq. intros i. rewrite list_lookup_fmap.
  destruct (col !! i) as [x|] eqn:Hi; [|reflexivity].
  cbn. f_equal. apply (Hfix c col x Hin Hcol).
  now apply list_elem_of_lookup_2 in Hi.
Qed.

Lemma create_variable_weather_frame_witness :
  exists w' filename,
    create_variable_weather (rng := counting_source) example_world "X.epw"
      ["drybulb"] (Some (0, 0))
    = (w', Ok (Some filename))
    /\ nrows (weather_series w') = nrows (weather_series example_world)
    /\ (forall c, c ∉ ["drybulb"] ->
          columns (weather_series w') !! c
          = columns (weather_series example_world) !! c)
    /\ (forall j c col,
          ["drybulb"] !! j = Some c ->
          columns (weather_series example_world) !! c = Some col ->
          exists new,
            columns (weather_series w') !! c = Some new
            /\ length new = length col
            /\ forall i x, col !! i = Some x ->
                 new !! i
                 = Some (py_add x
                           (py_add 0
                              (py_mul 0
                                 (draw_at (rng := counting_source)
                                    (i * length ["drybulb"] + j)
                                    (random_state example_world))))))
    /\ (forall zero,
          (forall k,
             py_add 0 (py_mul 0 (draw_at (rng := counting_source) k
                                   (random_state example_world))) = zero) ->
          (forall c col,
             c ∈ ["drybulb"] ->
             columns (weather_series example_world) !! c = Some col ->
             columns (weather_series w') !! c
             = Some ((fun x => py_add x zero) <$> col))
          /\ ((forall c col x,
                 c ∈ ["drybulb"] ->
                 columns (weather_series example_world) !! c = Some col ->
                 x ∈ col -> py_add x zero = x) ->
              weather_series w' = weather_series example_world)).
Proof.
  apply (create_variable_weather_frame (rng := counting_source)
           example_world "X.epw" ["drybulb"] 0 0).
  - reflexivity.
  - apply NoDup_singleton.
  - intros c Hc. apply list_elem_of_singleton in Hc. subst c.
    exists [10; 20]. split; [vm_compute; reflexivity | reflexivity].
Defined.

(** C5, as stated, fails for a negative standard deviation: numpy refuses
    the scale, the call raises [ValueError], no sample is added to any
    cell, nothing is drawn and no file is written. *)
Lemma create_variable_weather_negative_std :
  create_variable_weather (rng := counting_source) example_world "X.epw"
    ["drybulb"] (Some (0, -1))
  = (example_world, Raise ValueError).
Proof. vm_compute. reflexivity. Qed.

(** *** The variation (0, 0) over doubles *)

Lemma b64_zero_noise (z : spec_float) :
  b64_is_finite z = true ->
  b64_add positive_zero (b64_mul positive_zero z) = positive_zero.
Proof. destruct z as [s| | |s m e]; try discriminate; now destruct s. Qed.

Lemma b64_add_positive_zero (x : spec_float) :
  b64_add x positive_zero = drop_zero_sign x.
Proof. destruct x as [s|s| |s m e]; try reflexivity; now destruct s. Qed.

Lemma drop_zero_sign_fixed (x : spec_float) :
  x <> S754_zero true -> drop_zero_sign x = x.
Proof. destruct x as [[|]|s| |s m e]; try reflexivity. congruence. Qed.

(** Over doubles, with mean and standard deviation positive zero and a
    source whose draws are finite, the noise is positive zero in every
    cell: a target cell keeps its bits unless it is a negative zero, which
    becomes positive zero; so every cell compares equal to what it was. *)
Lemma create_variable_weather_zero_variation_binary64
    (float_str : spec_float -> string)
    {R : Type} {rng : RandomSource R spec_float}
    (w : World spec_float R) (orig : string) (cols : list string) :
  NoDup cols ->
  (forall c, c ∈ cols ->
     exists col, columns (weather_series w) !! c = Some col
                 /\ length col = nrows (weather_series w)) ->
  (forall k, b64_is_finite (draw_at k (random_state w)) = true) ->
  exists w' filename,
    create_variable_weather (num := Float_PyNumber float_str) w orig cols
      (Some (positive_zero, positive_zero))
    = (w', Ok (Some filename))
    /\ (forall c, c ∉ cols ->
          columns (weather_series w') !! c = columns (weather_series w) !! c)
    /\ (forall c col,
          c ∈ cols -> columns (weather_series w) !! c = Some col ->
          columns (weather_series w') !! c = Some (drop_zero_sign <$> col)).
Proof.
  intros Hnd Hcols Hfin.
  destruct (create_variable_weather_constant_noise
              (num := Float_PyNumber float_str) w orig cols
              positive_zero positive_zero positive_zero eq_refl Hnd Hcols)
    as (w' & filename & Hrun & _ & Hother & Htarget).
  { intros k. apply b64_zero_noise, Hfin. }
  exists w', filename. split; [exact Hrun|]. split; [exact Hother|].
  intros c col Hin Hcol. rewrite (Htarget c col Hin Hcol). f_equal.
  apply list_fmap_ext. intros i x _. apply b64_add_positive_zero.
Qed.

(** ** The name of the new weather file *)

Lemma string_app_cons (c : ascii) (s t : string) :
  String c s +:+ t = String c (s +:+ t).
Proof. reflexivity. Qed.

Lemma string_app_nil_r (s : string) : s +:+ EmptyString = s.
Proof.
  induction s as [|c s IH]; [reflexivity|].
  now rewrite string_app_cons, IH.
Qed.

Lemma string_app_assoc (s1 s2 s3 : string) :
  (s1 +:+ s2) +:+ s3 = s1 +:+ (s2 +:+ s3).
Proof.
  induction s1 as [|c s1 IH]; [reflexivity|].
  now rewrite !string_app_cons, IH.
Qed.

Lemma prefix_app (sep b : string) : String.prefix sep (sep +:+ b) = true.
Proof.
  induction sep as [|c sep IH]; [now destruct b|].
  rewrite string_app_cons. cbn [String.prefix].
  destruct (ascii_dec c c); [exact IH | congruence].
Qed.

(** When the separator first occurs right after [a], the first part that
    [split] returns is [a]. *)
Lemma split_from_stem (sep b : string) (a : string) :
  sep <> EmptyString ->
  no_sep_start sep a (sep +:+ b) = true ->
  forall cur, exists tl,
    PyStr.split_from sep (a +:+ sep +:+ b) 0 cur = (cur +:+ a) :: tl.
Proof.
  intros Hsep. induction a as [|ch a IH]; intros Hno cur.
  - destruct sep as [|c sep]; [congruence|].
    pose proof (prefix_app (String c sep) b) as Hp.
    change (EmptyString +:+ String c sep +:+ b) with (String c sep +:+ b).
    rewrite string_app_cons in Hp |- *. cbn [PyStr.split_from].
    rewrite Hp. rewrite string_app_nil_r. eauto.
  - cbn [no_sep_start] in Hno. apply andb_prop in Hno as [Hhere Hrest].
    apply negb_true_iff in Hhere.
    rewrite string_app_cons. cbn [PyStr.split_from]. rewrite Hhere.
    destruct (IH Hrest (cur +:+ String ch EmptyString)) as [tl Htl].
    exists tl. rewrite Htl. now rewrite string_app_assoc.
Qed.

(** For a path [stem.epw] in which [.epw] occurs nowhere before the
    suffix, the new file is [stem_Random_<mean>_<std>.epw], it is what the
    call returns, and it holds the perturbed series. *)
Lemma create_variable_weather_filename
    {V R : Type} {num : PyNumber V} {rng : RandomSource R V}
    (w : World V R) (stem : string) (cols : list string) (mu std : V) :
  accepted_variation mu std = true ->
  NoDup cols ->
  (forall c, c ∈ cols ->
     exists col, columns (weather_series w) !! c = Some col
                 /\ length col = nrows (weather_series w)) ->
  no_sep_start ".epw" stem ".epw" = true ->
  let filename :=
    stem +:+ "_Random_" +:+ py_str mu +:+ "_" +:+ py_str std +:+ ".epw" in
  exists w',
    create_variable_weather w (stem +:+ ".epw") cols (Some (mu, std))
    = (w', Ok (Some filename))
    /\ files w' !! filename = Some (weather_series w')
    /\ forall other, other <> filename -> files w' !! other = files w !! other.
Proof.
  intros Hstd Hnd Hcols Hno filename.
  destruct (create_variable_weather_some w (stem +:+ ".epw") cols mu std
              Hstd Hnd Hcols)
    as (sub & stem0 & rest & _ & _ & _ & Hsplit & Hrun).
  destruct (split_from_stem ".epw" EmptyString stem ltac:(discriminate)
              Hno EmptyString) as [tl Htl].
  change (".epw" +:+ EmptyString) with ".epw" in Htl.
  rewrite Htl in Hsplit. injection Hsplit as <- _.
  cbv zeta in Hrun. change (EmptyString +:+ stem) with stem in Hrun.
  eexists. split; [exact Hrun|]. cbn [files weather_series].
  split; [apply lookup_insert_eq|].
  intros other Hother. now apply lookup_insert_ne.
Qed.

Lemma create_variable_weather_filename_witness :
  exists w',
    create_variable_weather (rng := counting_source) example_world
      ("X" +:+ ".epw") ["drybulb"] (Some (0, 2))
    = (w', Ok (Some "X_Random_0_2.epw"))
    /\ files w' !! "X_Random_0_2.epw" = Some (weather_series w')
    /\ forall other, other <> "X_Random_0_2.epw" ->
         files w' !! other = files example_world !! other.
Proof.
  assert (Hname : "X" +:+ "_Random_" +:+ py_str 0 +:+ "_" +:+ py_str 2
                  +:+ ".epw" = "X_Random_0_2.epw")
    by (vm_compute; reflexivity).
  rewrite <- Hname.
  apply (create_variable_weather_filename (rng := counting_source)
           example_world "X" ["drybulb"] 0 2).
  - reflexivity.
  - apply NoDup_singleton.
  - intros c Hc. apply list_elem_of_singleton in Hc. subst c.
    exists [10; 20]. split; [vm_compute; reflexivity | reflexivity].
  - reflexivity.
Defined.

(** C6 fails on a path in which [.epw] occurs before the suffix:
    [split('.epw')[0]] keeps what precedes the first occurrence, so for
    [data.epw/X.epw] the file is written to, and returned as,
    [data_Random_0_2.epw], outside the directory of the original, and not
    [data.epw/X_Random_0_2.epw]. *)
Theorem create_variable_weather_path_first_occurrence :
  let out := create_variable_weather (rng := counting_source) example_world
               "data.epw/X.epw" ["drybulb"] (Some (0, 2)) in
  out.2 = Ok (Some "data_Random_0_2.epw")
  /\ out.2 <> Ok (Some "data.epw/X_Random_0_2.epw")
  /\ files out.1 !! "data_Random_0_2.epw" = Some (weather_series out.1)
  /\ files out.1 !! "data.epw/X_Random_0_2.epw" = None.
Proof.
  cbv zeta.
  assert (Hout : (create_variable_weather (rng := counting_source)
                    example_world "data.epw/X.epw" ["drybulb"]
                    (Some (0, 2))).2
                 = Ok (Some "data_Random_0_2.epw"))
    by (vm_compute; reflexivity).
  split; [exact Hout|]. split; [rewrite Hout; discriminate|].
  split; vm_compute; reflexivity.
Qed.

(** ** The logger registry *)

Lemma length_substring_le (n : nat) :
  forall s, (String.length (String.substring 0 n s) <= n)%nat.
Proof.
  induction n as [|n IH]; intros [|c s]; cbn; try lia.
  specialize (IH s). lia.
Qed.

Lemma substring_proper_ne (name : string) (i : nat) :
  (i < String.length name)%nat -> String.substring 0 i name <> name.
Proof.
  intros Hi Heq. pose proof (length_substring_le i name) as Hle.
  rewrite Heq in Hle. lia.
Qed.

Lemma node_config_alter_parent (p : option logger_ref) (k0 k : string)
    (m : gmap string node) :
  node_config (alter (update_node (set_parent p)) k0 m !! k)
  = node_config (m !! k).
Proof.
  destruct (decide (k0 = k)) as [->|Hne].
  - rewrite lookup_alter_eq. now destruct (m !! k) as [[l|ph]|].
  - now rewrite lookup_alter_ne.
Qed.

Lemma is_logger_node_alter (f : Logger -> Logger) (k0 k : string)
    (m : gmap string node) :
  is_logger_node (alter (update_node f) k0 m !! k) = is_logger_node (m !! k).
Proof.
  destruct (decide (k0 = k)) as [->|Hne].
  - rewrite lookup_alter_eq. now destruct (m !! k) as [[l|ph]|].
  - now rewrite lookup_alter_ne.
Qed.

Lemma _fixupParents_from_spec (name : string) (stop : nat) :
  forall dict,
    (stop <= String.length name)%nat ->
    (_fixupParents_from name stop dict).1 !! name = dict !! name
    /\ forall k, node_config ((_fixupParents_from name stop dict).1 !! k)
                 = node_config (dict !! k).
Proof.
  induction stop as [stop IH] using lt_wf_ind. intros dict Hstop.
  destruct stop as [|i]; [now split|].
  cbn [_fixupParents_from].
  destruct (bool_decide (String.get i name = Some "."%char));
    [|apply IH; lia].
  destruct i as [|i']; [now split|].
  assert (Hne : String.substring 0 (S i') name <> name)
    by (apply substring_proper_ne; lia).
  set (substr := String.substring 0 (S i') name) in *.
  destruct (dict !! substr) as [[l|ph]|] eqn:Hsub; [now split| |].
  - destruct (IH i' ltac:(lia)
                (<[substr := PlaceHolder (placeholder_append ph name)]> dict)
                ltac:(lia)) as [Hname Hcfg].
    split.
    + rewrite Hname. now apply lookup_insert_ne.
    + intros k. rewrite Hcfg.
      destruct (decide (substr = k)) as [<-|Hk].
      * now rewrite lookup_insert_eq, Hsub.
      * now rewrite lookup_insert_ne.
  - destruct (IH i' ltac:(lia) (<[substr := PlaceHolder [name]]> dict)
                ltac:(lia)) as [Hname Hcfg].
    split.
    + rewrite Hname. now apply lookup_insert_ne.
    + intros k. rewrite Hcfg.
      destruct (decide (substr = k)) as [<-|Hk].
      * now rewrite lookup_insert_eq, Hsub.
      * now rewrite lookup_insert_ne.
Qed.

Lemma _fixupParents_spec (name : string) (dict : gmap string node) :
  (forall k, node_config (_fixupParents name dict !! k) = node_config (dict !! k))
  /\ is_logger_node (_fixupParents name dict !! name)
     = is_logger_node (dict !! name).
Proof.
  unfold _fixupParents.
  destruct (_fixupParents_from_spec name (String.length name) dict ltac:(lia))
    as [Hname Hcfg].
  destruct (_fixupParents_from name (String.length name) dict) as [d' rv].
  cbn [fst] in *. split.
  - intros k. now rewrite node_config_alter_parent.
  - now rewrite is_logger_node_alter, Hname.
Qed.

Lemma _fixupChildren_spec (name : string) (ph : list string) :
  forall dict,
    (forall k, node_config (_fixupChildren ph name dict !! k)
               = node_config (dict !! k))
    /\ (is_logger_node (dict !! name) = true ->
        is_logger_node (_fixupChildren ph name dict !! name) = true).
Proof.
  induction ph as [|c ph IH]; intros dict; [now split|].
  cbn [_fixupChildren].
  match goal with
  | |- context [_fixupChildren ph name ?d] => set (dict' := d)
  end.
  assert (Hstep : (forall k, node_config (dict' !! k) = node_config (dict !! k))
                  /\ (is_logger_node (dict !! name) = true ->
                      is_logger_node (dict' !! name) = true)).
  { unfold dict'.
    destruct (dict !! c) as [[cl|ph']|] eqn:Hc; [|now split|now split].
    destruct (parent cl) as [p|]; [|now split].
    destruct (bool_decide _); [now split|].
    split.
    - intros k. destruct (decide (c = k)) as [<-|Hk].
      + now rewrite lookup_insert_eq, Hc.
      + rewrite lookup_insert_ne by exact Hk. apply node_config_alter_parent.
    - intros Hlog. destruct (decide (c = name)) as [<-|Hk].
      + now rewrite lookup_insert_eq.
      + rewrite lookup_insert_ne by exact Hk.
        now rewrite is_logger_node_alter. }
  destruct Hstep as [Hcfg Hlog]. destruct (IH dict') as [IHcfg IHlog].
  split.
  - intros k. now rewrite IHcfg.
  - intros H. apply IHlog, Hlog, H.
Qed.

(** [Manager.getLogger] leaves every logger's level, propagate flag and
    handlers as they are (a logger it creates starts with the defaults),
    and afterwards the name holds a logger. *)
Lemma Manager_getLogger_spec (dict : gmap string node) (name : string) :
  (forall k, node_config (Manager_getLogger dict name !! k)
             = node_config (dict !! k))
  /\ is_logger_node (Manager_getLogger dict name !! name) = true.
Proof.
  unfold Manager_getLogger.
  destruct (dict !! name) as [[l|ph]|] eqn:Hname.
  - split; [reflexivity | now rewrite Hname].
  - set (d0 := <[name := LoggerNode new_Logger]> dict).
    destruct (_fixupChildren_spec name ph d0) as [Hc1 Hl1].
    destruct (_fixupParents_spec name (_fixupChildren ph name d0)) as [Hc2 Hl2].
    split.
    + intros k. rewrite Hc2, Hc1. unfold d0.
      destruct (decide (name = k)) as [<-|Hk].
      * now rewrite lookup_insert_eq, Hname.
      * now rewrite lookup_insert_ne.
    + rewrite Hl2. apply Hl1. unfold d0. now rewrite lookup_insert_eq.
  - set (d0 := <[name := LoggerNode new_Logger]> dict).
    destruct (_fixupParents_spec name d0) as [Hc2 Hl2].
    split.
    + intros k. rewrite Hc2. unfold d0.
      destruct (decide (name = k)) as [<-|Hk].
      * now rewrite lookup_insert_eq, Hname.
      * now rewrite lookup_insert_ne.
    + rewrite Hl2. unfold d0. now rewrite lookup_insert_eq.
Qed.

(** ** [Logger.getLogger] *)

Lemma addHandler_new (h : Handler) (l : Logger) :
  (forall h', h' ∈ handlers l -> (handler_id h' < handler_id h)%nat) ->
  addHandler h l
  = mk_Logger (level l) (propagate l) (handlers l ++ [h]) (parent l).
Proof.
  intros Hfresh. unfold addHandler.
  rewrite bool_decide_eq_false_2; [reflexivity|].
  intros Hin. apply list_elem_of_In, in_map_iff in Hin as (h' & Hid & Hh').
  apply list_elem_of_In in Hh'. specialize (Hfresh h' Hh'). lia.
Qed.

Lemma getEffectiveLevel_own (reg : Registry) (r : logger_ref) (lg : Logger) :
  get_logger reg r = Some lg -> level lg <> 0 ->
  getEffectiveLevel reg r = level lg.
Proof.
  intros Hget Hlvl. unfold getEffectiveLevel. cbn [effective_level_from].
  rewrite Hget. destruct (Z.eqb_spec (level lg) 0); [contradiction|reflexivity].
Qed.

Lemma getLogger_once (format_accepted : string -> bool) (reg : Registry)
    (name : string) (lvl : Z) (fmt : string) :
  format_accepted fmt = true ->
  handler_ids_fresh reg ->
  exists reg' lg,
    getLogger format_accepted reg name lvl fmt = (reg', Ok (logger_ref_of name))
    /\ logging_getLogger reg' name = (reg', logger_ref_of name)
    /\ get_logger reg' (logger_ref_of name) = Some lg
    /\ level lg = lvl
    /\ propagate lg = false
    /\ handlers lg
       = handlers_before reg (logger_ref_of name)
         ++ [mk_Handler (next_handler_id reg) (Some (stored_format fmt))]
    /\ next_handler_id reg' = S (next_handler_id reg)
    /\ handler_ids_fresh reg'.
Proof.
  intros Hfmt Hfresh.
  unfold getLogger, logging_getLogger, logger_ref_of, Formatter.
  rewrite Hfmt.
  destruct (bool_decide (name = EmptyString)
            || bool_decide (name = ref_name RootLogger)) eqn:Hroot.
  - (* the root logger *)
    cbn [StreamHandler update_logger root loggerDict next_handler_id setFormatter
         handler_id].
    rewrite addHandler_new.
    2:{ intros h' Hh'. cbn [handler_id].
        exact (Hfresh RootLogger (root reg) h' eq_refl Hh'). }
    eexists _, _. split; [reflexivity|].
    split; [reflexivity|].
    cbn [get_logger root setLevel set_propagate level propagate handlers].
    split; [reflexivity|]. split; [reflexivity|]. split; [reflexivity|].
    split; [reflexivity|]. split; [reflexivity|].
    intros r l h Hget Hin. cbn [next_handler_id].
    destruct r as [|k]; cbn [get_logger root loggerDict] in Hget.
    + injection Hget as <-. cbn [handlers] in Hin.
      apply elem_of_app in Hin as [Hin|Hin].
      * pose proof (Hfresh RootLogger (root reg) h eq_refl Hin). lia.
      * apply list_elem_of_singleton in Hin. subst h. cbn. lia.
    + pose proof (Hfresh (Named k) l h Hget Hin). lia.
  - (* a logger kept by the manager *)
    destruct (Manager_getLogger_spec (loggerDict reg) name) as [Hcfg Hlog].
    set (dict1 := Manager_getLogger (loggerDict reg) name) in *.
    destruct (dict1 !! name) as [[l1|ph]|] eqn:Hl1; try discriminate.
    pose proof (Hcfg name) as Hcfg1. rewrite Hl1 in Hcfg1. cbn in Hcfg1.
    cbn [StreamHandler update_logger root loggerDict next_handler_id setFormatter
         handler_id].
    set (h := mk_Handler (next_handler_id reg) (Some (stored_format fmt))).
    assert (Hold : handlers_before reg (Named name) = handlers l1).
    { unfold handlers_before. cbn [get_logger].
      destruct (loggerDict reg !! name) as [[l0|ph0]|]; cbn in Hcfg1;
        now injection Hcfg1. }
    assert (Hnew : addHandler h l1
                   = mk_Logger (level l1) (propagate l1) (handlers l1 ++ [h])
                               (parent l1)).
    { apply addHandler_new. intros h' Hh'. cbn [handler_id].
      destruct (loggerDict reg !! name) as [[l0|ph0]|] eqn:Hl0; cbn in Hcfg1;
        injection Hcfg1 as _ _ Hhs; rewrite Hhs in Hh'.
      - apply (Hfresh (Named name) l0 h'); [cbn; now rewrite Hl0 | exact Hh'].
      - now apply elem_of_nil in Hh'.
      - now apply elem_of_nil in Hh'. }
    set (dict5 := alter (update_node (set_propagate false)) name
                    (alter (update_node (setLevel lvl)) name
                       (alter (update_node (addHandler h)) name dict1))).
    assert (Hl5 : dict5 !! name
                  = Some (LoggerNode
                            (set_propagate false (setLevel lvl (addHandler h l1))))).
    { unfold dict5. rewrite !lookup_alter_eq, Hl1. reflexivity. }
    assert (Hother : forall k, k <> name -> dict5 !! k = dict1 !! k).
    { intros k Hk. unfold dict5. now rewrite !lookup_alter_ne. }
    exists (mk_Registry (root reg) dict5 (S (next_handler_id reg))),
           (set_propagate false (setLevel lvl (addHandler h l1))).
    split; [reflexivity|].
    cbn [root loggerDict next_handler_id get_logger].
    split; [|rewrite Hl5, Hnew;
             cbn [set_propagate setLevel level propagate handlers];
             repeat split; try reflexivity].
    + unfold Manager_getLogger. now rewrite Hl5.
    + now rewrite Hold.
    + intros r l hh Hget Hin. cbn [next_handler_id].
      destruct r as [|k]; cbn [get_logger root loggerDict] in Hget.
      * pose proof (Hfresh RootLogger l hh Hget Hin). lia.
      * destruct (decide (k = name)) as [->|Hk].
        -- rewrite Hl5, Hnew in Hget. injection Hget as <-.
           cbn [set_propagate setLevel handlers] in Hin.
           apply elem_of_app in Hin as [Hin|Hin].
           ++ rewrite <- Hold in Hin. unfold handlers_before in Hin.
              destruct (get_logger reg (Named name)) as [l0|] eqn:Hl0.
              ** pose proof (Hfresh (Named name) l0 hh Hl0 Hin). lia.
              ** now apply elem_of_nil in Hin.
           ++ apply list_elem_of_singleton in Hin. subst hh. cbn. lia.
        -- rewrite (Hother k Hk) in Hget.
           pose proof (Hcfg k) as Hck.
           destruct (dict1 !! k) as [[lk|phk]|]; try discriminate.
           injection Hget as <-.
           destruct (loggerDict reg !! k) as [[l0|ph0]|] eqn:Hl0; cbn in Hck;
             injection Hck as _ _ Hhs; rewrite Hhs in Hin.
           ++ assert (Hg : get_logger reg (Named k) = Some l0)
                by (cbn; now rewrite Hl0).
              pose proof (Hfresh (Named k) l0 hh Hg Hin). lia.
           ++ now apply elem_of_nil in Hin.
           ++ now apply elem_of_nil in Hin.
Qed.

Lemma handler_ids_fresh_initial : handler_ids_fresh initial.
Proof.
  intros r l h Hget Hin. destruct r as [|k]; cbn in Hget.
  - injection Hget as <-. now apply elem_of_nil in Hin.
  - rewrite lookup_empty in Hget. discriminate.
Qed.

(** C9 (as amended): for a format string the formatter accepts,
    [Logger.getLogger] does not raise and returns the logger registered
    under the name (asking [logging.getLogger] for the name again finds the
    same logger and changes nothing). Its own level is the requested one,
    and so is its effective level whenever the requested level is not
    [NOTSET]; it does not propagate; a new console handler has been
    appended to the handlers it had, carrying the format the formatter
    keeps: the given string, or the default [%(message)s] when the given
    string is empty. A second call with the same name appends a second
    handler to the same logger and leaves it at the level of that second
    call. *)
Theorem getLogger_configures (format_accepted : string -> bool)
    (reg : Registry) (name : string) (lvl : Z) (fmt : string) :
  format_accepted fmt = true ->
  handler_ids_fresh reg ->
  exists reg' lg,
    getLogger format_accepted reg name lvl fmt = (reg', Ok (logger_ref_of name))
    /\ logging_getLogger reg' name = (reg', logger_ref_of name)
    /\ get_logger reg' (logger_ref_of name) = Some lg
    /\ level lg = lvl
    /\ (lvl <> NOTSET -> getEffectiveLevel reg' (logger_ref_of name) = lvl)
    /\ propagate lg = false
    /\ handlers lg
       = handlers_before reg (logger_ref_of name)
         ++ [mk_Handler (next_handler_id reg) (Some (stored_format fmt))]
    /\ handler_ids_fresh reg'
    /\ forall lvl2 fmt2,
         format_accepted fmt2 = true ->
         exists reg'' lg2,
           getLogger format_accepted reg' name lvl2 fmt2
           = (reg'', Ok (logger_ref_of name))
           /\ get_logger reg'' (logger_ref_of name) = Some lg2
           /\ level lg2 = lvl2
           /\ (lvl2 <> NOTSET ->
               getEffectiveLevel reg'' (logger_ref_of name) = lvl2)
           /\ propagate lg2 = false
           /\ handlers lg2
              = handlers_before reg (logger_ref_of name)
                ++ [mk_Handler (next_handler_id reg) (Some (stored_format fmt));
                    mk_Handler (S (next_handler_id reg)) (Some (stored_format fmt2))].
Proof.
  intros Hfmt Hfresh.
  destruct (getLogger_once format_accepted reg name lvl fmt Hfmt Hfresh)
    as (reg' & lg & Hrun & Hreg & Hget & Hlvl & Hprop & Hhs & Hnext & Hfresh').
  exists reg', lg. repeat (split; [assumption|]).
  split; [intros Hne; rewrite <- Hlvl in Hne |- *;
          now apply getEffectiveLevel_own|].
  do 3 (split; [assumption|]).
  intros lvl2 fmt2 Hfmt2.
  destruct (getLogger_once format_accepted reg' name lvl2 fmt2 Hfmt2 Hfresh')
    as (reg'' & lg2 & Hrun2 & _ & Hget2 & Hlvl2 & Hprop2 & Hhs2 & _ & _).
  exists reg'', lg2. repeat (split; [assumption|]).
  split; [intros Hne; rewrite <- Hlvl2 in Hne |- *;
          now apply getEffectiveLevel_own|].
  split; [assumption|].
  rewrite Hhs2. unfold handlers_before at 1. rewrite Hget, Hhs, Hnext.
  now rewrite <- app_assoc.
Qed.

Lemma getLogger_configures_witness :
  exists reg' lg,
    getLogger (fun _ => true) initial "energym.env" 20 "%(message)s"
    = (reg', Ok (logger_ref_of "energym.env"))
    /\ logging_getLogger reg' "energym.env" = (reg', logger_ref_of "energym.env")
    /\ get_logger reg' (logger_ref_of "energym.env") = Some lg
    /\ level lg = 20
    /\ (20 <> NOTSET ->
        getEffectiveLevel reg' (logger_ref_of "energym.env") = 20)
    /\ propagate lg = false
    /\ handlers lg
       = handlers_before initial (logger_ref_of "energym.env")
         ++ [mk_Handler (next_handler_id initial) (Some (stored_format "%(message)s"))]
    /\ handler_ids_fresh reg'
    /\ forall lvl2 fmt2,
         (fun _ : string => true) fmt2 = true ->
         exists reg'' lg2,
           getLogger (fun _ => true) reg' "energym.env" lvl2 fmt2
           = (reg'', Ok (logger_ref_of "energym.env"))
           /\ get_logger reg'' (logger_ref_of "energym.env") = Some lg2
           /\ level lg2 = lvl2
           /\ (lvl2 <> NOTSET ->
               getEffectiveLevel reg'' (logger_ref_of "energym.env") = lvl2)
           /\ propagate lg2 = false
           /\ handlers lg2
              = handlers_before initial (logger_ref_of "energym.env")
                ++ [mk_Handler (next_handler_id initial) (Some (stored_format "%(message)s"));
                    mk_Handler (S (next_handler_id initial)) (Some (stored_format fmt2))].
Proof.
  apply (getLogger_configures (fun _ => true) initial "energym.env" 20
           "%(message)s").
  - reflexivity.
  - exact handler_ids_fresh_initial.
Defined.

Lemma getLogger_rejected_format (format_accepted : string -> bool)
    (reg : Registry) (name : string) (lvl : Z) (fmt : string) :
  format_accepted fmt = false ->
  (getLogger format_accepted reg name lvl fmt).2 = Raise ValueError.
Proof.
  intros Hfmt. unfold getLogger, Formatter. rewrite Hfmt.
  now destruct (logging_getLogger reg name).
Qed.

(** C9, as stated, fails for the level [NOTSET]: the logger's own level is
    then 0 and its effective level is inherited, in a fresh process the
    root logger's [WARNING]. And a format string the formatter rejects makes
    the call raise. *)
Lemma getLogger_notset_inherits :
  let out := getLogger (fun _ => true) initial "energym" NOTSET "%(message)s" in
  (out.2 = Ok (Named "energym")
   /\ getEffectiveLevel out.1 (Named "energym") = WARNING
   /\ getEffectiveLevel out.1 (Named "energym") <> NOTSET)
  /\ (forall format_accepted : string -> bool,
        format_accepted "no field" = false ->
        (getLogger format_accepted initial "energym" 20 "no field").2
        = Raise ValueError).
Proof.
  cbv zeta.
  split; [|intros fa Hfa; now apply getLogger_rejected_format].
  assert (Heff : getEffectiveLevel
                   (getLogger (fun _ => true) initial "energym" NOTSET
                      "%(message)s").1 (Named "energym") = WARNING)
    by (vm_compute; reflexivity).
  split; [vm_compute; reflexivity|]. split; [exact Heff|].
  rewrite Heff. discriminate.
Qed.

(** The document order is kept, and a type that occurs twice is returned
    twice. *)
Example parse_variables_keeps_order_and_duplicates :
  parse_variables
    (Document (mk_Element "variables" ∅
       [ mk_Element "variable" {[ "source" := "EnergyPlus" ]}
           [ mk_Element "EnergyPlus" {[ "type" := "b" ]} [] ];
         mk_Element "comment" ∅ [];
         mk_Element "variable" {[ "source" := "Ptolemy" ]}
           [ mk_Element "Ptolemy" {[ "type" := "c" ]} [] ];
         mk_Element "variable" {[ "source" := "EnergyPlus" ]}
           [ mk_Element "EnergyPlus" {[ "type" := "a" ]} [] ];
         mk_Element "variable" {[ "source" := "EnergyPlus" ]}
           [ mk_Element "EnergyPlus" {[ "type" := "b" ]} [] ] ]))
  = Ok ["b"; "a"; "b"].
Proof. vm_compute. reflexivity. Qed.

(** Two cells of the noise matrix never share a draw. *)
Lemma cell_draw_index_inj (cols i j i' j' : nat) :
  (j < cols)%nat -> (j' < cols)%nat ->
  (i * cols + j = i' * cols + j')%nat -> i = i' /\ j = j'.
Proof.
  intros Hj Hj' Heq. apply (Nat.div_mod_unique cols); [exact Hj|exact Hj'|lia].
Qed.

(** * Further properties of the code *)

(** ** [get_delta_seconds]: errors, reversed ranges, composition *)

Lemma new_datetime_invalid (y m d hh mm ss : Z) :
  forallb fits_c_int [hh; mm; ss] = true ->
  ~ valid_date y m d ->
  new_datetime y m d hh mm ss = Raise (date_error y m d).
Proof.
  intros Hfit Hinv.
  unfold new_datetime, date_error.
  cbn [forallb] in Hfit |- *. rewrite Hfit.
  destruct (fits_c_int y); [|reflexivity].
  destruct (fits_c_int m); [|reflexivity].
  destruct (fits_c_int d); [|reflexivity].
  cbn [andb negb].
  unfold _check_date_fields, MINYEAR, MAXYEAR.
  destruct (Z.leb_spec 1 y), (Z.leb_spec y 9999); cbn [andb negb bind];
    try reflexivity.
  destruct (Z.leb_spec 1 m), (Z.leb_spec m 12); cbn [andb negb bind];
    try reflexivity.
  destruct (Z.leb_spec 1 d), (Z.leb_spec d (_days_in_month y m));
    cbn [andb negb bind]; try reflexivity.
  exfalso. apply Hinv. unfold valid_date. lia.
Qed.

Lemma valid_date_dec (y m d : Z) : {valid_date y m d} + {~ valid_date y m d}.
Proof. unfold valid_date. exact (decide _). Qed.

Lemma date_error_cases (y m d : Z) :
  date_error y m d = ValueError \/ date_error y m d = OverflowError.
Proof. unfold date_error. destruct (forallb _ _); auto. Qed.

Lemma month_day_le_ordinal (y m1 d1 m2 d2 : Z) :
  valid_date y m1 d1 -> valid_date y m2 d2 ->
  (md_le m1 d1 m2 d2 = true -> _ymd2ord y m1 d1 <= _ymd2ord y m2 d2)
  /\ (md_lt m1 d1 m2 d2 = true -> _ymd2ord y m1 d1 < _ymd2ord y m2 d2).
Proof.
  intros (_ & Hm1 & Hd1) (_ & Hm2 & Hd2).
  unfold md_le, md_lt, _ymd2ord, _days_before_month, _days_in_month in *.
  destruct (_is_leap y); month_cases m1; month_cases m2; simpl in *;
    split; intros Hle;
    repeat match goal with
           | H : context [?a <=? ?b] |- _ => destruct (Z.leb_spec a b)
           | H : context [?a <? ?b] |- _ => destruct (Z.ltb_spec a b)
           end; simpl in *; try discriminate; lia.
Qed.

(** The value in terms of day ordinals, whatever the order of the dates. *)
Lemma get_delta_seconds_ordinals (y m1 d1 m2 d2 : Z) :
  valid_date y m1 d1 -> valid_date y m2 d2 ->
  _ymd2ord y m2 d2 < _MAXORDINAL ->
  get_delta_seconds y m1 d1 m2 d2
  = Ok (86400 * (_ymd2ord y m2 d2 - _ymd2ord y m1 d1 + 1)).
Proof.
  intros Hv1 Hv2 Hlt.
  destruct (end_time_of_next_midnight y m2 d2 Hv2 Hlt)
    as (y' & m' & d' & Hend & Hv' & Hord').
  rewrite get_delta_seconds_unfold.
  rewrite new_datetime_ok by (try assumption; lia). cbn [bind].
  rewrite Hend. cbn [bind].
  rewrite (datetime_sub_midnight _ _ _ _ _ _ Hv' Hv1). cbn [bind].
  unfold total_seconds. cbn [td_days td_seconds]. f_equal. lia.
Qed.

(** X1: a start or end that is not a date of the calendar makes
    [get_delta_seconds] raise; no number is returned. The start is built
    first, so its error wins. The error is [OverflowError] when a field of
    the offending date does not fit a C [int] and [ValueError] otherwise;
    with all five arguments in the C [int] range it is [ValueError]. *)
Theorem get_delta_seconds_invalid_date (y m1 d1 m2 d2 : Z) :
  ~ valid_date y m1 d1 \/ ~ valid_date y m2 d2 ->
  (~ valid_date y m1 d1 ->
     get_delta_seconds y m1 d1 m2 d2 = Raise (date_error y m1 d1))
  /\ (valid_date y m1 d1 ->
        get_delta_seconds y m1 d1 m2 d2 = Raise (date_error y m2 d2))
  /\ (forallb fits_c_int [y; m1; d1; m2; d2] = true ->
        get_delta_seconds y m1 d1 m2 d2 = Raise ValueError).
Proof.
  intros Hinv.
  assert (Hfirst : ~ valid_date y m1 d1 ->
            get_delta_seconds y m1 d1 m2 d2 = Raise (date_error y m1 d1)).
  { intros H1. unfold get_delta_seconds.
    now rewrite (new_datetime_invalid y m1 d1 0 0 0 eq_refl H1). }
  assert (Hsecond : valid_date y m1 d1 ->
            get_delta_seconds y m1 d1 m2 d2 = Raise (date_error y m2 d2)).
  { intros H1. destruct Hinv as [Hn1|H2]; [contradiction|].
    unfold get_delta_seconds.
    rewrite new_datetime_ok by (try assumption; lia). cbn [bind].
    now rewrite (new_datetime_invalid y m2 d2 23 0 0 eq_refl H2). }
  split; [exact Hfirst|]. split; [exact Hsecond|].
  intros Hfit. cbn [forallb] in Hfit.
  apply andb_prop in Hfit as [Fy Hfit]. apply andb_prop in Hfit as [Fm1 Hfit].
  apply andb_prop in Hfit as [Fd1 Hfit]. apply andb_prop in Hfit as [Fm2 Hfit].
  apply andb_prop in Hfit as [Fd2 _].
  destruct (valid_date_dec y m1 d1) as [Hv|Hn].
  - rewrite (Hsecond Hv). unfold date_error. cbn [forallb].
    now rewrite Fy, Fm2, Fd2.
  - rewrite (Hfirst Hn). unfold date_error. cbn [forallb].
    now rewrite Fy, Fm1, Fd1.
Qed.

Lemma get_delta_seconds_invalid_date_witness :
  (~ valid_date 2021 2 29 ->
     get_delta_seconds 2021 2 29 3 1 = Raise (date_error 2021 2 29))
  /\ (valid_date 2021 2 29 ->
        get_delta_seconds 2021 2 29 3 1 = Raise (date_error 2021 3 1))
  /\ (forallb fits_c_int [2021; 2; 29; 3; 1] = true ->
        get_delta_seconds 2021 2 29 3 1 = Raise ValueError).
Proof.
  apply (get_delta_seconds_invalid_date 2021 2 29 3 1).
  left. intros (_ & _ & Hd). vm_compute in Hd. destruct Hd as [_ Hd].
  now apply Hd.
Defined.

(** X2: the order of the two dates is not checked. With the end strictly
    before the start the result is not an error but a number that is zero
    or negative: 86400 times (2 minus the number of days from end to start
    inclusive). *)
Theorem get_delta_seconds_reversed (y m1 d1 m2 d2 : Z) :
  valid_date y m1 d1 -> valid_date y m2 d2 ->
  md_lt m2 d2 m1 d1 = true ->
  exists s,
    get_delta_seconds y m1 d1 m2 d2 = Ok s
    /\ s <= 0
    /\ s = 86400 * (2 - days_inclusive y m2 d2 m1 d1).
Proof.
  intros Hv1 Hv2 Hlt.
  destruct (month_day_le_ordinal y m2 d2 m1 d1 Hv2 Hv1) as [_ Hord].
  specialize (Hord Hlt).
  pose proof (_ymd2ord_bounds _ _ _ Hv1) as Hb1.
  assert (Hle : md_le m2 d2 m1 d1 = true).
  { unfold md_lt, md_le in *.
    destruct (m2 <? m1); [reflexivity|]. cbn [orb] in *.
    destruct (m2 =? m1); [|discriminate]. cbn [andb] in *.
    apply Z.ltb_lt in Hlt. apply Z.leb_le. lia. }
  eexists. split; [apply get_delta_seconds_ordinals; try assumption; lia|].
  rewrite days_inclusive_ord by (try apply Hv1; try apply Hv2; assumption).
  split; lia.
Qed.

Lemma get_delta_seconds_reversed_witness :
  exists s,
    get_delta_seconds 2021 3 1 2 27 = Ok s
    /\ s <= 0
    /\ s = 86400 * (2 - days_inclusive 2021 2 27 3 1).
Proof.
  apply (get_delta_seconds_reversed 2021 3 1 2 27).
  - repeat split; vm_compute; discriminate.
  - repeat split; vm_compute; discriminate.
  - reflexivity.
Defined.

(** X3: intervals compose. For dates a <= b <= c of one year, the seconds
    from a to c are those from a to b plus those from b to c, less the one
    day b that both count. *)
Theorem get_delta_seconds_additive (y ma da mb db mc dc : Z) :
  valid_date y ma da -> valid_date y mb db -> valid_date y mc dc ->
  md_le ma da mb db = true -> md_le mb db mc dc = true ->
  (y, mc, dc) <> (9999, 12, 31) ->
  exists sab sbc sac,
    get_delta_seconds y ma da mb db = Ok sab
    /\ get_delta_seconds y mb db mc dc = Ok sbc
    /\ get_delta_seconds y ma da mc dc = Ok sac
    /\ sac = sab + sbc - 86400.
Proof.
  intros Hva Hvb Hvc Hab Hbc Hlast.
  assert (Hc : _ymd2ord y mc dc < _MAXORDINAL).
  { pose proof (_ymd2ord_bounds _ _ _ Hvc) as Hb.
    destruct (Z.eq_dec (_ymd2ord y mc dc) _MAXORDINAL) as [Heq|Hne]; [|lia].
    destruct (_ymd2ord_last _ _ _ Hvc Heq) as (-> & -> & ->).
    now contradiction Hlast. }
  destruct (month_day_le_ordinal y mb db mc dc Hvb Hvc) as [Hbc' _].
  specialize (Hbc' Hbc).
  eexists _, _, _.
  split; [apply get_delta_seconds_ordinals; try assumption; lia|].
  split; [apply get_delta_seconds_ordinals; assumption|].
  split; [apply get_delta_seconds_ordinals; assumption|]. lia.
Qed.

Lemma get_delta_seconds_additive_witness :
  exists sab sbc sac,
    get_delta_seconds 2020 1 15 2 29 = Ok sab
    /\ get_delta_seconds 2020 2 29 12 31 = Ok sbc
    /\ get_delta_seconds 2020 1 15 12 31 = Ok sac
    /\ sac = sab + sbc - 86400.
Proof.
  apply (get_delta_seconds_additive 2020 1 15 2 29 12 31).
  - repeat split; vm_compute; discriminate.
  - repeat split; vm_compute; discriminate.
  - repeat split; vm_compute; discriminate.
  - reflexivity.
  - reflexivity.
  - discriminate.
Defined.

(** X4: leap years count. From January 1st to December 31st of a year
    before 9999 the result is 366 days of seconds in a leap year and 365
    otherwise. *)
Theorem get_delta_seconds_full_year (y : Z) :
  1 <= y <= 9998 ->
  get_delta_seconds y 1 1 12 31
  = Ok (86400 * (if _is_leap y then 366 else 365)).
Proof.
  intros Hy.
  assert (Hv1 : valid_date y 1 1)
    by (unfold valid_date, _days_in_month; cbn; lia).
  assert (Hv2 : valid_date y 12 31)
    by (unfold valid_date, _days_in_month; cbn; lia).
  rewrite get_delta_seconds_ordinals; try assumption.
  - f_equal. unfold _ymd2ord, _days_before_month. cbn.
    destruct (_is_leap y); lia.
  - pose proof (_ymd2ord_bounds _ _ _ Hv2) as Hb.
    destruct (Z.eq_dec (_ymd2ord y 12 31) _MAXORDINAL) as [Heq|Hne]; [|lia].
    destruct (_ymd2ord_last _ _ _ Hv2 Heq) as (-> & _). lia.
Qed.

Lemma get_delta_seconds_full_year_witness :
  get_delta_seconds 1900 1 1 12 31
  = Ok (86400 * (if _is_leap 1900 then 366 else 365)).
Proof. apply (get_delta_seconds_full_year 1900). lia. Defined.

(** X5: for dates in order the result is a whole number of days, at least
    one and at most the length of the year. *)
Theorem get_delta_seconds_range (y m1 d1 m2 d2 : Z) :
  valid_date y m1 d1 -> valid_date y m2 d2 ->
  md_le m1 d1 m2 d2 = true ->
  (y, m2, d2) <> (9999, 12, 31) ->
  exists n,
    get_delta_seconds y m1 d1 m2 d2 = Ok (86400 * n)
    /\ 1 <= n <= (if _is_leap y then 366 else 365).
Proof.
  intros Hv1 Hv2 Hle Hlast.
  assert (Hc : _ymd2ord y m2 d2 < _MAXORDINAL).
  { pose proof (_ymd2ord_bounds _ _ _ Hv2) as Hb.
    destruct (Z.eq_dec (_ymd2ord y m2 d2) _MAXORDINAL) as [Heq|Hne]; [|lia].
    destruct (_ymd2ord_last _ _ _ Hv2 Heq) as (-> & -> & ->).
    now contradiction Hlast. }
  destruct (month_day_le_ordinal y m1 d1 m2 d2 Hv1 Hv2) as [Hord _].
  specialize (Hord Hle).
  eexists. split; [apply get_delta_seconds_ordinals; assumption|].
  destruct Hv1 as (_ & Hm1 & Hd1), Hv2 as (_ & Hm2 & Hd2).
  pose proof (_days_before_month_bounds y m1 d1 Hm1 Hd1).
  pose proof (_days_before_month_bounds y m2 d2 Hm2 Hd2).
  unfold _ymd2ord in *. destruct (_is_leap y); lia.
Qed.

Lemma get_delta_seconds_range_witness :
  exists n,
    get_delta_seconds 2021 6 1 8 31 = Ok (86400 * n)
    /\ 1 <= n <= (if _is_leap 2021 then 366 else 365).
Proof.
  apply (get_delta_seconds_range 2021 6 1 8 31).
  - repeat split; vm_compute; discriminate.
  - repeat split; vm_compute; discriminate.
  - reflexivity.
  - discriminate.
Defined.

(** ** [get_current_time_info]: errors, ranges, what the result depends on *)

(** With a begin date that exists in [sim_year], the whole function comes
    down to one range test on the day ordinal reached. *)
Lemma get_current_time_info_valid_start
    (epm : Epm) (rp : gmap string Z) (bm bd sy e : Z) :
  RunPeriod epm !! 0%nat = Some rp ->
  rp !! "begin_month" = Some bm ->
  rp !! "begin_day_of_month" = Some bd ->
  valid_date sy bm bd ->
  get_current_time_info epm e sy
  = if (0 <? _ymd2ord sy bm bd + e / 86400)
       && (_ymd2ord sy bm bd + e / 86400 <=? _MAXORDINAL)
    then let '(y, m, d) := _ord2ymd (_ymd2ord sy bm bd + e / 86400) in
         Ok (d, m, e mod 86400 / 3600)
    else Raise OverflowError.
Proof.
  intros Hrp Hbm Hbd Hv.
  pose proof (_ymd2ord_bounds _ _ _ Hv) as Hord.
  assert (Hs : 0 <= e mod 86400 < 86400) by (apply Z.mod_pos_bound; lia).
  set (D := _ymd2ord sy bm bd + e / 86400).
  destruct (Z.ltb_spec 0 D) as [Hpos|Hneg];
    destruct (Z.leb_spec D _MAXORDINAL) as [Hmax|Hbig]; cbn [andb].
  - (* in range *)
    destruct (current_date_of_ok epm rp bm bd sy e Hrp Hbm Hbd Hv
                ltac:(fold D; lia))
      as (y & m & d & Hval & Hback & Hcur).
    rewrite get_current_time_info_project, Hcur. cbn [bind day month hour].
    destruct (_ord2ymd_spec D ltac:(lia)) as (y' & m' & d' & Hymd & Hval' & Hback').
    rewrite Hymd.
    destruct (_ymd2ord_inj y m d y' m' d') as (_ & -> & ->);
      try apply Hval; try apply Hval'; [fold D in Hback; lia | reflexivity].
  - (* past the last day *)
    unfold get_current_time_info, list_getitem, dict_getitem.
    rewrite Hrp. cbn [bind]. rewrite Hbm, Hbd. cbn [bind].
    rewrite new_datetime_ok by (try assumption; lia). cbn [bind].
    unfold new_timedelta at 1. rewrite Z.add_0_l.
    destruct (Z.ltb_spec 999999999 (Z.abs (e / 86400))); [reflexivity|].
    cbn [bind]. unfold datetime_add, toordinal.
    cbn [year month day hour minute second td_days td_seconds].
    change (0 * 3600 + 0 * 60 + 0) with 0.
    rewrite new_timedelta_ok
      by (change (0 / 86400) with 0; unfold _MAXORDINAL in *; lia).
    cbn [bind td_days td_seconds].
    change (0 / 86400) with 0. change (0 mod 86400) with 0.
    rewrite Z.add_0_r, Z.add_0_l. unfold new_timedelta.
    rewrite (Z.div_small (e mod 86400)) by lia. rewrite Z.add_0_r. fold D.
    destruct (Z.ltb_spec 999999999 (Z.abs D)); [reflexivity|]. cbn [bind td_days].
    destruct (Z.ltb_spec 0 D); [|reflexivity].
    destruct (Z.leb_spec D _MAXORDINAL); [lia|reflexivity].
  - (* before the first day *)
    unfold get_current_time_info, list_getitem, dict_getitem.
    rewrite Hrp. cbn [bind]. rewrite Hbm, Hbd. cbn [bind].
    rewrite new_datetime_ok by (try assumption; lia). cbn [bind].
    unfold new_timedelta at 1. rewrite Z.add_0_l.
    destruct (Z.ltb_spec 999999999 (Z.abs (e / 86400))); [reflexivity|].
    cbn [bind]. unfold datetime_add, toordinal.
    cbn [year month day hour minute second td_days td_seconds].
    change (0 * 3600 + 0 * 60 + 0) with 0.
    rewrite new_timedelta_ok
      by (change (0 / 86400) with 0; unfold _MAXORDINAL in *; lia).
    cbn [bind td_days td_seconds].
    change (0 / 86400) with 0. change (0 mod 86400) with 0.
    rewrite Z.add_0_r, Z.add_0_l. unfold new_timedelta.
    rewrite (Z.div_small (e mod 86400)) by lia. rewrite Z.add_0_r. fold D.
    destruct (Z.ltb_spec 999999999 (Z.abs D)); [reflexivity|]. cbn [bind td_days].
    destruct (Z.ltb_spec 0 D); [lia|reflexivity].
  - unfold _MAXORDINAL in *. lia.
Qed.

Lemma get_current_time_info_bad_date
    (epm : Epm) (rp : gmap string Z) (bm bd sy e : Z) :
  RunPeriod epm !! 0%nat = Some rp ->
  rp !! "begin_month" = Some bm ->
  rp !! "begin_day_of_month" = Some bd ->
  ~ valid_date sy bm bd ->
  get_current_time_info epm e sy = Raise (date_error sy bm bd).
Proof.
  intros Hrp Hbm Hbd Hinv.
  unfold get_current_time_info, list_getitem, dict_getitem.
  rewrite Hrp. cbn [bind]. rewrite Hbm, Hbd. cbn [bind].
  now rewrite (new_datetime_invalid sy bm bd 0 0 0 eq_refl Hinv).
Qed.

(** X6: a begin date that does not exist in [sim_year] makes
    [get_current_time_info] raise, for every offset: [OverflowError] when
    the year, the month or the day does not fit a C [int], [ValueError]
    otherwise. *)
Theorem get_current_time_info_invalid_begin_date
    (epm : Epm) (rp : gmap string Z) (bm bd sy e : Z) :
  RunPeriod epm !! 0%nat = Some rp ->
  rp !! "begin_month" = Some bm ->
  rp !! "begin_day_of_month" = Some bd ->
  ~ valid_date sy bm bd ->
  get_current_time_info epm e sy
  = Raise (if fits_c_int sy && fits_c_int bm && fits_c_int bd
           then ValueError else OverflowError).
Proof.
  intros Hrp Hbm Hbd Hinv.
  unfold get_current_time_info, list_getitem, dict_getitem.
  rewrite Hrp. cbn [bind]. rewrite Hbm, Hbd. cbn [bind].
  rewrite (new_datetime_invalid sy bm bd 0 0 0 eq_refl Hinv).
  unfold date_error. cbn [forallb bind].
  now rewrite andb_true_r, andb_assoc.
Qed.

Lemma get_current_time_info_invalid_begin_date_witness :
  get_current_time_info
    (mk_Epm [ {[ "begin_month" := 13; "begin_day_of_month" := 1 ]} ])
    3600 1991
  = Raise (if fits_c_int 1991 && fits_c_int 13 && fits_c_int 1
           then ValueError else OverflowError).
Proof.
  apply (get_current_time_info_invalid_begin_date _
           {[ "begin_month" := 13; "begin_day_of_month" := 1 ]} 13 1).
  - reflexivity.
  - vm_compute. reflexivity.
  - vm_compute. reflexivity.
  - intros (_ & Hm & _). lia.
Defined.

(** X7: with a begin date that exists, an offset whose instant falls before
    day 1 of year 1 or after the last day of year 9999 makes
    [get_current_time_info] raise [OverflowError]. *)
Theorem get_current_time_info_out_of_range
    (epm : Epm) (rp : gmap string Z) (bm bd sy e : Z) :
  RunPeriod epm !! 0%nat = Some rp ->
  rp !! "begin_month" = Some bm ->
  rp !! "begin_day_of_month" = Some bd ->
  valid_date sy bm bd ->
  ~ (1 <= _ymd2ord sy bm bd + e / 86400 <= _MAXORDINAL) ->
  get_current_time_info epm e sy = Raise OverflowError.
Proof.
  intros Hrp Hbm Hbd Hv Hout.
  rewrite (get_current_time_info_valid_start epm rp bm bd sy e Hrp Hbm Hbd Hv).
  destruct (Z.ltb_spec 0 (_ymd2ord sy bm bd + e / 86400));
    destruct (Z.leb_spec (_ymd2ord sy bm bd + e / 86400) _MAXORDINAL);
    cbn [andb]; try reflexivity.
  exfalso. apply Hout. lia.
Qed.

Lemma get_current_time_info_out_of_range_witness :
  get_current_time_info
    (mk_Epm [ {[ "begin_month" := 1; "begin_day_of_month" := 1 ]} ])
    (-1) 1 = Raise OverflowError.
Proof.
  apply (get_current_time_info_out_of_range _
           {[ "begin_month" := 1; "begin_day_of_month" := 1 ]} 1 1).
  - reflexivity.
  - vm_compute. reflexivity.
  - vm_compute. reflexivity.
  - repeat split; vm_compute; discriminate.
  - vm_compute. intros [H _]. now apply H.
Defined.

(** X8: at offset zero the result is the begin date itself, at hour 0: the
    way through the day ordinal and back loses nothing. *)
Theorem get_current_time_info_zero_offset
    (epm : Epm) (rp : gmap string Z) (bm bd sy : Z) :
  RunPeriod epm !! 0%nat = Some rp ->
  rp !! "begin_month" = Some bm ->
  rp !! "begin_day_of_month" = Some bd ->
  valid_date sy bm bd ->
  get_current_time_info epm 0 sy = Ok (bd, bm, 0).
Proof.
  intros Hrp Hbm Hbd Hv.
  pose proof (_ymd2ord_bounds _ _ _ Hv) as Hord.
  rewrite (get_current_time_info_valid_start epm rp bm bd sy 0 Hrp Hbm Hbd Hv).
  change (0 / 86400) with 0. change (0 mod 86400 / 3600) with 0.
  rewrite Z.add_0_r.
  destruct (Z.ltb_spec 0 (_ymd2ord sy bm bd)); [|lia].
  destruct (Z.leb_spec (_ymd2ord sy bm bd) _MAXORDINAL); [|lia]. cbn [andb].
  destruct (_ord2ymd_spec _ Hord) as (y & m & d & Hymd & Hval & Hback).
  rewrite Hymd.
  destruct (_ymd2ord_inj y m d sy bm bd) as (_ & -> & ->);
    try apply Hval; try apply Hv; [exact Hback | reflexivity].
Qed.

Lemma get_current_time_info_zero_offset_witness :
  get_current_time_info
    (mk_Epm [ {[ "begin_month" := 2; "begin_day_of_month" := 29 ]} ])
    0 2000 = Ok (29, 2, 0).
Proof.
  apply (get_current_time_info_zero_offset _
           {[ "begin_month" := 2; "begin_day_of_month" := 29 ]} 2 29 2000).
  - reflexivity.
  - vm_compute. reflexivity.
  - vm_compute. reflexivity.
  - repeat split; vm_compute; discriminate.
Defined.

(** X9: whatever the inputs, a triple that [get_current_time_info] returns
    is a day of 1..31, a month of 1..12 and an hour of 0..23. *)
Theorem get_current_time_info_result_range (epm : Epm) (e sy d m h : Z) :
  get_current_time_info epm e sy = Ok (d, m, h) ->
  1 <= d <= 31 /\ 1 <= m <= 12 /\ 0 <= h <= 23.
Proof.
  intros Hres.
  destruct (RunPeriod epm !! 0%nat) as [rp|] eqn:Hrp;
    [|unfold get_current_time_info, list_getitem in Hres;
      rewrite Hrp in Hres; discriminate].
  destruct (rp !! "begin_month") as [bm|] eqn:Hbm;
    [|unfold get_current_time_info, list_getitem, dict_getitem in Hres;
      rewrite Hrp in Hres; cbn [bind] in Hres; rewrite Hbm in Hres;
      discriminate].
  destruct (rp !! "begin_day_of_month") as [bd|] eqn:Hbd;
    [|unfold get_current_time_info, list_getitem, dict_getitem in Hres;
      rewrite Hrp in Hres; cbn [bind] in Hres; rewrite Hbm, Hbd in Hres;
      discriminate].
  destruct (decide (1 <= sy <= 9999 /\ 1 <= bm <= 12
                    /\ 1 <= bd <= _days_in_month sy bm)) as [Hv|Hinv];
    [|rewrite (get_current_time_info_bad_date epm rp bm bd sy e
                 Hrp Hbm Hbd Hinv) in Hres; discriminate].
  rewrite (get_current_time_info_valid_start epm rp bm bd sy e Hrp Hbm Hbd Hv)
    in Hres.
  set (D := _ymd2ord sy bm bd + e / 86400) in *.
  destruct (Z.ltb_spec 0 D); destruct (Z.leb_spec D _MAXORDINAL);
    cbn [andb] in Hres; try discriminate.
  destruct (_ord2ymd_spec D ltac:(lia)) as (y' & m' & d' & Hymd & Hval & _).
  rewrite Hymd in Hres. injection Hres as <- <- <-.
  destruct Hval as (_ & Hm & Hd).
  pose proof (_days_in_month_le_31 y' m' Hm).
  assert (Hs : 0 <= e mod 86400 < 86400) by (apply Z.mod_pos_bound; lia).
  repeat split; try lia.
  - apply Z.div_pos; lia.
  - apply Z.lt_succ_r. apply Z.div_lt_upper_bound; lia.
Qed.

Lemma get_current_time_info_result_range_witness :
  1 <= 1 <= 31 /\ 1 <= 1 <= 12 /\ 0 <= 1 <= 23.
Proof.
  apply (get_current_time_info_result_range
           (mk_Epm [ {[ "begin_month" := 1; "begin_day_of_month" := 1 ]} ])
           3661 1991 1 1 1).
  vm_compute. reflexivity.
Defined.

(** X10: only the whole hours of the offset matter. Two offsets with the
    same number of whole hours give the same outcome, result or error,
    whatever the other inputs. *)
Theorem get_current_time_info_same_hour (epm : Epm) (sy e1 e2 : Z) :
  e1 / 3600 = e2 / 3600 ->
  get_current_time_info epm e1 sy = get_current_time_info epm e2 sy.
Proof.
  intros Hh.
  assert (Hday : e1 / 86400 = e2 / 86400).
  { change 86400 with (3600 * 24).
    rewrite <- !Z.div_div by lia. now rewrite Hh. }
  assert (Hhour : e1 mod 86400 / 3600 = e2 mod 86400 / 3600).
  { Z.to_euclidean_division_equations. lia. }
  destruct (RunPeriod epm !! 0%nat) as [rp|] eqn:Hrp;
    [|unfold get_current_time_info, list_getitem; now rewrite Hrp].
  destruct (rp !! "begin_month") as [bm|] eqn:Hbm;
    [|unfold get_current_time_info, list_getitem, dict_getitem;
      rewrite Hrp; cbn [bind]; now rewrite Hbm].
  destruct (rp !! "begin_day_of_month") as [bd|] eqn:Hbd;
    [|unfold get_current_time_info, list_getitem, dict_getitem;
      rewrite Hrp; cbn [bind]; now rewrite Hbm, Hbd].
  destruct (decide (1 <= sy <= 9999 /\ 1 <= bm <= 12
                    /\ 1 <= bd <= _days_in_month sy bm)) as [Hv|Hinv].
  - rewrite !(get_current_time_info_valid_start epm rp bm bd sy _
                Hrp Hbm Hbd Hv).
    now rewrite Hday, Hhour.
  - now rewrite !(get_current_time_info_bad_date epm rp bm bd sy _
                    Hrp Hbm Hbd Hinv).
Qed.

Lemma get_current_time_info_same_hour_witness :
  get_current_time_info
    (mk_Epm [ {[ "begin_month" := 1; "begin_day_of_month" := 1 ]} ])
    3600 1991
  = get_current_time_info
      (mk_Epm [ {[ "begin_month" := 1; "begin_day_of_month" := 1 ]} ])
      7199 1991.
Proof.
  apply (get_current_time_info_same_hour _ 1991 3600 7199). reflexivity.
Defined.

(** ** [parse_variables]: what a result means, composition, first error *)

Lemma parse_variables_loop_first_child (vars : list Element) :
  forall acc res,
    parse_variables_loop vars acc = Ok res ->
    exists tys,
      res = acc ++ tys
      /\ Forall2 first_child_type (List.filter is_engine_variable vars) tys.
Proof.
  induction vars as [|v vars IH]; intros acc res Hres.
  - cbn in Hres. injection Hres as <-. exists [].
    split; [now rewrite app_nil_r | constructor].
  - cbn [parse_variables_loop List.filter] in Hres |- *.
    unfold dict_getitem, child_getitem, list_getitem, is_engine_variable in *.
    destruct (attrib v !! "source") as [s|]; [|discriminate].
    cbn [bind] in Hres.
    destruct (String.eqb s "EnergyPlus"); [|now apply IH].
    destruct (children v) as [|c cs] eqn:Hc; [discriminate|].
    cbn [lookup list_lookup bind] in Hres.
    destruct (attrib c !! "type") as [ty|] eqn:Hty; [|discriminate].
    cbn [bind] in Hres.
    destruct (IH _ _ Hres) as (tys & -> & Hf2).
    exists (ty :: tys). split; [now rewrite <- app_assoc|].
    constructor; [|exact Hf2]. exists c, cs. now split.
Qed.

(** X11: whenever [parse_variables] returns a list, with or without the
    schema being followed, the list lines up one for one and in document
    order with the children of the root that have tag [variable] and
    source ["EnergyPlus"], and each entry is the [type] of the FIRST child
    of its variable; further children are not looked at. *)
Theorem parse_variables_first_children (root : Element) (tys : list string) :
  parse_variables (Document root) = Ok tys ->
  Forall2 first_child_type (engine_variables root) tys.
Proof.
  intros Hres. cbn [parse_variables parse_getroot bind] in Hres.
  destruct (parse_variables_loop_first_child _ _ _ Hres) as (tys' & -> & Hf2).
  rewrite <- findall_engine_variables. exact Hf2.
Qed.

Lemma parse_variables_first_children_witness :
  Forall2 first_child_type
    (engine_variables
       (mk_Element "variables" ∅
          [ mk_Element "note" {[ "source" := "EnergyPlus" ]}
              [ mk_Element "EnergyPlus" {[ "type" := "no variable" ]} [] ];
            mk_Element "variable" {[ "source" := "EnergyPlus" ]}
              [ mk_Element "EnergyPlus" {[ "type" := "a" ]} [];
                mk_Element "EnergyPlus" {[ "type" := "second" ]} [] ];
            mk_Element "variable" {[ "source" := "Other" ]} [] ]))
    ["a"].
Proof.
  apply parse_variables_first_children. vm_compute. reflexivity.
Defined.

Lemma parse_variables_loop_acc (vars : list Element) :
  forall acc,
    parse_variables_loop vars acc
    = (l <- parse_variables_loop vars [] ;; Ok (acc ++ l)).
Proof.
  induction vars as [|v vars IH]; intros acc.
  - cbn. now rewrite app_nil_r.
  - cbn [parse_variables_loop].
    destruct (dict_getitem (attrib v) "source") as [s|]; [|reflexivity].
    cbn [bind]. destruct (String.eqb s "EnergyPlus"); [|apply IH].
    destruct (child_getitem v 0) as [c|]; [|reflexivity]. cbn [bind].
    destruct (dict_getitem (attrib c) "type") as [ty|]; [|reflexivity].
    cbn [bind]. rewrite (IH (acc ++ [ty])), (IH ([] ++ [ty])).
    destruct (parse_variables_loop vars []) as [l|]; [|reflexivity].
    cbn [bind]. now rewrite <- app_assoc.
Qed.

Lemma parse_variables_loop_app (vs1 vs2 : list Element) :
  forall acc,
    parse_variables_loop (vs1 ++ vs2) acc
    = (l1 <- parse_variables_loop vs1 acc ;; parse_variables_loop vs2 l1).
Proof.
  induction vs1 as [|v vs1 IH]; intros acc; [reflexivity|].
  cbn [app parse_variables_loop].
  destruct (dict_getitem (attrib v) "source") as [s|]; [|reflexivity].
  cbn [bind]. destruct (String.eqb s "EnergyPlus"); [|apply IH].
  destruct (child_getitem v 0) as [c|]; [|reflexivity]. cbn [bind].
  destruct (dict_getitem (attrib c) "type") as [ty|]; [|reflexivity].
  cbn [bind]. apply IH.
Qed.

(** X12: parsing composes over the document. The outcome for a root with
    children [cs1 ++ cs2] is the list for [cs1] followed by the list for
    [cs2]; if either part fails the whole fails, with the error of the
    first part if that one fails. *)
Theorem parse_variables_app (t : string) (a : gmap string string)
    (cs1 cs2 : list Element) :
  parse_variables (Document (mk_Element t a (cs1 ++ cs2)))
  = (l1 <- parse_variables (Document (mk_Element t a cs1)) ;;
     l2 <- parse_variables (Document (mk_Element t a cs2)) ;;
     Ok (l1 ++ l2)).
Proof.
  cbn [parse_variables parse_getroot bind]. unfold findall. cbn [children].
  rewrite List.filter_app, parse_variables_loop_app.
  destruct (parse_variables_loop
              (List.filter (fun c => String.eqb (tag c) "variable") cs1) [])
    as [l1|]; [|reflexivity].
  cbn [bind]. apply parse_variables_loop_acc.
Qed.

(** X13: the error is that of the first variable, in document order, that
    the loop cannot read: [KeyError "source"] if it has no [source]
    attribute, else [IndexError] if it has no child, else
    [KeyError "type"]. What comes after it is never looked at. *)
Theorem parse_variables_first_error (root : Element)
    (good : list Element) (v : Element) (rest : list Element) :
  findall root "variable" = good ++ v :: rest ->
  existsb breaks_parser good = false ->
  breaks_parser v = true ->
  parse_variables (Document root) = Raise (error_at v).
Proof.
  intros Hvars Hgood Hbad.
  cbn [parse_variables parse_getroot bind]. rewrite Hvars.
  rewrite parse_variables_loop_app.
  pose proof (parse_variables_loop_outcome good []) as Hout.
  rewrite Hgood in Hout. destruct Hout as [l1 ->]. cbn [bind].
  cbn [parse_variables_loop].
  unfold breaks_parser, matched_malformed, is_engine_variable in Hbad.
  unfold error_at, dict_getitem, child_getitem, list_getitem.
  destruct (attrib v !! "source") as [s|]; [|reflexivity]. cbn [bind].
  rewrite bool_decide_eq_false_2 in Hbad by discriminate. cbn [orb] in Hbad.
  destruct (String.eqb s "EnergyPlus"); [|discriminate]. cbn [andb] in Hbad.
  destruct (children v) as [|c cs]; [reflexivity|].
  cbn [lookup list_lookup bind].
  apply bool_decide_eq_true in Hbad. now rewrite Hbad.
Qed.

Lemma parse_variables_first_error_witness :
  parse_variables
    (Document (mk_Element "variables" ∅
       [ mk_Element "variable" {[ "source" := "EnergyPlus" ]}
           [ mk_Element "EnergyPlus" {[ "type" := "a" ]} [] ];
         mk_Element "variable" {[ "source" := "EnergyPlus" ]} [];
         mk_Element "variable" ∅ [] ]))
  = Raise (error_at (mk_Element "variable" {[ "source" := "EnergyPlus" ]} [])).
Proof.
  apply (parse_variables_first_error _
           [ mk_Element "variable" {[ "source" := "EnergyPlus" ]}
               [ mk_Element "EnergyPlus" {[ "type" := "a" ]} [] ] ]
           (mk_Element "variable" {[ "source" := "EnergyPlus" ]} [])
           [ mk_Element "variable" ∅ [] ]).
  - vm_compute. reflexivity.
  - vm_compute. reflexivity.
  - vm_compute. reflexivity.
Defined.

(** ** [create_variable_weather]: error path, random source, files *)

Lemma normal_state
    {V R : Type} {num : PyNumber V} {rng : RandomSource R V}
    (mu std : V) (rows cols : nat) (r : R) :
  (normal_fill mu std rows cols r).2 = (draws (rows * cols) r).2.
Proof. unfold normal_fill. now destruct (draws (rows * cols) r). Qed.

(** X14: with a noise specification numpy accepts, a target column that
    the series does not have makes the call raise the [KeyError] of
    the selection, which names exactly the targets that are no column.
    Nothing is written and the series is untouched, but the noise has been
    drawn by then: the random source has moved on by rows times targets
    draws. *)
Theorem create_variable_weather_missing_column
    {V R : Type} {num : PyNumber V} {rng : RandomSource R V}
    (w : World V R) (orig : string) (cols : list string) (c : string)
    (mu std : V) :
  accepted_variation mu std = true ->
  c ∈ cols ->
  columns (weather_series w) !! c = None ->
  exists labels,
    create_variable_weather w orig cols (Some (mu, std))
    = (mk_World (weather_series w) (files w)
         (draws (nrows (weather_series w) * length cols)
                (random_state w)).2,
       Raise (KeyError_not_in_index labels))
    /\ forall c', c' ∈ labels
                  <-> c' ∈ cols /\ columns (weather_series w) !! c' = None.
Proof.
  intros Hstd Hin Hmissing.
  exists (list_to_set (missing_labels (weather_series w) cols)).
  split; [|intros c'; rewrite elem_of_list_to_set; apply missing_labels_spec].
  unfold create_variable_weather, iadd_columns, getitem_columns.
  rewrite (normal_accepted mu std _ _ _ Hstd), <- (normal_state mu std).
  destruct (normal_fill mu std (nrows (weather_series w))
              (length cols) (random_state w)) as [noise r'].
  destruct (missing_labels (weather_series w) cols) as [|c0 l] eqn:Hm.
  - assert (Hc : c ∈ missing_labels (weather_series w) cols)
      by (apply missing_labels_spec; now split).
    rewrite Hm in Hc. now apply elem_of_nil in Hc.
  - reflexivity.
Qed.

Lemma create_variable_weather_missing_column_witness :
  exists labels,
    create_variable_weather (rng := counting_source) example_world "X.epw"
      ["drybulb"; "windspd"; "relhum"] (Some (0, 1))
    = (mk_World (weather_series example_world) (files example_world)
         (draws (rng := counting_source)
            (nrows (weather_series example_world)
             * length ["drybulb"; "windspd"; "relhum"])
            (random_state example_world)).2,
       Raise (KeyError_not_in_index labels))
    /\ forall c', c' ∈ labels
                  <-> c' ∈ ["drybulb"; "windspd"; "relhum"]
                      /\ columns (weather_series example_world) !! c' = None.
Proof.
  apply (create_variable_weather_missing_column (rng := counting_source)
           example_world "X.epw" ["drybulb"; "windspd"; "relhum"]
           "windspd" 0 1).
  - reflexivity.
  - apply elem_of_cons. right. apply elem_of_cons. now left.
  - vm_compute. reflexivity.
Defined.

Lemma prefix_true (sep : string) :
  forall s, String.prefix sep s = true -> exists b, s = sep +:+ b.
Proof.
  induction sep as [|c sep IH]; intros s Hp.
  - exists s. reflexivity.
  - destruct s as [|c' s]; [discriminate|]. cbn [String.prefix] in Hp.
    destruct (ascii_dec c c') as [<-|]; [|discriminate].
    destruct (IH s Hp) as [b ->]. exists b. reflexivity.
Qed.

(** The first part [split] returns is the text before the first separator,
    or the whole text when there is none. *)
Lemma split_from_head (sep : string) (s : string) :
  forall cur, exists a tl,
    PyStr.split_from sep s 0 cur = (cur +:+ a) :: tl
    /\ (s = a \/ exists b, s = a +:+ sep +:+ b).
Proof.
  induction s as [|c s IH]; intros cur.
  - exists EmptyString, []. cbn [PyStr.split_from].
    rewrite string_app_nil_r. split; [reflexivity | now left].
  - cbn [PyStr.split_from].
    destruct (String.prefix sep (String c s)) eqn:Hp.
    + destruct (prefix_true _ _ Hp) as [b Hb].
      exists EmptyString. eexists. rewrite string_app_nil_r.
      split; [reflexivity|]. right. exists b. exact Hb.
    + destruct (IH (cur +:+ String c EmptyString)) as (a & tl & Hsplit & Hs).
      exists (String c a), tl. rewrite Hsplit, string_app_assoc.
      split; [reflexivity|].
      destruct Hs as [->|[b ->]]; [now left|]. right. now exists b.
Qed.

Lemma string_length_app (s t : string) :
  String.length (s +:+ t) = (String.length s + String.length t)%nat.
Proof.
  induction s as [|c s IH]; [reflexivity|].
  rewrite string_app_cons. cbn [String.length]. now rewrite IH.
Qed.

Lemma create_variable_weather_state
    {V R : Type} {num : PyNumber V} {rng : RandomSource R V}
    (w : World V R) (orig : string) (cols : list string) (mu std : V) :
  accepted_variation mu std = true ->
  NoDup cols ->
  (forall c, c ∈ cols ->
     exists col, columns (weather_series w) !! c = Some col
                 /\ length col = nrows (weather_series w)) ->
  exists w' filename,
    create_variable_weather w orig cols (Some (mu, std))
    = (w', Ok (Some filename))
    /\ random_state w'
       = (draws (nrows (weather_series w) * length cols) (random_state w)).2.
Proof.
  intros Hstd Hnd Hcols.
  destruct (create_variable_weather_some w orig cols mu std Hstd Hnd Hcols)
    as (sub & stem & rest & _ & _ & _ & _ & Hrun).
  cbv zeta in Hrun.
  eexists _, _. split; [exact Hrun|].
  cbn [random_state]. apply normal_state.
Qed.

(** X15: with a noise specification numpy accepts and distinct targets
    that exist, the call succeeds and the state changes in three
    places and nowhere else:
    the random source has given out rows times targets draws, the series is
    the perturbed one, and the file system has one entry set, the returned
    path, which holds the perturbed series. The returned path is never the
    original path, so the original file is not overwritten. *)
Theorem create_variable_weather_effects
    {V R : Type} {num : PyNumber V} {rng : RandomSource R V}
    (w : World V R) (orig : string) (cols : list string) (mu std : V) :
  accepted_variation mu std = true ->
  NoDup cols ->
  (forall c, c ∈ cols ->
     exists col, columns (weather_series w) !! c = Some col
                 /\ length col = nrows (weather_series w)) ->
  exists w' filename,
    create_variable_weather w orig cols (Some (mu, std))
    = (w', Ok (Some filename))
    /\ random_state w'
       = (draws (nrows (weather_series w) * length cols) (random_state w)).2
    /\ files w' = <[filename := weather_series w']> (files w)
    /\ filename <> orig
    /\ files w' !! orig = files w !! orig.
Proof.
  intros Hstd Hnd Hcols.
  destruct (create_variable_weather_some w orig cols mu std Hstd Hnd Hcols)
    as (sub & stem & rest & _ & _ & _ & Hsplit & Hrun).
  cbv zeta in Hrun.
  destruct (split_from_head ".epw" orig EmptyString) as (a & tl & Hhead & Hs).
  rewrite Hsplit in Hhead. injection Hhead as Hstem _.
  change (EmptyString +:+ a) with a in Hstem. subst stem.
  assert (Hne : a +:+ "_Random_" +:+ py_str mu +:+ "_" +:+ py_str std +:+ ".epw"
                <> orig).
  { intros Heq. destruct Hs as [->|[b ->]].
    - apply (f_equal String.length) in Heq.
      rewrite string_length_app in Heq.
      change ("_Random_" +:+ py_str mu +:+ "_" +:+ py_str std +:+ ".epw")
        with (String "_" ("Random_" +:+ py_str mu +:+ "_" +:+ py_str std
                          +:+ ".epw")) in Heq.
      cbn [String.length] in Heq. lia.
    - apply (inj (String.append a)) in Heq. discriminate Heq. }
  eexists _, _. split; [exact Hrun|].
  cbn [random_state files weather_series].
  split; [apply normal_state|]. split; [reflexivity|]. split; [exact Hne|].
  now apply lookup_insert_ne.
Qed.

Lemma create_variable_weather_effects_witness :
  exists w' filename,
    create_variable_weather (rng := counting_source) example_world
      "weather.epw" ["relhum"; "drybulb"] (Some (1, 2))
    = (w', Ok (Some filename))
    /\ random_state w'
       = (draws (rng := counting_source)
            (nrows (weather_series example_world)
             * length ["relhum"; "drybulb"])
            (random_state example_world)).2
    /\ files w' = <[filename := weather_series w']> (files example_world)
    /\ filename <> "weather.epw"
    /\ files w' !! "weather.epw" = files example_world !! "weather.epw".
Proof.
  apply (create_variable_weather_effects (rng := counting_source)
           example_world "weather.epw" ["relhum"; "drybulb"] 1 2).
  - reflexivity.
  - apply NoDup_cons. split; [|apply NoDup_singleton].
    intros Hin. apply list_elem_of_singleton in Hin. discriminate.
  - intros c Hc. apply elem_of_cons in Hc as [->|Hc].
    + exists [50; 60]. split; [vm_compute; reflexivity | reflexivity].
    + apply list_elem_of_singleton in Hc. subst c.
      exists [10; 20]. split; [vm_compute; reflexivity | reflexivity].
Defined.

Lemma draw_at_after_draws
    {V R : Type} {rng : RandomSource R V} (n k : nat) :
  forall r : R, draw_at k (draws n r).2 = draw_at (n + k) r.
Proof.
  induction n as [|n IH]; intros r; [reflexivity|].
  cbn [draws Nat.add draw_at].
  destruct (standard_normal r) as [z r1]. cbn [snd].
  specialize (IH r1). destruct (draws n r1) as [zs r2]. exact IH.
Qed.

(** X16: the weather object keeps the perturbed series, so noise
    accumulates. After two calls on the same targets, each with a noise
    specification numpy accepts, cell [i] of target
    [j] is the original cell plus the noise of the first call plus the
    noise of the second, the second call taking its draws where the first
    one stopped; the other columns are still the original ones. *)
Theorem create_variable_weather_twice
    {V R : Type} {num : PyNumber V} {rng : RandomSource R V}
    (w : World V R) (orig1 orig2 : string) (cols : list string)
    (mu1 std1 mu2 std2 : V) :
  accepted_variation mu1 std1 = true -> accepted_variation mu2 std2 = true ->
  NoDup cols ->
  (forall c, c ∈ cols ->
     exists col, columns (weather_series w) !! c = Some col
                 /\ length col = nrows (weather_series w)) ->
  exists w1 f1 w2 f2,
    create_variable_weather w orig1 cols (Some (mu1, std1))
    = (w1, Ok (Some f1))
    /\ create_variable_weather w1 orig2 cols (Some (mu2, std2))
       = (w2, Ok (Some f2))
    /\ (forall c, c ∉ cols ->
          columns (weather_series w2) !! c = columns (weather_series w) !! c)
    /\ (forall j c col,
          cols !! j = Some c ->
          columns (weather_series w) !! c = Some col ->
          exists new,
            columns (weather_series w2) !! c = Some new
            /\ length new = length col
            /\ forall i x, col !! i = Some x ->
                 new !! i
                 = Some (py_add
                           (py_add x
                              (py_add mu1
                                 (py_mul std1
                                    (draw_at (i * length cols + j)
                                             (random_state w)))))
                           (py_add mu2
                              (py_mul std2
                                 (draw_at
                                    (nrows (weather_series w) * length cols
                                     + (i * length cols + j))
                                    (random_state w)))))).
Proof.
  intros Hstd1 Hstd2 Hnd Hcols.
  destruct (create_variable_weather_cells w orig1 cols mu1 std1 Hstd1 Hnd
              Hcols)
    as (w1 & f1 & Hrun1 & Hrows1 & Hother1 & Htarget1).
  destruct (create_variable_weather_state w orig1 cols mu1 std1 Hstd1 Hnd
              Hcols)
    as (w1' & f1' & Hrun1' & Hrand1).
  rewrite Hrun1 in Hrun1'. injection Hrun1' as <- <-.
  assert (Hcols1 : forall c, c ∈ cols ->
            exists col, columns (weather_series w1) !! c = Some col
                        /\ length col = nrows (weather_series w1)).
  { intros c Hc. destruct (Hcols c Hc) as (col & Hcol & Hlen).
    apply list_elem_of_lookup_1 in Hc as [j Hj].
    destruct (Htarget1 j c col Hj Hcol) as (new & Hnew & Hnlen & _).
    exists new. split; [exact Hnew | lia]. }
  destruct (create_variable_weather_cells w1 orig2 cols mu2 std2 Hstd2 Hnd
              Hcols1)
    as (w2 & f2 & Hrun2 & Hrows2 & Hother2 & Htarget2).
  exists w1, f1, w2, f2. split; [exact Hrun1|]. split; [exact Hrun2|].
  split; [intros c Hc; now rewrite Hother2, Hother1|].
  intros j c col Hj Hcol.
  destruct (Htarget1 j c col Hj Hcol) as (new1 & Hnew1 & Hlen1 & Hcells1).
  destruct (Htarget2 j c new1 Hj Hnew1) as (new2 & Hnew2 & Hlen2 & Hcells2).
  exists new2. split; [exact Hnew2|]. split; [lia|].
  intros i x Hi.
  rewrite (Hcells2 i _ (Hcells1 i x Hi)), Hrand1, draw_at_after_draws.
  reflexivity.
Qed.

Lemma create_variable_weather_twice_witness :
  exists w1 f1 w2 f2,
    create_variable_weather (rng := counting_source) example_world "X.epw"
      ["drybulb"] (Some (1, 2))
    = (w1, Ok (Some f1))
    /\ create_variable_weather (rng := counting_source) w1 "X.epw"
         ["drybulb"] (Some (3, 4))
       = (w2, Ok (Some f2))
    /\ (forall c, c ∉ ["drybulb"] ->
          columns (weather_series w2) !! c
          = columns (weather_series example_world) !! c)
    /\ (forall j c col,
          ["drybulb"] !! j = Some c ->
          columns (weather_series example_world) !! c = Some col ->
          exists new,
            columns (weather_series w2) !! c = Some new
            /\ length new = length col
            /\ forall i x, col !! i = Some x ->
                 new !! i
                 = Some (py_add
                           (py_add x
                              (py_add 1
                                 (py_mul 2
                                    (draw_at (rng := counting_source)
                                       (i * length ["drybulb"] + j)
                                       (random_state example_world)))))
                           (py_add 3
                              (py_mul 4
                                 (draw_at (rng := counting_source)
                                    (nrows (weather_series example_world)
                                     * length ["drybulb"]
                                     + (i * length ["drybulb"] + j))
                                    (random_state example_world)))))).
Proof.
  apply (create_variable_weather_twice (rng := counting_source)
           example_world "X.epw" "X.epw" ["drybulb"] 1 2 3 4).
  - reflexivity.
  - reflexivity.
  - apply NoDup_singleton.
  - intros c Hc. apply list_elem_of_singleton in Hc. subst c.
    exists [10; 20]. split; [vm_compute; reflexivity | reflexivity].
Defined.

Lemma split_from_no_sep (sep : string) (s : string) :
  no_sep_start sep s EmptyString = true ->
  forall cur, PyStr.split_from sep s 0 cur = [cur +:+ s].
Proof.
  induction s as [|c s IH]; intros Hno cur.
  - cbn [PyStr.split_from]. now rewrite string_app_nil_r.
  - cbn [no_sep_start] in Hno. apply andb_prop in Hno as [Hhere Hrest].
    apply negb_true_iff in Hhere. rewrite string_app_nil_r in Hhere.
    cbn [PyStr.split_from]. rewrite Hhere.
    rewrite (IH Hrest). now rewrite string_app_assoc.
Qed.

(** X17: a path in which [.epw] does not occur at all (an upper-case
    suffix, say) is kept whole: when the call succeeds (a noise
    specification numpy accepts, distinct targets that exist) the new
    file is the full original path followed by
    [_Random_<mean>_<std>.epw]. *)
Theorem create_variable_weather_no_suffix
    {V R : Type} {num : PyNumber V} {rng : RandomSource R V}
    (w : World V R) (orig : string) (cols : list string) (mu std : V) :
  accepted_variation mu std = true ->
  NoDup cols ->
  (forall c, c ∈ cols ->
     exists col, columns (weather_series w) !! c = Some col
                 /\ length col = nrows (weather_series w)) ->
  no_sep_start ".epw" orig EmptyString = true ->
  exists w',
    create_variable_weather w orig cols (Some (mu, std))
    = (w', Ok (Some (orig +:+ "_Random_" +:+ py_str mu +:+ "_"
                          +:+ py_str std +:+ ".epw"))).
Proof.
  intros Hstd Hnd Hcols Hno.
  destruct (create_variable_weather_some w orig cols mu std Hstd Hnd Hcols)
    as (sub & stem & rest & _ & _ & _ & Hsplit & Hrun).
  rewrite (split_from_no_sep ".epw" orig Hno EmptyString) in Hsplit.
  injection Hsplit as <- _. cbv zeta in Hrun.
  change (EmptyString +:+ orig) with orig in Hrun.
  eexists. exact Hrun.
Qed.

Lemma create_variable_weather_no_suffix_witness :
  exists w',
    create_variable_weather (rng := counting_source) example_world
      "city.EPW" ["drybulb"] (Some (0, 2))
    = (w', Ok (Some ("city.EPW" +:+ "_Random_" +:+ py_str 0 +:+ "_"
                                +:+ py_str 2 +:+ ".epw"))).
Proof.
  apply (create_variable_weather_no_suffix (rng := counting_source)
           example_world "city.EPW" ["drybulb"] 0 2).
  - reflexivity.
  - apply NoDup_singleton.
  - intros c Hc. apply list_elem_of_singleton in Hc. subst c.
    exists [10; 20]. split; [vm_compute; reflexivity | reflexivity].
  - reflexivity.
Defined.

(** X18: with a noise specification numpy accepts but an empty list of
    targets the call still succeeds and
    writes a file: no draw is taken, the series stays as it is, and the
    new file holds a copy of it. *)
Theorem create_variable_weather_no_columns
    {V R : Type} {num : PyNumber V} {rng : RandomSource R V}
    (w : World V R) (orig : string) (mu std : V) :
  accepted_variation mu std = true ->
  exists filename,
    create_variable_weather w orig [] (Some (mu, std))
    = (mk_World (weather_series w)
         (<[filename := weather_series w]> (files w)) (random_state w),
       Ok (Some filename)).
Proof.
  intros Hstd.
  destruct (create_variable_weather_some w orig [] mu std Hstd)
    as (sub & stem & rest & Hsub & _ & _ & Hsplit & Hrun);
    [constructor | intros c Hc; now apply elem_of_nil in Hc |].
  cbv zeta in Hrun. rewrite normal_state in Hrun.
  cbn [length] in Hrun. rewrite Nat.mul_0_r in Hrun.
  cbn [draws snd setitem_columns] in Hrun.
  destruct (weather_series w) as [n m] eqn:Hw. cbn [nrows columns] in Hrun.
  eexists. exact Hrun.
Qed.

Lemma create_variable_weather_no_columns_witness :
  exists filename,
    create_variable_weather (rng := counting_source) example_world "X.epw"
      [] (Some (0, 2))
    = (mk_World (weather_series example_world)
         (<[filename := weather_series example_world]> (files example_world))
         (random_state example_world),
       Ok (Some filename)).
Proof.
  apply (create_variable_weather_no_columns (rng := counting_source)
           example_world "X.epw" 0 2).
  reflexivity.
Defined.

(** ** [Logger.getLogger]: what it leaves alone, failure, inheritance *)

Lemma getLogger_registry (format_accepted : string -> bool) (reg : Registry)
    (name : string) (lvl : Z) (fmt : string) :
  let reg1 := (logging_getLogger reg name).1 in
  let r := logger_ref_of name in
  getLogger format_accepted reg name lvl fmt
  = if format_accepted fmt then
      (update_logger
         (update_logger
            (update_logger
               (mk_Registry (root reg1) (loggerDict reg1)
                            (S (next_handler_id reg1)))
               r (addHandler (mk_Handler (next_handler_id reg1) (Some (stored_format fmt)))))
            r (setLevel lvl))
         r (set_propagate false),
       Ok r)
    else
      (mk_Registry (root reg1) (loggerDict reg1) (S (next_handler_id reg1)),
       Raise ValueError).
Proof.
  cbv zeta. unfold getLogger, logging_getLogger, logger_ref_of, Formatter.
  destruct (bool_decide (name = EmptyString)
            || bool_decide (name = ref_name RootLogger));
    destruct (format_accepted fmt); reflexivity.
Qed.

Lemma ref_config_update_other (reg : Registry) (r r' : logger_ref)
    (f : Logger -> Logger) :
  r' <> r -> ref_config (update_logger reg r f) r' = ref_config reg r'.
Proof.
  intros Hne. destruct r as [|k], r' as [|k']; cbn; try reflexivity.
  - congruence.
  - rewrite lookup_alter_ne; [reflexivity | congruence].
Qed.

Lemma ref_config_logging_getLogger (reg : Registry) (name : string)
    (r : logger_ref) :
  ref_config (logging_getLogger reg name).1 r = ref_config reg r.
Proof.
  unfold logging_getLogger.
  destruct (bool_decide (name = EmptyString)
            || bool_decide (name = ref_name RootLogger)); [reflexivity|].
  destruct r as [|k]; cbn; [reflexivity|].
  apply (Manager_getLogger_spec (loggerDict reg) name).
Qed.

(** X19: configuring one logger leaves level, propagate flag and handlers
    of every other logger as they were, whether the call succeeds or
    raises. *)
Theorem getLogger_other_loggers (format_accepted : string -> bool)
    (reg : Registry) (name : string) (lvl : Z) (fmt : string)
    (r : logger_ref) :
  r <> logger_ref_of name ->
  ref_config (getLogger format_accepted reg name lvl fmt).1 r
  = ref_config reg r.
Proof.
  intros Hne. rewrite getLogger_registry. cbv zeta.
  destruct (format_accepted fmt); cbn [fst].
  - rewrite !ref_config_update_other by exact Hne.
    rewrite <- (ref_config_logging_getLogger reg name r).
    now destruct r.
  - rewrite <- (ref_config_logging_getLogger reg name r).
    now destruct r.
Qed.

Lemma getLogger_other_loggers_witness :
  ref_config
    (getLogger (fun _ => true)
       (getLogger (fun _ => true) initial "energym" 10 "%(message)s").1
       "energym.env" 40 "%(name)s").1
    (Named "energym")
  = ref_config
      (getLogger (fun _ => true) initial "energym" 10 "%(message)s").1
      (Named "energym").
Proof.
  apply (getLogger_other_loggers (fun _ => true)
           (getLogger (fun _ => true) initial "energym" 10 "%(message)s").1
           "energym.env" 40 "%(name)s" (Named "energym")).
  vm_compute. discriminate.
Defined.

(** X20: when the formatter rejects the format string the call raises
    [ValueError], but only after the logger has been looked up or created
    and the handler object built: the name is registered afterwards, a
    handler identity is used up, and no logger's level, propagate flag or
    handlers have changed, so a logger created by the failed call is left
    at level [NOTSET], propagating, without handlers. *)
Theorem getLogger_rejected_format_state (format_accepted : string -> bool)
    (reg : Registry) (name : string) (lvl : Z) (fmt : string) :
  format_accepted fmt = false ->
  let out := getLogger format_accepted reg name lvl fmt in
  out.2 = Raise ValueError
  /\ logging_getLogger out.1 name = (out.1, logger_ref_of name)
  /\ is_Some (get_logger out.1 (logger_ref_of name))
  /\ next_handler_id out.1 = S (next_handler_id reg)
  /\ forall r, ref_config out.1 r = ref_config reg r.
Proof.
  intros Hfmt. cbv zeta. rewrite getLogger_registry. cbv zeta.
  rewrite Hfmt. cbn [fst snd].
  unfold logging_getLogger, logger_ref_of.
  destruct (bool_decide (name = EmptyString)
            || bool_decide (name = ref_name RootLogger)) eqn:Hroot;
    cbn [fst snd root loggerDict next_handler_id].
  - split; [reflexivity|]. split; [reflexivity|]. split; [now eexists|].
    split; [reflexivity|]. intros r. now destruct r.
  - destruct (Manager_getLogger_spec (loggerDict reg) name) as [Hcfg Hlog].
    cbn [root loggerDict next_handler_id].
    destruct (Manager_getLogger (loggerDict reg) name !! name)
      as [[l1|ph]|] eqn:Hl1; try discriminate.
    split; [reflexivity|].
    split; [unfold Manager_getLogger at 1; now rewrite Hl1|].
    split; [cbn [get_logger loggerDict]; rewrite Hl1; now eexists|].
    split; [reflexivity|].
    intros r. destruct r as [|k]; cbn; [reflexivity | apply Hcfg].
Qed.

Lemma getLogger_rejected_format_state_witness :
  let out := getLogger (fun s => String.prefix "%(" s) initial "energym" 20
               "plain text" in
  out.2 = Raise ValueError
  /\ logging_getLogger out.1 "energym" = (out.1, logger_ref_of "energym")
  /\ is_Some (get_logger out.1 (logger_ref_of "energym"))
  /\ next_handler_id out.1 = S (next_handler_id initial)
  /\ forall r, ref_config out.1 r = ref_config initial r.
Proof.
  apply (getLogger_rejected_format_state (fun s => String.prefix "%(" s)
           initial "energym" 20 "plain text").
  reflexivity.
Defined.

Lemma dotless_get (s : string) :
  dotless s = true -> forall i, String.get i s <> Some "."%char.
Proof.
  induction s as [|c s IH]; intros Hd i; [now destruct i|].
  cbn [dotless] in Hd. apply andb_prop in Hd as [Hc Hs].
  apply negb_true_iff, Ascii.eqb_neq in Hc.
  destruct i as [|i]; cbn [String.get]; [congruence | now apply IH].
Qed.

Lemma _fixupParents_from_dotless (name : string) :
  dotless name = true ->
  forall stop dict, _fixupParents_from name stop dict = (dict, RootLogger).
Proof.
  intros Hd stop. induction stop as [|i IH]; intros dict; [reflexivity|].
  cbn [_fixupParents_from].
  rewrite bool_decide_eq_false_2 by now apply dotless_get.
  apply IH.
Qed.

Lemma getEffectiveLevel_parent (reg : Registry) (r p : logger_ref)
    (lg lp : Logger) :
  get_logger reg r = Some lg -> level lg = NOTSET -> parent lg = Some p ->
  get_logger reg p = Some lp -> level lp <> NOTSET ->
  getEffectiveLevel reg r = level lp.
Proof.
  intros Hget Hl0 Hparent Hgetp Hlp. unfold getEffectiveLevel.
  cbn [effective_level_from]. rewrite Hget, Hl0, Hparent.
  change (NOTSET =? 0) with true. cbn iota. rewrite Hgetp.
  destruct (Z.eqb_spec (level lp) 0); [contradiction|reflexivity].
Qed.

(** X21: a logger created by the factory under a name without dots and
    with level [NOTSET] takes its effective level from the root logger,
    whatever level the root has (a level other than [NOTSET]). *)
Theorem getLogger_notset_inherits_root (format_accepted : string -> bool)
    (reg : Registry) (name : string) (fmt : string) :
  format_accepted fmt = true ->
  dotless name = true ->
  name <> EmptyString -> name <> "root" ->
  loggerDict reg !! name = None ->
  level (root reg) <> 0 ->
  getEffectiveLevel (getLogger format_accepted reg name NOTSET fmt).1
    (Named name)
  = level (root reg).
Proof.
  intros Hfmt Hdot Hne Hnr Hnew Hroot.
  rewrite getLogger_registry. cbv zeta. rewrite Hfmt. cbn [fst].
  unfold logger_ref_of, logging_getLogger.
  rewrite (bool_decide_eq_false_2 _ Hne).
  rewrite (bool_decide_eq_false_2 (name = ref_name RootLogger)) by exact Hnr.
  cbn [orb fst root loggerDict next_handler_id update_logger].
  unfold Manager_getLogger. rewrite Hnew.
  unfold _fixupParents. rewrite (_fixupParents_from_dotless name Hdot).
  set (h := mk_Handler (next_handler_id reg) (Some (stored_format fmt))).
  set (l0 := set_parent (Some RootLogger) new_Logger).
  apply (getEffectiveLevel_parent _ (Named name) RootLogger
           (set_propagate false (setLevel NOTSET (addHandler h l0)))
           (root reg)).
  - cbn [get_logger loggerDict].
    rewrite !lookup_alter_eq, lookup_insert_eq. reflexivity.
  - reflexivity.
  - unfold addHandler. now destruct (bool_decide _).
  - reflexivity.
  - exact Hroot.
Qed.

Lemma getLogger_notset_inherits_root_witness :
  getEffectiveLevel
    (getLogger (fun _ => true) initial "energym" NOTSET "%(message)s").1
    (Named "energym")
  = level (root initial).
Proof.
  apply (getLogger_notset_inherits_root (fun _ => true) initial "energym"
           "%(message)s").
  - reflexivity.
  - reflexivity.
  - discriminate.
  - discriminate.
  - apply lookup_empty.
  - discriminate.
Defined.

(** X22: every successful call adds one handler to the same logger. After a
    run of calls for one name the logger has the handlers it had before
    followed by one new handler per call, in call order, each carrying the
    format its formatter keeps: the format string of its call, or the
    default [%(message)s] where that string is empty. *)
Theorem getLogger_calls_handlers (format_accepted : string -> bool)
    (name : string) (calls : list (Z * string)) :
  forall reg,
    Forall (fun c => format_accepted c.2 = true) calls ->
    handler_ids_fresh reg ->
    exists new,
      handlers_before (getLogger_calls format_accepted reg name calls)
        (logger_ref_of name)
      = handlers_before reg (logger_ref_of name) ++ new
      /\ formatter <$> new = (fun c => Some (stored_format c.2)) <$> calls.
Proof.
  induction calls as [|[lvl fmt] calls IH]; intros reg Hall Hfresh.
  - exists []. cbn. now rewrite app_nil_r.
  - apply Forall_cons in Hall as [Hfmt Hall]. cbn [snd] in Hfmt.
    destruct (getLogger_once format_accepted reg name lvl fmt Hfmt Hfresh)
      as (reg' & lg & Hrun & _ & Hget & _ & _ & Hhs & _ & Hfresh').
    cbn [getLogger_calls]. rewrite Hrun. cbn [fst].
    destruct (IH reg' Hall Hfresh') as (new & Hnew & Hfmts).
    exists (mk_Handler (next_handler_id reg) (Some (stored_format fmt)) :: new).
    split.
    + rewrite Hnew. unfold handlers_before at 1. rewrite Hget, Hhs.
      now rewrite <- app_assoc.
    + cbn [fmap list_fmap formatter snd]. f_equal. exact Hfmts.
Qed.

Lemma getLogger_calls_handlers_witness :
  exists new,
    handlers_before
      (getLogger_calls (fun _ => true) initial "energym"
         [(10, "%(message)s"); (20, EmptyString); (30, "%(levelname)s")])
      (logger_ref_of "energym")
    = handlers_before initial (logger_ref_of "energym") ++ new
    /\ formatter <$> new
       = (fun c : Z * string => Some (stored_format c.2))
           <$> [(10, "%(message)s"); (20, EmptyString); (30, "%(levelname)s")].
Proof.
  apply (getLogger_calls_handlers (fun _ => true) "energym"
           [(10, "%(message)s"); (20, EmptyString); (30, "%(levelname)s")]
           initial).
  - repeat constructor.
  - exact handler_ids_fresh_initial.
Defined.

(** X23: with the empty name or the name [root] the factory configures the
    root logger itself. Every logger directly below the root whose own
    level is [NOTSET] then has the requested level as its effective
    level. *)
Theorem getLogger_root_inherited (format_accepted : string -> bool)
    (reg : Registry) (name : string) (lvl : Z) (fmt : string)
    (k : string) (l : Logger) :
  logger_ref_of name = RootLogger ->
  format_accepted fmt = true ->
  lvl <> NOTSET ->
  get_logger reg (Named k) = Some l ->
  level l = NOTSET ->
  parent l = Some RootLogger ->
  getEffectiveLevel (getLogger format_accepted reg name lvl fmt).1 (Named k)
  = lvl.
Proof.
  intros Href Hfmt Hlvl Hget Hl0 Hparent.
  rewrite getLogger_registry. cbv zeta. rewrite Hfmt, Href. cbn [fst].
  assert (Hreg : (logging_getLogger reg name).1 = reg).
  { unfold logger_ref_of in Href. unfold logging_getLogger.
    destruct (bool_decide (name = EmptyString)
              || bool_decide (name = ref_name RootLogger));
      [reflexivity | discriminate]. }
  rewrite Hreg.
  cbn [update_logger root loggerDict next_handler_id].
  match goal with
  | |- getEffectiveLevel
         (mk_Registry (set_propagate false (setLevel lvl ?x)) _ _) _ = _ =>
      apply (getEffectiveLevel_parent _ (Named k) RootLogger l
               (set_propagate false (setLevel lvl x)))
  end; try assumption; try reflexivity.
Qed.

Lemma getLogger_root_inherited_witness :
  getEffectiveLevel
    (getLogger (fun _ => true)
       (getLogger (fun _ => true) initial "energym" NOTSET "%(message)s").1
       EmptyString 10 "%(message)s").1
    (Named "energym")
  = 10.
Proof.
  apply (getLogger_root_inherited (fun _ => true)
           (getLogger (fun _ => true) initial "energym" NOTSET "%(message)s").1
           EmptyString 10 "%(message)s" "energym"
           (mk_Logger NOTSET false [mk_Handler 0 (Some "%(message)s")]
                      (Some RootLogger))).
  - reflexivity.
  - reflexivity.
  - discriminate.
  - vm_compute. reflexivity.
  - reflexivity.
  - reflexivity.
Defined.

(** ** The two time functions together *)

(** X24: the interval length and the clock agree. With the run period
    beginning on the start date, the last second of the interval that
    [get_delta_seconds] measures is hour 23 of the end day, and the first
    second after it is hour 0 of another day. *)
Theorem interval_ends_on_end_day
    (epm : Epm) (rp : gmap string Z) (y m1 d1 m2 d2 : Z) :
  RunPeriod epm !! 0%nat = Some rp ->
  rp !! "begin_month" = Some m1 ->
  rp !! "begin_day_of_month" = Some d1 ->
  valid_date y m1 d1 -> valid_date y m2 d2 ->
  (y, m2, d2) <> (9999, 12, 31) ->
  exists s d' m',
    get_delta_seconds y m1 d1 m2 d2 = Ok s
    /\ get_current_time_info epm (s - 1) y = Ok (d2, m2, 23)
    /\ get_current_time_info epm s y = Ok (d', m', 0)
    /\ (d', m') <> (d2, m2).
Proof.
  intros Hrp Hbm Hbd Hv1 Hv2 Hlast.
  pose proof (_ymd2ord_bounds _ _ _ Hv1) as Hb1.
  pose proof (_ymd2ord_bounds _ _ _ Hv2) as Hb2.
  assert (Hlt : _ymd2ord y m2 d2 < _MAXORDINAL).
  { destruct (Z.eq_dec (_ymd2ord y m2 d2) _MAXORDINAL) as [Heq|Hne]; [|lia].
    destruct (_ymd2ord_last _ _ _ Hv2 Heq) as (-> & -> & ->).
    now contradiction Hlast. }
  set (k := _ymd2ord y m2 d2 - _ymd2ord y m1 d1).
  assert (Hq1 : (86400 * (k + 1) - 1) / 86400 = k)
    by (Z.to_euclidean_division_equations; lia).
  assert (Hr1 : (86400 * (k + 1) - 1) mod 86400 / 3600 = 23)
    by (Z.to_euclidean_division_equations; lia).
  assert (Hq2 : (86400 * (k + 1)) / 86400 = k + 1)
    by (Z.to_euclidean_division_equations; lia).
  assert (Hr2 : (86400 * (k + 1)) mod 86400 / 3600 = 0)
    by (Z.to_euclidean_division_equations; lia).
  destruct (_ord2ymd_spec (_ymd2ord y m2 d2) ltac:(lia))
    as (ya & ma & da & Hymd & Hval & Hback).
  destruct (_ymd2ord_inj ya ma da y m2 d2) as (-> & -> & ->);
    try apply Hval; try apply Hv2; [exact Hback|].
  destruct (_ord2ymd_spec (_ymd2ord y m2 d2 + 1) ltac:(lia))
    as (yb & mb & db & Hymd' & Hval' & Hback').
  exists (86400 * (k + 1)), db, mb.
  split; [unfold k; now apply get_delta_seconds_ordinals|].
  rewrite !(get_current_time_info_valid_start epm rp m1 d1 y _
              Hrp Hbm Hbd Hv1).
  rewrite Hq1, Hr1, Hq2, Hr2.
  replace (_ymd2ord y m1 d1 + k) with (_ymd2ord y m2 d2) by (unfold k; lia).
  replace (_ymd2ord y m1 d1 + (k + 1)) with (_ymd2ord y m2 d2 + 1)
    by (unfold k; lia).
  rewrite Hymd, Hymd'.
  destruct (Z.ltb_spec 0 (_ymd2ord y m2 d2)); [|lia].
  destruct (Z.leb_spec (_ymd2ord y m2 d2) _MAXORDINAL); [|lia].
  destruct (Z.ltb_spec 0 (_ymd2ord y m2 d2 + 1)); [|lia].
  destruct (Z.leb_spec (_ymd2ord y m2 d2 + 1) _MAXORDINAL); [|lia].
  cbn [andb]. repeat split.
  intros Heq. injection Heq as -> ->.
  destruct (Z.lt_trichotomy yb y) as [Hy|[->|Hy]].
  - pose proof (_ymd2ord_year_lt yb m2 d2 y m2 d2) as Hl.
    destruct Hval' as (_ & ? & ?), Hv2 as (_ & ? & ?).
    specialize (Hl ltac:(assumption) ltac:(assumption) ltac:(assumption)
                   ltac:(assumption) Hy). lia.
  - lia.
  - pose proof (_ymd2ord_year_lt y m2 d2 yb m2 d2) as Hl.
    destruct Hval' as (_ & ? & ?), Hv2 as (_ & ? & ?).
    specialize (Hl ltac:(assumption) ltac:(assumption) ltac:(assumption)
                   ltac:(assumption) Hy).
    pose proof (_days_before_year_step y) as Hstep.
    pose proof (_days_before_year_mono (y + 1) (Z.to_nat (yb - (y + 1))))
      as Hmono.
    rewrite Z2Nat.id in Hmono by lia.
    replace (y + 1 + (yb - (y + 1))) with yb in Hmono by lia.
    unfold _ymd2ord, _days_before_month in *.
    destruct (_is_leap y), (_is_leap yb);
      destruct (2 <? m2); cbn [andb] in *; lia.
Qed.

Lemma interval_ends_on_end_day_witness :
  exists s d' m',
    get_delta_seconds 1991 1 1 3 31 = Ok s
    /\ get_current_time_info
         (mk_Epm [ {[ "begin_month" := 1; "begin_day_of_month" := 1 ]} ])
         (s - 1) 1991 = Ok (31, 3, 23)
    /\ get_current_time_info
         (mk_Epm [ {[ "begin_month" := 1; "begin_day_of_month" := 1 ]} ])
         s 1991 = Ok (d', m', 0)
    /\ (d', m') <> (31, 3).
Proof.
  apply (interval_ends_on_end_day _
           {[ "begin_month" := 1; "begin_day_of_month" := 1 ]} 1991 1 1 3 31).
  - reflexivity.
  - vm_compute. reflexivity.
  - vm_compute. reflexivity.
  - repeat split; vm_compute; discriminate.
  - repeat split; vm_compute; discriminate.
  - discriminate.
Defined.

(** ** The logger hierarchy: a child created below an existing logger *)

Lemma string_get_app_r (p s : string) (j : nat) :
  String.get (String.length p + j) (p +:+ s) = String.get j s.
Proof.
  induction p as [|ch p IH]; [reflexivity|].
  rewrite string_app_cons. cbn [String.length Nat.add String.get]. exact IH.
Qed.

Lemma string_substring_app (p s : string) :
  String.substring 0 (String.length p) (p +:+ s) = p.
Proof.
  induction p as [|ch p IH]; [now destruct s|].
  rewrite string_app_cons. cbn [String.length String.substring]. now rewrite IH.
Qed.

Lemma _fixupParents_from_child (p c : string) (lp : Logger)
    (dict : gmap string node) :
  p <> EmptyString -> dotless c = true ->
  dict !! p = Some (LoggerNode lp) ->
  forall j, (j <= String.length c)%nat ->
    _fixupParents_from (p +:+ "." +:+ c) (String.length p + 1 + j) dict
    = (dict, Named p).
Proof.
  intros Hp Hc Hlp.
  assert (Hdot : String.get (String.length p) (p +:+ "." +:+ c)
                 = Some "."%char).
  { replace (String.length p) with (String.length p + 0)%nat by lia.
    now rewrite string_get_app_r. }
  assert (Hrest : forall j, String.get (String.length p + 1 + j)
                              (p +:+ "." +:+ c) = String.get j c).
  { intros j. replace (String.length p + 1 + j)%nat
      with (String.length p + S j)%nat by lia.
    now rewrite string_get_app_r. }
  induction j as [|j IH]; intros Hj.
  - replace (String.length p + 1 + 0)%nat with (S (String.length p)) by lia.
    cbn [_fixupParents_from]. rewrite Hdot.
    rewrite bool_decide_eq_true_2 by reflexivity.
    destruct p as [|ch p]; [congruence|].
    change (S (String.length p)) with (String.length (String ch p)).
    rewrite string_substring_app, Hlp. reflexivity.
  - replace (String.length p + 1 + S j)%nat
      with (S (String.length p + 1 + j)) by lia.
    cbn [_fixupParents_from]. rewrite Hrest.
    rewrite bool_decide_eq_false_2 by now apply dotless_get.
    apply IH. lia.
Qed.

(** X25: a logger created by the factory with level [NOTSET] one step
    below an existing logger (its name is the parent's name, a dot, and a
    part without dots) takes its effective level from that parent, when
    the parent has a level of its own. *)
Theorem getLogger_notset_inherits_parent (format_accepted : string -> bool)
    (reg : Registry) (p c : string) (fmt : string) (lp : Logger) :
  format_accepted fmt = true ->
  p <> EmptyString -> dotless c = true ->
  loggerDict reg !! (p +:+ "." +:+ c) = None ->
  get_logger reg (Named p) = Some lp ->
  level lp <> NOTSET ->
  getEffectiveLevel
    (getLogger format_accepted reg (p +:+ "." +:+ c) NOTSET fmt).1
    (Named (p +:+ "." +:+ c))
  = level lp.
Proof.
  intros Hfmt Hp Hc Hnew Hget Hlvl.
  set (name := p +:+ "." +:+ c) in *.
  assert (Hdot : String.get (String.length p) name = Some "."%char).
  { unfold name.
    replace (String.length p) with (String.length p + 0)%nat by lia.
    now rewrite string_get_app_r. }
  assert (Hne : name <> EmptyString).
  { intros Heq. rewrite Heq in Hdot. now destruct (String.length p). }
  assert (Hnr : name <> "root").
  { intros Heq. rewrite Heq in Hdot.
    now apply (dotless_get "root" eq_refl) in Hdot. }
  assert (Hpn : p <> name).
  { intros Heq. apply (f_equal String.length) in Heq. unfold name in Heq.
    rewrite string_length_app in Heq.
    change ("." +:+ c) with (String "." c) in Heq. cbn in Heq. lia. }
  cbn [get_logger] in Hget.
  destruct (loggerDict reg !! p) as [[lp'|ph]|] eqn:Hlp; try discriminate.
  injection Hget as ->.
  rewrite getLogger_registry. cbv zeta. rewrite Hfmt. cbn [fst].
  unfold logger_ref_of, logging_getLogger.
  rewrite (bool_decide_eq_false_2 _ Hne).
  rewrite (bool_decide_eq_false_2 (name = ref_name RootLogger)) by exact Hnr.
  cbn [orb fst root loggerDict next_handler_id update_logger].
  unfold Manager_getLogger. rewrite Hnew. unfold _fixupParents.
  assert (Hlen : String.length name
                 = (String.length p + 1 + String.length c)%nat).
  { unfold name. rewrite string_length_app.
    change ("." +:+ c) with (String "." c). cbn. lia. }
  rewrite Hlen.
  rewrite (_fixupParents_from_child p c lp
             (<[name := LoggerNode new_Logger]> (loggerDict reg)) Hp Hc)
    by (rewrite ?lookup_insert_ne by congruence; (exact Hlp || lia)).
  set (h := mk_Handler (next_handler_id reg) (Some (stored_format fmt))).
  set (l0 := set_parent (Some (Named p)) new_Logger).
  apply (getEffectiveLevel_parent _ (Named name) (Named p)
           (set_propagate false (setLevel NOTSET (addHandler h l0))) lp).
  - cbn [get_logger loggerDict].
    rewrite !lookup_alter_eq, lookup_insert_eq. reflexivity.
  - reflexivity.
  - unfold addHandler. now destruct (bool_decide _).
  - cbn [get_logger loggerDict].
    rewrite !lookup_alter_ne by congruence.
    rewrite lookup_insert_ne by congruence. now rewrite Hlp.
  - exact Hlvl.
Qed.

Lemma getLogger_notset_inherits_parent_witness :
  getEffectiveLevel
    (getLogger (fun _ => true)
       (getLogger (fun _ => true) initial "energym" 10 "%(message)s").1
       ("energym" +:+ "." +:+ "env") NOTSET "%(message)s").1
    (Named ("energym" +:+ "." +:+ "env"))
  = level (mk_Logger 10 false [mk_Handler 0 (Some "%(message)s")]
                     (Some RootLogger)).
Proof.
  apply (getLogger_notset_inherits_parent (fun _ => true)
           (getLogger (fun _ => true) initial "energym" 10 "%(message)s").1
           "energym" "env" "%(message)s").
  - reflexivity.
  - discriminate.
  - reflexivity.
  - vm_compute. reflexivity.
  - vm_compute. reflexivity.
  - discriminate.
Defined.
